(** * TrynerApp motion engine: a shallow embedding and its verified properties

    The motion-sensing pipeline of the application (low-pass filter, signal
    processor, peak detector, squat repetition detector, feature extractor,
    scoring engine and the orchestrating [MotionEngine]) is embedded below as
    Rocq functions.  A JavaScript [number] is an IEEE 754 binary64 value, so
    it is modelled by Rocq's primitive [float]: arithmetic, comparisons, NaN,
    the infinities and signed zeros behave exactly as in the source.  Mutable
    objects become records that are passed and returned explicitly; a call
    that may throw returns a [completion]. *)

From Stdlib Require Import String ZArith Lia Bool Floats List.
Import ListNotations.

Set Warnings "-inexact-float".
Local Open Scope float_scope.

(** ** JavaScript numbers and built-ins *)

Module JS.

Definition number := float.

(** A JavaScript exception value; only its message matters here. *)
Inductive Error : Type := mkError (message : string).

(** Result of evaluating a call: it returns normally or throws. *)
Inductive completion (A : Type) : Type :=
| Normal (value : A)
| Throw (error : Error).
Arguments Normal {A} value.
Arguments Throw {A} error.

Definition isNaN (x : number) : bool := is_nan x.
Definition isFinite (x : number) : bool := is_finite x.

(** [a > b] and [a >= b] are the mirrored primitive comparisons; all four
    comparisons are false as soon as one operand is NaN. *)
Definition gt (a b : number) : bool := b <? a.
Definition ge (a b : number) : bool := b <=? a.

(** [Math.max] of two arguments: NaN is contagious and [+0] is larger
    than [-0]. *)
Definition max2 (a b : number) : number :=
  if is_nan a || is_nan b then nan
  else if b <? a then a
  else if a <? b then b
  else if is_zero a then (if get_sign a then b else a)
  else a.

(** [Math.min] of two arguments: NaN is contagious and [-0] is smaller
    than [+0]. *)
Definition min2 (a b : number) : number :=
  if is_nan a || is_nan b then nan
  else if a <? b then a
  else if b <? a then b
  else if is_zero a then (if get_sign a then a else b)
  else a.

(** [Math.max(...xs)] and [Math.min(...xs)]: variadic, starting from
    [-Infinity] and [+Infinity]. *)
Definition Math_max (xs : list number) : number := fold_left max2 xs neg_infinity.
Definition Math_min (xs : list number) : number := fold_left min2 xs infinity.

Definition Math_abs (x : number) : number := abs x.
Definition Math_sqrt (x : number) : number := sqrt x.

(** The number denoted by an integer of magnitude below [2^63]
    (exact below [2^53]). *)
Definition of_Z (n : Z) : number :=
  match n with
  | Z0 => zero
  | Zpos _ => of_uint63 (Uint63.of_Z n)
  | Zneg p => - of_uint63 (Uint63.of_Z (Zpos p))
  end.

(** [Math.round]: the integral number closest to [x], the one closer to
    [+Infinity] on a tie; NaN, the infinities, the zeros and the integral
    numbers are returned unchanged, and a result of zero keeps the sign of
    [x].  A finite non-zero [x] is [(-1)^s * m * 2^e]; when [e < 0] the
    result is [floor (x + 1/2)], computed on integers. *)
Definition Math_round (x : number) : number :=
  match Prim2SF x with
  | S754_finite s m e =>
      if (0 <=? e)%Z then x
      else
        let n := ((2 * (if s then Zneg m else Zpos m) + 2 ^ (- e)) / 2 ^ (1 - e))%Z in
        if (n =? 0)%Z then (if s then neg_zero else zero) else of_Z n
  | _ => x
  end.

End JS.
Import JS.

(** ** LowPassFilter: exponential moving average *)

Module LowPassFilter.

Record t : Type := mk {
  alpha : number;
  previousX : number;
  previousY : number;
  previousZ : number;
  isInitialized : bool
}.

Definition alpha_error : Error :=
  mkError "LowPassFilter: alpha must be between 0 and 1".

(** [constructor(alpha)]: the guard is [alpha < 0 || alpha > 1]. *)
Definition constructor (a : number) : completion t :=
  if (a <? 0) || gt a 1 then Throw alpha_error
  else Normal (mk a 0 0 0 false).

Definition filter (f : t) (rawX rawY rawZ : number) : t * (number * number * number) :=
  if negb (isInitialized f) then
    (mk (alpha f) rawX rawY rawZ true, (rawX, rawY, rawZ))
  else
    let filteredX := alpha f * rawX + (1 - alpha f) * previousX f in
    let filteredY := alpha f * rawY + (1 - alpha f) * previousY f in
    let filteredZ := alpha f * rawZ + (1 - alpha f) * previousZ f in
    (mk (alpha f) filteredX filteredY filteredZ true, (filteredX, filteredY, filteredZ)).

Definition reset (f : t) : t := mk (alpha f) 0 0 0 false.

Definition setAlpha (f : t) (a : number) : completion t :=
  if (a <? 0) || gt a 1 then Throw alpha_error
  else Normal (mk a (previousX f) (previousY f) (previousZ f) (isInitialized f)).

Definition getAlpha (f : t) : number := alpha f.
Definition isReady (f : t) : bool := isInitialized f.

End LowPassFilter.

(** ** Shared data types (types.ts) *)

Module AccelerometerData.
Record t : Type := mk { x : number; y : number; z : number; timestamp : number }.
End AccelerometerData.

Module ProcessedSensorData.
Record t : Type := mk {
  x : number;
  y : number;
  z : number;
  timestamp : number;
  magnitude : number;
  filteredX : number;
  filteredY : number;
  filteredZ : number;
  filteredMagnitude : number
}.
End ProcessedSensorData.

Inductive RepPhase : Type := idle | descending | bottom | ascending | completed.

Inductive Technique : Type := excellent | optimal | good | acceptable | poor.

Module RepFeatures.
Record t : Type := mk {
  descendDuration : number;
  ascendDuration : number;
  totalDuration : number;
  depthScore : number;
  stabilityScore : number;
  rangeScore : number;
  peakMagnitude : number;
  valleyMagnitude : number;
  magnitudeChange : number;
  zAxisChange : number
}.
End RepFeatures.

Module RepScore.
Record t : Type := mk {
  overall : number;
  depth : number;
  stability : number;
  consistency : number;
  technique : Technique
}.
End RepScore.

(** [repNumber] counts repetitions; counters are kept as natural numbers
    (a double represents every integer a session can reach exactly). *)
Module DetectedRep.
Record t : Type := mk {
  repNumber : nat;
  timestamp : number;
  duration : number;
  depth : number;
  isValid : bool;
  features : RepFeatures.t;
  score : option RepScore.t
}.
End DetectedRep.

Module SquatDetectionConfig.
Record t : Type := mk {
  minDepthThreshold : number;
  minZAxisChange : number;
  minRepDuration : number;
  maxRepDuration : number;
  peakProminence : number;
  minPeakDistance : number;
  minStabilityScore : number;
  minDepthScore : number;
  lowPassAlpha : number;
  samplingRate : number;
  bufferSize : number
}.

(** [Partial<SquatDetectionConfig>]: the fields present in an update. *)
Record partial : Type := mkPartial {
  p_minDepthThreshold : option number;
  p_minZAxisChange : option number;
  p_minRepDuration : option number;
  p_maxRepDuration : option number;
  p_peakProminence : option number;
  p_minPeakDistance : option number;
  p_minStabilityScore : option number;
  p_minDepthScore : option number;
  p_lowPassAlpha : option number;
  p_samplingRate : option number;
  p_bufferSize : option number
}.

Definition pick (o : option number) (old : number) : number :=
  match o with Some v => v | None => old end.

(** [{ ...c, ...p }] *)
Definition merge (c : t) (p : partial) : t :=
  mk (pick (p_minDepthThreshold p) (minDepthThreshold c))
     (pick (p_minZAxisChange p) (minZAxisChange c))
     (pick (p_minRepDuration p) (minRepDuration c))
     (pick (p_maxRepDuration p) (maxRepDuration c))
     (pick (p_peakProminence p) (peakProminence c))
     (pick (p_minPeakDistance p) (minPeakDistance c))
     (pick (p_minStabilityScore p) (minStabilityScore c))
     (pick (p_minDepthScore p) (minDepthScore c))
     (pick (p_lowPassAlpha p) (lowPassAlpha c))
     (pick (p_samplingRate p) (samplingRate c))
     (pick (p_bufferSize p) (bufferSize c)).
End SquatDetectionConfig.

(** ** Constants (core/constants.ts) *)

Definition DEFAULT_SQUAT_CONFIG : SquatDetectionConfig.t :=
  SquatDetectionConfig.mk 0.08 (-0.1) 100 60000 0.05 15 0 0 0.22 60 240.

Definition getScoreTechnique (score : number) : Technique :=
  if ge score 85 then excellent
  else if ge score 70 then optimal
  else if ge score 50 then good
  else if ge score 0 then acceptable
  else poor.

(** Validation failure reasons (for debugging). *)
Module VALIDATION_MESSAGES.
Definition INSUFFICIENT_DEPTH : string := "Profundidad insuficiente".
Definition INSUFFICIENT_Z_CHANGE : string := "Movimiento vertical insuficiente".
Definition TOO_FAST : string := "Repetición demasiado rápida".
Definition TOO_SLOW : string := "Repetición demasiado lenta".
Definition LOW_STABILITY : string := "Movimiento inestable".
Definition LOW_RANGE : string := "Rango de movimiento inconsistente".
End VALIDATION_MESSAGES.

(** ** SignalProcessor: filtering and magnitudes *)

Module SignalProcessor.

Record t : Type := mk { filter : LowPassFilter.t }.

Definition constructor (lowPassAlpha : number) : completion t :=
  match LowPassFilter.constructor lowPassAlpha with
  | Normal f => Normal (mk f)
  | Throw e => Throw e
  end.

Definition calculateMagnitude (x y z : number) : number :=
  Math_sqrt (x * x + y * y + z * z).

Definition process (sp : t) (raw : AccelerometerData.t) : t * ProcessedSensorData.t :=
  let '(f, (filteredX, filteredY, filteredZ)) :=
    LowPassFilter.filter (filter sp)
      (AccelerometerData.x raw) (AccelerometerData.y raw) (AccelerometerData.z raw) in
  let magnitude :=
    calculateMagnitude (AccelerometerData.x raw) (AccelerometerData.y raw) (AccelerometerData.z raw) in
  let filteredMagnitude := calculateMagnitude filteredX filteredY filteredZ in
  (mk f,
   ProcessedSensorData.mk
     (AccelerometerData.x raw) (AccelerometerData.y raw) (AccelerometerData.z raw)
     (AccelerometerData.timestamp raw)
     magnitude filteredX filteredY filteredZ filteredMagnitude).

Definition reset (sp : t) : t := mk (LowPassFilter.reset (filter sp)).

Definition setFilterAlpha (sp : t) (a : number) : completion t :=
  match LowPassFilter.setAlpha (filter sp) a with
  | Normal f => Normal (mk f)
  | Throw e => Throw e
  end.

Definition getFilterAlpha (sp : t) : number := LowPassFilter.getAlpha (filter sp).
Definition isReady (sp : t) : bool := LowPassFilter.isReady (filter sp).

End SignalProcessor.

(** ** RepFeatureExtractor *)

Module RepFeatureExtractor.

Record RepDataForExtraction : Type := mkData {
  descendStartTime : number;
  bottomTime : number;
  ascendStartTime : number;
  completionTime : number;
  peakMagnitude : number;
  valleyMagnitude : number;
  peakZValue : number;
  valleyZValue : number
}.

Definition calculateDepthScore (magnitudeChange : number) : number :=
  if ge magnitudeChange 1.2 then 100
  else if ge magnitudeChange 1.0 then 90
  else if ge magnitudeChange 0.8 then 70
  else if ge magnitudeChange 0.6 then 50
  else Math_max [0; (magnitudeChange / 0.6) * 50].

Definition calculateStabilityScore (descendDuration ascendDuration : number) : number :=
  if (ascendDuration =? 0) || (descendDuration =? 0) then 0
  else
    let ratio :=
      Math_min [descendDuration; ascendDuration] / Math_max [descendDuration; ascendDuration] in
    if ge ratio 0.9 then 100
    else if ge ratio 0.7 then 85
    else if ge ratio 0.5 then 65
    else if ge ratio 0.3 then 40
    else Math_max [0; ratio * 100].

Definition calculateRangeScore (magnitudeChange : number) : number :=
  if ge magnitudeChange 1.2 then 100
  else if ge magnitudeChange 1.0 then 90
  else if ge magnitudeChange 0.8 then 70
  else if ge magnitudeChange 0.6 then 50
  else Math_max [0; (magnitudeChange / 0.6) * 50].

Definition calculateTempoScore (totalDuration : number) : number :=
  let durationSeconds := totalDuration / 1000 in
  if ge durationSeconds 2 && (durationSeconds <=? 3) then 100
  else if ge durationSeconds 1.5 && (durationSeconds <=? 4) then 85
  else if ge durationSeconds 1 && (durationSeconds <=? 5) then 65
  else 40.

Definition extract (data : RepDataForExtraction) : RepFeatures.t :=
  let descendDuration := bottomTime data - descendStartTime data in
  let ascendDuration := completionTime data - ascendStartTime data in
  let totalDuration := completionTime data - descendStartTime data in
  let magnitudeChange := peakMagnitude data - valleyMagnitude data in
  let zAxisChange := valleyZValue data - peakZValue data in
  let depthScore := calculateDepthScore magnitudeChange in
  let stabilityScore := calculateStabilityScore descendDuration ascendDuration in
  let rangeScore := calculateRangeScore magnitudeChange in
  RepFeatures.mk descendDuration ascendDuration totalDuration
    depthScore stabilityScore rangeScore
    (peakMagnitude data) (valleyMagnitude data) magnitudeChange zAxisChange.

End RepFeatureExtractor.

(** ** RepDetector: the abstract detector's state and helpers *)

Module RepDetector.

Record t : Type := mk {
  currentPhase : RepPhase;
  repCount : nat;
  repStartTime : number;
  descendStartTime : number;
  bottomTime : number;
  ascendStartTime : number;
  peakMagnitude : number;
  valleyMagnitude : number;
  peakZValue : number;
  valleyZValue : number
}.

(** Field initialisers of the class. *)
Definition initial : t := mk idle 0%nat 0 0 0 0 0 infinity 0 0.

Definition getCurrentPhase (d : t) : RepPhase := currentPhase d.
Definition getRepCount (d : t) : nat := repCount d.

Definition resetRepState (d : t) : t :=
  mk (currentPhase d) (repCount d) 0 0 0 0 0 infinity 0 0.

Definition reset (d : t) : t :=
  resetRepState (mk idle 0%nat
    (repStartTime d) (descendStartTime d) (bottomTime d) (ascendStartTime d)
    (peakMagnitude d) (valleyMagnitude d) (peakZValue d) (valleyZValue d)).

Definition transitionToPhase (d : t) (newPhase : RepPhase) : t :=
  mk newPhase (repCount d)
    (repStartTime d) (descendStartTime d) (bottomTime d) (ascendStartTime d)
    (peakMagnitude d) (valleyMagnitude d) (peakZValue d) (valleyZValue d).

Definition isValidDuration (startTime endTime minDuration maxDuration : number) : bool :=
  let duration := endTime - startTime in
  ge duration minDuration && (duration <=? maxDuration).

Definition calculateDuration (startTime endTime : number) : number := endTime - startTime.

Definition updatePeakMagnitude (d : t) (magnitude : number) : t :=
  if gt magnitude (peakMagnitude d) then
    mk (currentPhase d) (repCount d)
      (repStartTime d) (descendStartTime d) (bottomTime d) (ascendStartTime d)
      magnitude (valleyMagnitude d) (peakZValue d) (valleyZValue d)
  else d.

Definition updateValleyMagnitude (d : t) (magnitude : number) : t :=
  if magnitude <? valleyMagnitude d then
    mk (currentPhase d) (repCount d)
      (repStartTime d) (descendStartTime d) (bottomTime d) (ascendStartTime d)
      (peakMagnitude d) magnitude (peakZValue d) (valleyZValue d)
  else d.

Definition updateZAxisTracking (d : t) (z : number) : t :=
  let d1 :=
    if gt z (peakZValue d) then
      mk (currentPhase d) (repCount d)
        (repStartTime d) (descendStartTime d) (bottomTime d) (ascendStartTime d)
        (peakMagnitude d) (valleyMagnitude d) z (valleyZValue d)
    else d in
  if z <? valleyZValue d1 then
    mk (currentPhase d1) (repCount d1)
      (repStartTime d1) (descendStartTime d1) (bottomTime d1) (ascendStartTime d1)
      (peakMagnitude d1) (valleyMagnitude d1) (peakZValue d1) z
  else d1.

Definition calculateMagnitudeChange (d : t) : number :=
  if negb (isFinite (valleyMagnitude d)) then 0
  else peakMagnitude d - valleyMagnitude d.

Definition calculateZAxisChange (d : t) : number := valleyZValue d - peakZValue d.

(** Field updates used by the concrete detector. *)
Definition incrementRepCount (d : t) : t :=
  mk (currentPhase d) (S (repCount d))
    (repStartTime d) (descendStartTime d) (bottomTime d) (ascendStartTime d)
    (peakMagnitude d) (valleyMagnitude d) (peakZValue d) (valleyZValue d).

Definition setStartTimes (d : t) (timestamp : number) : t :=
  mk (currentPhase d) (repCount d)
    timestamp timestamp (bottomTime d) (ascendStartTime d)
    (peakMagnitude d) (valleyMagnitude d) (peakZValue d) (valleyZValue d).

Definition setBottomTime (d : t) (timestamp : number) : t :=
  mk (currentPhase d) (repCount d)
    (repStartTime d) (descendStartTime d) timestamp (ascendStartTime d)
    (peakMagnitude d) (valleyMagnitude d) (peakZValue d) (valleyZValue d).

Definition setAscendStartTime (d : t) (timestamp : number) : t :=
  mk (currentPhase d) (repCount d)
    (repStartTime d) (descendStartTime d) (bottomTime d) timestamp
    (peakMagnitude d) (valleyMagnitude d) (peakZValue d) (valleyZValue d).

End RepDetector.

(** ** SquatDetector: the repetition state machine *)

Module SquatDetector.
Import RepDetector.

Record t : Type := mk { base : RepDetector.t; config : SquatDetectionConfig.t }.

Definition MAGNITUDE_DROP_THRESHOLD : number := 0.30.
Definition MAGNITUDE_RISE_THRESHOLD : number := 0.15.
Definition PHASE_TIMEOUT : number := 5000.

Definition constructor (cfg : SquatDetectionConfig.t) : t := mk RepDetector.initial cfg.

Definition reset (d : t) : t := mk (RepDetector.reset (base d)) (config d).
Definition getCurrentPhase (d : t) : RepPhase := currentPhase (base d).
Definition getRepCount (d : t) : nat := repCount (base d).

Definition setConfig (d : t) (p : SquatDetectionConfig.partial) : t :=
  mk (base d) (SquatDetectionConfig.merge (config d) p).
Definition getConfig (d : t) : SquatDetectionConfig.t := config d.

(** IDLE: a drop of more than [MAGNITUDE_DROP_THRESHOLD] below the running
    peak starts a repetition. *)
Definition handleIdlePhase (s : RepDetector.t) (data : ProcessedSensorData.t)
  : RepDetector.t * option DetectedRep.t :=
  let filteredMagnitude := ProcessedSensorData.filteredMagnitude data in
  let timestamp := ProcessedSensorData.timestamp data in
  let magnitudeChange := peakMagnitude s - filteredMagnitude in
  if gt magnitudeChange MAGNITUDE_DROP_THRESHOLD then
    let s1 := resetRepState s in
    let s2 := setStartTimes s1 timestamp in
    let s3 := updatePeakMagnitude s2 filteredMagnitude in
    (transitionToPhase s3 descending, None)
  else (s, None).

(** DESCENDING: time out after [PHASE_TIMEOUT] ms, else go to BOTTOM once
    the magnitude rises more than [MAGNITUDE_RISE_THRESHOLD] above the
    valley. *)
Definition handleDescendingPhase (s : RepDetector.t) (data : ProcessedSensorData.t)
  : RepDetector.t * option DetectedRep.t :=
  let filteredMagnitude := ProcessedSensorData.filteredMagnitude data in
  let timestamp := ProcessedSensorData.timestamp data in
  let timeInDescending := timestamp - descendStartTime s in
  if gt timeInDescending PHASE_TIMEOUT then
    (resetRepState (transitionToPhase s idle), None)
  else
    let magnitudeRise := filteredMagnitude - valleyMagnitude s in
    if gt magnitudeRise MAGNITUDE_RISE_THRESHOLD then
      (transitionToPhase (setBottomTime s timestamp) bottom, None)
    else (s, None).

(** BOTTOM: immediately ASCENDING. *)
Definition handleBottomPhase (s : RepDetector.t) (data : ProcessedSensorData.t)
  : RepDetector.t * option DetectedRep.t :=
  let timestamp := ProcessedSensorData.timestamp data in
  (transitionToPhase (setAscendStartTime s timestamp) ascending, None).

Definition createDetectedRep (s : RepDetector.t) (timestamp : number) : DetectedRep.t :=
  let duration := calculateDuration (repStartTime s) timestamp in
  let depth := calculateMagnitudeChange s in
  let features :=
    RepFeatureExtractor.extract
      (RepFeatureExtractor.mkData
         (descendStartTime s) (bottomTime s) (ascendStartTime s) timestamp
         (peakMagnitude s) (valleyMagnitude s) (peakZValue s) (valleyZValue s)) in
  DetectedRep.mk (S (repCount s)) timestamp duration depth false features None.

(** The five validation checks, in the order [validateRep] applies them;
    each is [true] when the check passes. *)
Definition checkDepth (cfg : SquatDetectionConfig.t) (rep : DetectedRep.t) : bool :=
  negb (DetectedRep.depth rep <? SquatDetectionConfig.minDepthThreshold cfg).

Definition checkZAxisChange (cfg : SquatDetectionConfig.t) (rep : DetectedRep.t) : bool :=
  let zChange := Math_abs (RepFeatures.zAxisChange (DetectedRep.features rep)) in
  let minZChange := Math_abs (SquatDetectionConfig.minZAxisChange cfg) in
  negb (zChange <? minZChange).

Definition checkDuration (cfg : SquatDetectionConfig.t) (s : RepDetector.t) (rep : DetectedRep.t) : bool :=
  isValidDuration (repStartTime s) (DetectedRep.timestamp rep)
    (SquatDetectionConfig.minRepDuration cfg) (SquatDetectionConfig.maxRepDuration cfg).

Definition checkStability (cfg : SquatDetectionConfig.t) (rep : DetectedRep.t) : bool :=
  negb (RepFeatures.stabilityScore (DetectedRep.features rep)
        <? SquatDetectionConfig.minStabilityScore cfg).

Definition checkDepthScore (cfg : SquatDetectionConfig.t) (rep : DetectedRep.t) : bool :=
  negb (RepFeatures.depthScore (DetectedRep.features rep)
        <? SquatDetectionConfig.minDepthScore cfg).

Definition markValid (rep : DetectedRep.t) : DetectedRep.t :=
  DetectedRep.mk (DetectedRep.repNumber rep) (DetectedRep.timestamp rep)
    (DetectedRep.duration rep) (DetectedRep.depth rep) true
    (DetectedRep.features rep) (DetectedRep.score rep).

(** [validateRep] returns its verdict and the repetition object, whose
    [isValid] it sets when every check passes. *)
Definition validateRep (cfg : SquatDetectionConfig.t) (s : RepDetector.t) (rep : DetectedRep.t)
  : bool * DetectedRep.t :=
  if negb (checkDepth cfg rep) then (false, rep)
  else if negb (checkZAxisChange cfg rep) then (false, rep)
  else if negb (checkDuration cfg s rep) then (false, rep)
  else if negb (checkStability cfg rep) then (false, rep)
  else if negb (checkDepthScore cfg rep) then (false, rep)
  else (true, markValid rep).

(** ASCENDING: time out after [PHASE_TIMEOUT] ms; else, once the magnitude
    has recovered by [minDepthThreshold] above the valley, build the
    candidate repetition and validate it. *)
Definition handleAscendingPhase (cfg : SquatDetectionConfig.t) (s : RepDetector.t)
  (data : ProcessedSensorData.t) : RepDetector.t * option DetectedRep.t :=
  let filteredMagnitude := ProcessedSensorData.filteredMagnitude data in
  let timestamp := ProcessedSensorData.timestamp data in
  let timeInAscending := timestamp - ascendStartTime s in
  if gt timeInAscending PHASE_TIMEOUT then
    (resetRepState (transitionToPhase s idle), None)
  else
    let magnitudeRecovery := filteredMagnitude - valleyMagnitude s in
    if ge magnitudeRecovery (SquatDetectionConfig.minDepthThreshold cfg) then
      let rep := createDetectedRep s timestamp in
      let '(ok, rep') := validateRep cfg s rep in
      if ok then
        (resetRepState (transitionToPhase (incrementRepCount s) idle), Some rep')
      else
        (resetRepState (transitionToPhase s idle), None)
    else (s, None).

(** The tracking updates [detect] performs before dispatching on the phase. *)
Definition track (s : RepDetector.t) (data : ProcessedSensorData.t) : RepDetector.t :=
  let filteredMagnitude := ProcessedSensorData.filteredMagnitude data in
  let filteredZ := ProcessedSensorData.filteredZ data in
  let s1 := updatePeakMagnitude s filteredMagnitude in
  let s2 :=
    match currentPhase s1 with
    | descending | bottom =>
        updateZAxisTracking (updateValleyMagnitude s1 filteredMagnitude) filteredZ
    | _ => s1
    end in
  match currentPhase s2 with
  | idle => updateZAxisTracking s2 filteredZ
  | _ => s2
  end.

Definition detect (d : t) (data : ProcessedSensorData.t) : t * option DetectedRep.t :=
  let s := track (base d) data in
  let '(s', result) :=
    match currentPhase s with
    | idle => handleIdlePhase s data
    | descending => handleDescendingPhase s data
    | bottom => handleBottomPhase s data
    | ascending => handleAscendingPhase (config d) s data
    | completed => (transitionToPhase s idle, None)
    end in
  (mk s' (config d), result).

(** Feeding a stream of samples; the repetitions emitted, in order. *)
Fixpoint feed (d : t) (samples : list ProcessedSensorData.t) : t * list DetectedRep.t :=
  match samples with
  | [] => (d, [])
  | data :: rest =>
      let '(d1, result) := detect d data in
      let '(d2, reps) := feed d1 rest in
      (d2, match result with Some rep => rep :: reps | None => reps end)
  end.

(** The reason logged for a rejected repetition. *)
Definition getValidationFailureReason (cfg : SquatDetectionConfig.t) (rep : DetectedRep.t) : string :=
  let features := DetectedRep.features rep in
  let duration := DetectedRep.duration rep in
  let depth := DetectedRep.depth rep in
  if depth <? SquatDetectionConfig.minDepthThreshold cfg then
    VALIDATION_MESSAGES.INSUFFICIENT_DEPTH
  else if Math_abs (RepFeatures.zAxisChange features)
          <? Math_abs (SquatDetectionConfig.minZAxisChange cfg) then
    VALIDATION_MESSAGES.INSUFFICIENT_Z_CHANGE
  else if duration <? SquatDetectionConfig.minRepDuration cfg then
    VALIDATION_MESSAGES.TOO_FAST
  else if gt duration (SquatDetectionConfig.maxRepDuration cfg) then
    VALIDATION_MESSAGES.TOO_SLOW
  else if RepFeatures.stabilityScore features <? SquatDetectionConfig.minStabilityScore cfg then
    VALIDATION_MESSAGES.LOW_STABILITY
  else if RepFeatures.depthScore features <? SquatDetectionConfig.minDepthScore cfg then
    VALIDATION_MESSAGES.LOW_RANGE
  else "Unknown validation failure"%string.

End SquatDetector.

(** ** ScoringEngine *)

Module ScoringEngine.

Record ScoringWeights : Type := mkWeights {
  depth : number;
  stability : number;
  consistency : number
}.

Definition DEFAULT_WEIGHTS : ScoringWeights := mkWeights 0.5 0.3 0.2.

Record t : Type := mk { weights : ScoringWeights }.

Definition weights_error : Error := mkError "ScoringEngine: Weights must sum to 1.0".

Definition validateWeights (w : ScoringWeights) : completion unit :=
  let sum := depth w + stability w + consistency w in
  let tolerance := 0.001 in
  if gt (Math_abs (sum - 1.0)) tolerance then Throw weights_error else Normal tt.

Definition constructor (w : ScoringWeights) : completion t :=
  match validateWeights w with
  | Normal _ => Normal (mk w)
  | Throw e => Throw e
  end.

(** The engine built with the default weights. *)
Definition default : t := mk DEFAULT_WEIGHTS.

(** [typeof score !== 'number'] is false for every [number]. *)
Definition sanitizeScore (score : number) : number :=
  if isNaN score || negb (isFinite score) then 0
  else Math_max [0; Math_min [100; score]].

Definition calculateWeightedScore (e : t) (d s c : number) : number :=
  d * depth (weights e) + s * stability (weights e) + c * consistency (weights e).

Definition score (e : t) (features : RepFeatures.t) : RepScore.t :=
  let d := sanitizeScore (RepFeatures.depthScore features) in
  let s := sanitizeScore (RepFeatures.stabilityScore features) in
  let c := sanitizeScore (RepFeatures.rangeScore features) in
  let overall := calculateWeightedScore e d s c in
  let technique := getScoreTechnique overall in
  RepScore.mk (Math_round overall) (Math_round d) (Math_round s) (Math_round c) technique.

Definition setWeights (e : t) (w : ScoringWeights) : completion t :=
  match validateWeights w with
  | Normal _ => Normal (mk w)
  | Throw err => Throw err
  end.

Definition getWeights (e : t) : ScoringWeights := weights e.

End ScoringEngine.

(** ** PeakDetector: batch search for prominent extrema *)

Module Peak.
Record t : Type := mk {
  value : number;
  index : nat;
  timestamp : number;
  prominence : number
}.
End Peak.

Module PeakDetector.

Record PeakDetectionConfig : Type := mkConfig {
  prominence : number;
  minDistance : number
}.

Record t : Type := mk { config : PeakDetectionConfig }.

Definition constructor (cfg : PeakDetectionConfig) : t := mk cfg.

(** [xs.slice(start, stop)] for indices within the array. *)
Definition slice {A : Type} (xs : list A) (start stop : nat) : list A :=
  firstn (stop - start) (skipn start xs).

(** [signal[i]]; the scans below only read indices inside the array. *)
Definition at_index (signal : list number) (i : nat) : number := nth i signal nan.

Definition windowSize : nat := 10.

Definition calculateProminence (signal : list number) (index : nat) (isValley : bool) : number :=
  let peakValue := at_index signal index in
  let leftStart := Nat.max 0 (index - windowSize) in
  let rightEnd := Nat.min (length signal) (index + windowSize) in
  let leftWindow := slice signal leftStart index in
  let rightWindow := slice signal (index + 1) rightEnd in
  if isValley then
    let leftMax := if (0 <? length leftWindow)%nat then Math_max leftWindow else peakValue in
    let rightMax := if (0 <? length rightWindow)%nat then Math_max rightWindow else peakValue in
    let baseline := (leftMax + rightMax) / 2 in
    baseline - peakValue
  else
    let leftMin := if (0 <? length leftWindow)%nat then Math_min leftWindow else peakValue in
    let rightMin := if (0 <? length rightWindow)%nat then Math_min rightWindow else peakValue in
    let baseline := (leftMin + rightMin) / 2 in
    peakValue - baseline.

Definition type_error : Error :=
  mkError "TypeError: Cannot read properties of undefined (reading 'prominence')".

(** One iteration of the loop of [filterByDistance]; [lastIndex] starts
    at [-Infinity]. *)
Definition filterStep (minDist : number) (acc : completion (list Peak.t * number)) (peak : Peak.t)
  : completion (list Peak.t * number) :=
  match acc with
  | Throw e => Throw e
  | Normal (filtered, lastIndex) =>
      let distance := of_Z (Z.of_nat (Peak.index peak)) - lastIndex in
      if ge distance minDist then
        Normal (filtered ++ [peak], of_Z (Z.of_nat (Peak.index peak)))
      else
        match rev filtered with
        | [] => Throw type_error
        | lastPeak :: _ =>
            if gt (Peak.prominence peak) (Peak.prominence lastPeak) then
              Normal (removelast filtered ++ [peak], of_Z (Z.of_nat (Peak.index peak)))
            else Normal (filtered, lastIndex)
        end
  end.

Definition filterByDistance (d : t) (peaks : list Peak.t) : completion (list Peak.t) :=
  if (length peaks <=? 1)%nat then Normal peaks
  else
    match fold_left (filterStep (minDistance (config d))) peaks (Normal ([], neg_infinity)) with
    | Normal (filtered, _) => Normal filtered
    | Throw e => Throw e
    end.

(** The scan shared by [findPeaks] and [findValleys]: interior indices
    [1 .. length - 2], kept when strictly above (below) both neighbours and
    prominent enough. *)
Definition scan (d : t) (signal timestamps : list number) (isValley : bool) : list Peak.t :=
  flat_map
    (fun i =>
       let current := at_index signal i in
       let previous := at_index signal (i - 1) in
       let next := at_index signal (i + 1) in
       let isExtremum :=
         if isValley then (current <? previous) && (current <? next)
         else gt current previous && gt current next in
       if isExtremum then
         let p := calculateProminence signal i isValley in
         if ge p (prominence (config d)) then
           [Peak.mk current i (at_index timestamps i) p]
         else []
       else [])
    (seq 1 (length signal - 2)).

Definition findPeaks (d : t) (data : list ProcessedSensorData.t) (useFiltered : bool)
  : completion (list Peak.t) :=
  if (length data <? 3)%nat then Normal []
  else
    let signal :=
      map (fun s => if useFiltered then ProcessedSensorData.filteredMagnitude s
                    else ProcessedSensorData.magnitude s) data in
    filterByDistance d (scan d signal (map ProcessedSensorData.timestamp data) false).

Definition findValleys (d : t) (data : list ProcessedSensorData.t) (useFiltered : bool)
  : completion (list Peak.t) :=
  if (length data <? 3)%nat then Normal []
  else
    let signal :=
      map (fun s => if useFiltered then ProcessedSensorData.filteredZ s
                    else ProcessedSensorData.z s) data in
    filterByDistance d (scan d signal (map ProcessedSensorData.timestamp data) true).

End PeakDetector.

(** ** SensorAdapter: subscription state and sample buffer *)

Module SensorAdapter.

Record SensorAdapterConfig : Type := mkConfig { samplingRate : number; bufferSize : number }.

(** What the platform answers when the adapter starts. *)
Record Platform : Type := mkPlatform { isAvailable : bool; permissionGranted : bool }.

Record t : Type := mk {
  config : SensorAdapterConfig;
  buffer : list AccelerometerData.t;
  subscribed : bool;
  sessionStartTime : number;
  isActive : bool
}.

Definition constructor (cfg : SensorAdapterConfig) : t := mk cfg [] false 0 false.

Definition start (platform : Platform) (now : number) (a : t) : t * completion unit :=
  if isActive a then (a, Throw (mkError "SensorAdapter: Already started"))
  else if negb (isAvailable platform) then
    (a, Throw (mkError "SensorAdapter: Accelerometer not available on this device"))
  else if negb (permissionGranted platform) then
    (a, Throw (mkError "SensorAdapter: Accelerometer permission denied. Please enable motion access in Settings."))
  else (mk (config a) [] true now true, Normal tt).

Definition stop (a : t) : t := mk (config a) (buffer a) false (sessionStartTime a) false.

Definition addToBuffer (a : t) (data : AccelerometerData.t) : t :=
  let pushed := buffer a ++ [data] in
  let kept :=
    if gt (of_Z (Z.of_nat (length pushed))) (bufferSize (config a)) then tl pushed else pushed in
  mk (config a) kept (subscribed a) (sessionStartTime a) (isActive a).

Definition getBuffer (a : t) : list AccelerometerData.t := buffer a.
Definition isRunning (a : t) : bool := isActive a.

Definition getBufferLength (a : t) : nat := length (buffer a).

Definition clearBuffer (a : t) : t :=
  mk (config a) [] (subscribed a) (sessionStartTime a) (isActive a).

Definition getSessionStartTime (a : t) : number := sessionStartTime a.
Definition getConfig (a : t) : SensorAdapterConfig := config a.

(** The listener [start] registers with the accelerometer: a reading taken
    at [now] is stamped relative to the session start and buffered; the
    sample is then handed to [onData]. *)
Definition receive (a : t) (now x y z : number) : t * AccelerometerData.t :=
  let data := AccelerometerData.mk x y z (now - sessionStartTime a) in
  (addToBuffer a data, data).

End SensorAdapter.

(** ** MotionEngine: the orchestrator *)

Module MotionEngineState.
Inductive t : Type := idle | starting | active | paused | stopped.

Definition eqb (a b : t) : bool :=
  match a, b with
  | idle, idle | starting, starting | active, active | paused, paused | stopped, stopped => true
  | _, _ => false
  end.
End MotionEngineState.

Module MotionEngine.

Inductive ExerciseType : Type := squat | pushup | pullup.

Record MotionEngineConfig : Type := mkConfig {
  exerciseType : ExerciseType;
  detectionConfig : SquatDetectionConfig.t;
  enableDebugMode : bool
}.

Definition DEFAULT_MOTION_CONFIG (dev : bool) : MotionEngineConfig :=
  mkConfig squat DEFAULT_SQUAT_CONFIG dev.

(** The callbacks handed to the engine.  They are the caller's code: each
    invocation returns or throws.  A callback that calls a method of the
    engine while it runs is not described by this record. *)
Record MotionEngineCallbacks : Type := mkCallbacks {
  onRepDetected : DetectedRep.t -> completion unit;
  onStateChange : MotionEngineState.t -> completion unit;
  onError : Error -> completion unit
}.

(** A callback invocation, as observed from outside. *)
Inductive Event : Type :=
| RepDetected (rep : DetectedRep.t)
| StateChange (s : MotionEngineState.t)
| ErrorReported (e : Error).

(** The three guarded pipeline stages as [handleSensorData] sees them: calls
    on the engine's components that return or throw.  [production] is the
    pipeline of the source, whose stages always return; any other instance
    describes a stage that fails. *)
Record Stages : Type := mkStages {
  process : SignalProcessor.t -> AccelerometerData.t ->
            SignalProcessor.t * completion ProcessedSensorData.t;
  detect : SquatDetector.t -> ProcessedSensorData.t ->
           SquatDetector.t * completion (option DetectedRep.t);
  score : ScoringEngine.t -> RepFeatures.t -> completion RepScore.t
}.

Definition production : Stages :=
  mkStages
    (fun sp raw => let '(sp', p) := SignalProcessor.process sp raw in (sp', Normal p))
    (fun d data => let '(d', r) := SquatDetector.detect d data in (d', Normal r))
    (fun e features => Normal (ScoringEngine.score e features)).

(** The engine object; [calls] is the history of callback invocations,
    oldest first. *)
Record t : Type := mk {
  config : MotionEngineConfig;
  sensorAdapter : SensorAdapter.t;
  signalProcessor : SignalProcessor.t;
  detector : SquatDetector.t;
  scorer : ScoringEngine.t;
  state : MotionEngineState.t;
  sessionStartTime : option number;
  lastRepTimestamp : option number;
  totalScore : number;
  scoreCount : nat;
  recentData : list ProcessedSensorData.t;
  consecutivePipelineErrors : nat;
  calls : list Event
}.

Definition MAX_RECENT_DATA : nat := 60.
Definition MAX_CONSECUTIVE_ERRORS : nat := 10.

Definition constructor (cfg : MotionEngineConfig) : completion t :=
  let adapter :=
    SensorAdapter.constructor
      (SensorAdapter.mkConfig
         (SquatDetectionConfig.samplingRate (detectionConfig cfg))
         (SquatDetectionConfig.bufferSize (detectionConfig cfg))) in
  match SignalProcessor.constructor (SquatDetectionConfig.lowPassAlpha (detectionConfig cfg)) with
  | Throw e => Throw e
  | Normal sp =>
      let det := SquatDetector.constructor (detectionConfig cfg) in
      match ScoringEngine.constructor ScoringEngine.DEFAULT_WEIGHTS with
      | Throw e => Throw e
      | Normal sc =>
          Normal (mk cfg adapter sp det sc MotionEngineState.idle None None 0 0%nat [] 0%nat [])
      end
  end.

(** Field updates. *)
Definition with_state (e : t) (s : MotionEngineState.t) : t :=
  mk (config e) (sensorAdapter e) (signalProcessor e) (detector e) (scorer e) s
     (sessionStartTime e) (lastRepTimestamp e) (totalScore e) (scoreCount e)
     (recentData e) (consecutivePipelineErrors e) (calls e).

Definition with_sensorAdapter (e : t) (a : SensorAdapter.t) : t :=
  mk (config e) a (signalProcessor e) (detector e) (scorer e) (state e)
     (sessionStartTime e) (lastRepTimestamp e) (totalScore e) (scoreCount e)
     (recentData e) (consecutivePipelineErrors e) (calls e).

Definition with_signalProcessor (e : t) (sp : SignalProcessor.t) : t :=
  mk (config e) (sensorAdapter e) sp (detector e) (scorer e) (state e)
     (sessionStartTime e) (lastRepTimestamp e) (totalScore e) (scoreCount e)
     (recentData e) (consecutivePipelineErrors e) (calls e).

Definition with_detector (e : t) (d : SquatDetector.t) : t :=
  mk (config e) (sensorAdapter e) (signalProcessor e) d (scorer e) (state e)
     (sessionStartTime e) (lastRepTimestamp e) (totalScore e) (scoreCount e)
     (recentData e) (consecutivePipelineErrors e) (calls e).

Definition with_errors (e : t) (n : nat) : t :=
  mk (config e) (sensorAdapter e) (signalProcessor e) (detector e) (scorer e) (state e)
     (sessionStartTime e) (lastRepTimestamp e) (totalScore e) (scoreCount e)
     (recentData e) n (calls e).

Definition with_recentData (e : t) (l : list ProcessedSensorData.t) : t :=
  mk (config e) (sensorAdapter e) (signalProcessor e) (detector e) (scorer e) (state e)
     (sessionStartTime e) (lastRepTimestamp e) (totalScore e) (scoreCount e)
     l (consecutivePipelineErrors e) (calls e).

Definition with_metrics (e : t) (lastRep : option number) (total : number) (count : nat) : t :=
  mk (config e) (sensorAdapter e) (signalProcessor e) (detector e) (scorer e) (state e)
     (sessionStartTime e) lastRep total count
     (recentData e) (consecutivePipelineErrors e) (calls e).

Definition with_sessionStartTime (e : t) (start : option number) : t :=
  mk (config e) (sensorAdapter e) (signalProcessor e) (detector e) (scorer e) (state e)
     start (lastRepTimestamp e) (totalScore e) (scoreCount e)
     (recentData e) (consecutivePipelineErrors e) (calls e).

(** Recording that a callback has been invoked. *)
Definition invoked (e : t) (ev : Event) : t :=
  mk (config e) (sensorAdapter e) (signalProcessor e) (detector e) (scorer e) (state e)
     (sessionStartTime e) (lastRepTimestamp e) (totalScore e) (scoreCount e)
     (recentData e) (consecutivePipelineErrors e) (calls e ++ [ev]).

(** [setState]: the field is written first, then [onStateChange] is called
    (unguarded) when the state changed. *)
Definition setState (cbs : MotionEngineCallbacks) (e : t) (newState : MotionEngineState.t)
  : t * completion unit :=
  let previousState := state e in
  let e1 := with_state e newState in
  if negb (MotionEngineState.eqb previousState newState) then
    (invoked e1 (StateChange newState), onStateChange cbs newState)
  else (e1, Normal tt).

Definition pause (cbs : MotionEngineCallbacks) (e : t) : t * completion unit :=
  match state e with
  | MotionEngineState.active => setState cbs e MotionEngineState.paused
  | _ => (e, Throw (mkError "MotionEngine: Not running"))
  end.

Definition resume (cbs : MotionEngineCallbacks) (e : t) : t * completion unit :=
  match state e with
  | MotionEngineState.paused => setState cbs e MotionEngineState.active
  | _ => (e, Throw (mkError "MotionEngine: Not paused"))
  end.

Definition stop (cbs : MotionEngineCallbacks) (e : t) : t * completion unit :=
  match state e with
  | MotionEngineState.idle | MotionEngineState.stopped => (e, Normal tt)
  | _ =>
      setState cbs (with_sensorAdapter e (SensorAdapter.stop (sensorAdapter e)))
        MotionEngineState.stopped
  end.

(** The [catch] block of [start]. *)
Definition startFailed (cbs : MotionEngineCallbacks) (e : t) (error : Error) : t * completion unit :=
  match setState cbs e MotionEngineState.idle with
  | (e1, Throw err) => (e1, Throw err)
  | (e1, Normal _) =>
      match onError cbs error with
      | Throw err => (invoked e1 (ErrorReported error), Throw err)
      | Normal _ => (invoked e1 (ErrorReported error), Throw error)
      end
  end.

(** [start()]; [platform] is what the device answers, [now] the
    [Date.now()] the engine reads when it resets the session and
    [subscribedAt] the [Date.now()] the adapter reads, after the platform
    has answered, when it subscribes. *)
Definition start (platform : SensorAdapter.Platform) (now subscribedAt : number)
  (cbs : MotionEngineCallbacks) (e : t) : t * completion unit :=
  match state e with
  | MotionEngineState.active => (e, Throw (mkError "MotionEngine: Already running"))
  | _ =>
      match setState cbs e MotionEngineState.starting with
      | (e1, Throw err) => startFailed cbs e1 err
      | (e1, Normal _) =>
          let e2 :=
            mk (config e1) (sensorAdapter e1)
               (SignalProcessor.reset (signalProcessor e1))
               (SquatDetector.reset (detector e1)) (scorer e1) (state e1)
               (Some now) None 0 0%nat [] 0%nat (calls e1) in
          match SensorAdapter.start platform subscribedAt (sensorAdapter e2) with
          | (a, Throw err) => startFailed cbs (with_sensorAdapter e2 a) err
          | (a, Normal _) =>
              match setState cbs (with_sensorAdapter e2 a) MotionEngineState.active with
              | (e3, Throw err) => startFailed cbs e3 err
              | (e3, Normal _) => (e3, Normal tt)
              end
          end
      end
  end.

Definition addToRecentData (e : t) (data : ProcessedSensorData.t) : t :=
  let pushed := recentData e ++ [data] in
  with_recentData e (if (MAX_RECENT_DATA <? length pushed)%nat then tl pushed else pushed).

Definition breaker_error : Error := mkError "Motion engine stopped due to excessive errors".

Definition attachScore (rep : DetectedRep.t) (sc : RepScore.t) : DetectedRep.t :=
  DetectedRep.mk (DetectedRep.repNumber rep) (DetectedRep.timestamp rep)
    (DetectedRep.duration rep) (DetectedRep.depth rep) (DetectedRep.isValid rep)
    (DetectedRep.features rep) (Some sc).

(** Step 4 of the pipeline, the [try] block around scoring: a throwing
    scorer is counted; a throwing [onRepDetected] is caught and ignored. *)
Definition scoreAndNotify (stages : Stages) (cbs : MotionEngineCallbacks) (e : t)
  (detectedRep : DetectedRep.t) : t :=
  match score stages (scorer e) (DetectedRep.features detectedRep) with
  | Throw _ => with_errors e (S (consecutivePipelineErrors e))
  | Normal sc =>
      let repWithScore := attachScore detectedRep sc in
      let e1 :=
        with_metrics e (Some (DetectedRep.timestamp detectedRep))
          (totalScore e + RepScore.overall sc) (S (scoreCount e)) in
      match onRepDetected cbs repWithScore with
      | Normal _ => invoked e1 (RepDetected repWithScore)
      | Throw _ => invoked e1 (RepDetected repWithScore)
      end
  end.

(** [handleSensorData]: one sample through the pipeline.  The result tells
    whether the call returned or let an exception escape to its caller.
    Every statement inside the outer [try] is guarded by an inner handler or
    cannot throw, so the outer [catch] block is never entered. *)
Definition handleSensorData (stages : Stages) (cbs : MotionEngineCallbacks) (e : t)
  (rawData : AccelerometerData.t) : t * completion unit :=
  if negb (MotionEngineState.eqb (state e) MotionEngineState.active) then (e, Normal tt)
  else if (MAX_CONSECUTIVE_ERRORS <=? consecutivePipelineErrors e)%nat then
    match stop cbs e with
    | (e1, Throw err) => (e1, Throw err)
    | (e1, Normal _) => (invoked e1 (ErrorReported breaker_error), onError cbs breaker_error)
    end
  else
    let '(sp, processed) := process stages (signalProcessor e) rawData in
    let e1 := with_signalProcessor e sp in
    match processed with
    | Throw _ => (with_errors e1 (S (consecutivePipelineErrors e1)), Normal tt)
    | Normal processed =>
        let e2 := addToRecentData e1 processed in
        let '(det, detected) := detect stages (detector e2) processed in
        let e3 := with_detector e2 det in
        match detected with
        | Throw _ => (with_errors e3 (S (consecutivePipelineErrors e3)), Normal tt)
        | Normal detectedRep =>
            let e4 :=
              match detectedRep with
              | Some rep =>
                  if DetectedRep.isValid rep then scoreAndNotify stages cbs e3 rep else e3
              | None => e3
              end in
            (with_errors e4 0%nat, Normal tt)
        end
    end.

(** Delivering a stream of samples, one after the other. *)
Definition deliver (stages : Stages) (cbs : MotionEngineCallbacks) (e : t)
  (samples : list AccelerometerData.t) : t :=
  fold_left (fun e raw => fst (handleSensorData stages cbs e raw)) samples e.

(** The error callbacks among a history of invocations. *)
Definition errorCalls (l : list Event) : list Error :=
  flat_map (fun ev => match ev with ErrorReported err => [err] | _ => [] end) l.

Definition isRunning (e : t) : bool :=
  match state e with
  | MotionEngineState.active | MotionEngineState.paused => true
  | _ => false
  end.

Definition getRecentData (e : t) : list ProcessedSensorData.t := recentData e.
Definition getConfig (e : t) : MotionEngineConfig := config e.
Definition getSensorBuffer (e : t) : list AccelerometerData.t :=
  SensorAdapter.getBuffer (sensorAdapter e).

(** [Partial<MotionEngineConfig>]: the fields present in an update. *)
Record partialConfig : Type := mkPartialConfig {
  p_exerciseType : option ExerciseType;
  p_detectionConfig : option SquatDetectionConfig.t;
  p_enableDebugMode : option bool
}.

(** A complete detection configuration seen as an update of every field. *)
Definition asUpdate (c : SquatDetectionConfig.t) : SquatDetectionConfig.partial :=
  SquatDetectionConfig.mkPartial
    (Some (SquatDetectionConfig.minDepthThreshold c))
    (Some (SquatDetectionConfig.minZAxisChange c))
    (Some (SquatDetectionConfig.minRepDuration c))
    (Some (SquatDetectionConfig.maxRepDuration c))
    (Some (SquatDetectionConfig.peakProminence c))
    (Some (SquatDetectionConfig.minPeakDistance c))
    (Some (SquatDetectionConfig.minStabilityScore c))
    (Some (SquatDetectionConfig.minDepthScore c))
    (Some (SquatDetectionConfig.lowPassAlpha c))
    (Some (SquatDetectionConfig.samplingRate c))
    (Some (SquatDetectionConfig.bufferSize c)).

Definition with_config (e : t) (cfg : MotionEngineConfig) : t :=
  mk cfg (sensorAdapter e) (signalProcessor e) (detector e) (scorer e) (state e)
     (sessionStartTime e) (lastRepTimestamp e) (totalScore e) (scoreCount e)
     (recentData e) (consecutivePipelineErrors e) (calls e).

(** [setConfig]: the stored configuration is merged with the update; a new
    detection configuration is passed on to the detector only. *)
Definition setConfig (e : t) (p : partialConfig) : t :=
  let cfg :=
    mkConfig
      (match p_exerciseType p with Some v => v | None => exerciseType (config e) end)
      (match p_detectionConfig p with Some v => v | None => detectionConfig (config e) end)
      (match p_enableDebugMode p with Some v => v | None => enableDebugMode (config e) end) in
  let e1 := with_config e cfg in
  match p_detectionConfig p with
  | Some dc => with_detector e1 (SquatDetector.setConfig (detector e1) (asUpdate dc))
  | None => e1
  end.

(** What the accelerometer listener does with a reading while the
    subscription is live: the adapter buffers the sample and hands it to
    [handleSensorData]. *)
Definition onSensorData (stages : Stages) (cbs : MotionEngineCallbacks) (e : t)
  (now x y z : number) : t * completion unit :=
  let '(a, data) := SensorAdapter.receive (sensorAdapter e) now x y z in
  handleSensorData stages cbs (with_sensorAdapter e a) data.

End MotionEngine.

(** * Vocabulary of the specification *)

(** ** Binary64 values as integers

    Every binary64 number is an integer multiple of [2^B] for a [B] below
    the exponent of the smallest subnormal.  Reading a float as that integer
    turns rounding into integer arithmetic: the comparisons of the source
    become comparisons of integers and the rounded operations become
    monotone functions of the exact result. *)

Local Open Scope Z_scope.

(** Round to nearest, ties to even, of [X / 2^K]. *)
Definition rne (X K : Z) : Z :=
  let q := X / 2 ^ K in
  match 2 * (X mod 2 ^ K) ?= 2 ^ K with
  | Lt => q
  | Eq => if Z.even q then q else q + 1
  | Gt => q + 1
  end.

(** Exponent, relative to [B], of the last place kept when the positive
    value [X] (in units of [2^B]) is rounded. *)
Definition Kof (prec emax B X : Z) : Z := SpecFloat.fexp prec emax (Z.log2 X + 1 + B) - B.

(** Rounding of a positive value. *)
Definition rnd (prec emax B X : Z) : Z := rne X (Kof prec emax B X) * 2 ^ Kof prec emax B X.

(** The float a rounded mantissa and exponent are packed into. *)
Definition mk_result (prec emax : Z) (s : bool) (m e : Z) : spec_float :=
  match m with
  | Z0 => S754_zero s
  | Zpos p => if e <=? emax - prec then S754_finite s p e else S754_infinity s
  | Zneg _ => S754_nan
  end.

(** Rounding of a signed value. *)
Definition round (prec emax B X : Z) : Z :=
  if 0 <? X then rnd prec emax B X else if X <? 0 then - rnd prec emax B (- X) else 0.

(** The value at which the infinities sit. *)
Definition Omega (emax B : Z) : Z := 2 ^ (emax - B).

Definition clamp (emax B V : Z) : Z :=
  if Omega emax B <=? V then Omega emax B
  else if V <=? - Omega emax B then - Omega emax B else V.

(** Rounding with overflow to the infinities. *)
Definition cround (prec emax B X : Z) : Z := clamp emax B (round prec emax B X).

Definition sgn (s : bool) (V : Z) : Z := if s then - V else V.

(** Value of a float in units of [2^B]; the infinities sit at [+-Omega]. *)
Definition xval (emax B : Z) (f : spec_float) : Z :=
  match f with
  | S754_zero _ => 0
  | S754_infinity s => sgn s (Omega emax B)
  | S754_nan => 0
  | S754_finite s m e => sgn s (Zpos m * 2 ^ (e - B))
  end.

Definition not_nan (f : spec_float) : bool :=
  match f with S754_nan => false | _ => true end.

Definition is_fin (f : spec_float) : bool :=
  match f with S754_zero _ | S754_finite _ _ _ => true | _ => false end.

(** The unit for binary64: [2^-2148], twice the exponent of the smallest
    subnormal, so that products of two floats are integers as well. *)
Definition B64 : Z := -2148.

Definition fval (x : float) : Z := xval emax B64 (Prim2SF x).
Definition fnum (x : float) : bool := not_nan (Prim2SF x).
Definition ffin (x : float) : bool := is_fin (Prim2SF x).

Local Close Scope Z_scope.

(** ** LowPassFilter *)

(** A filter that holds no previous sample: freshly constructed or reset. *)
Definition cold (f : LowPassFilter.t) : Prop :=
  (exists a, LowPassFilter.constructor a = Normal f) \/ (exists g, f = LowPassFilter.reset g).

(** The open interval (0, 1). *)
Definition inOpenUnit (a : number) : bool := (0 <? a) && (a <? 1).

(** ** ScoringEngine *)

Definition in_0_100 (v : number) : bool := (0 <=? v) && (v <=? 100).

(** A score sanitized as the specification words it: NaN and the
    infinities become 0, any other score is clamped to [[0, 100]]. *)
Definition sanitizedAsSpecified (x : number) : number :=
  if isNaN x || negb (isFinite x) then 0
  else if x <=? 0 then 0
  else if 100 <=? x then 100
  else x.

(** ** SquatDetector *)

Section DetectorVocabulary.
Import RepDetector SquatDetector.

(** The state every abandoned or completed repetition leaves behind. *)
Definition idleState (count : nat) : RepDetector.t :=
  RepDetector.mk idle count 0 0 0 0 0 infinity 0 0.

(** The sample makes the detector take the ascending -> completed
    transition: it is ascending, the phase has not timed out and the
    magnitude has recovered by the configured minimum depth. *)
Definition takesCompletion (d : SquatDetector.t) (data : ProcessedSensorData.t) : bool :=
  match currentPhase (base d) with
  | ascending =>
      negb (gt (ProcessedSensorData.timestamp data - ascendStartTime (base d)) PHASE_TIMEOUT)
      && ge (ProcessedSensorData.filteredMagnitude data - valleyMagnitude (base d))
            (SquatDetectionConfig.minDepthThreshold (config d))
  | _ => false
  end.

(** The candidate repetition built on that transition. *)
Definition candidateRep (d : SquatDetector.t) (data : ProcessedSensorData.t) : DetectedRep.t :=
  createDetectedRep (track (base d) data) (ProcessedSensorData.timestamp data).

(** The five validation checks of [validateRep], all passed. *)
Definition allChecks (d : SquatDetector.t) (data : ProcessedSensorData.t) : bool :=
  let rep := candidateRep d data in
  checkDepth (config d) rep && checkZAxisChange (config d) rep
  && checkDuration (config d) (track (base d) data) rep
  && checkStability (config d) rep && checkDepthScore (config d) rep.

(** Tracking updates touch the running extrema only. *)
Definition sameTiming (s s' : RepDetector.t) : Prop :=
  currentPhase s' = currentPhase s /\ repCount s' = repCount s /\
  repStartTime s' = repStartTime s /\ descendStartTime s' = descendStartTime s /\
  bottomTime s' = bottomTime s /\ ascendStartTime s' = ascendStartTime s.

(** Detector states reachable in a pipeline: the detector is fed the
    samples a signal processor produces; it may be reset and reconfigured
    at any time. *)
Inductive reachable : SquatDetector.t -> Prop :=
| reach_new cfg : reachable (SquatDetector.constructor cfg)
| reach_detect d sp raw :
    reachable d -> reachable (fst (detect d (snd (SignalProcessor.process sp raw))))
| reach_reset d : reachable d -> reachable (SquatDetector.reset d)
| reach_setConfig d p : reachable d -> reachable (setConfig d p).

(** A magnitude is never [-Infinity]. *)
Definition magnitudeLike (m : number) : Prop := Prim2SF m <> S754_infinity true.

(** The running peak is a number and the running valley is not [-Infinity]. *)
Definition tracked (s : RepDetector.t) : Prop :=
  fnum (peakMagnitude s) = true /\ magnitudeLike (valleyMagnitude s).

(** The detector behind a signal processor, fed raw samples. *)
Fixpoint pipeline (sp : SignalProcessor.t) (d : SquatDetector.t) (raws : list AccelerometerData.t)
  : SignalProcessor.t * SquatDetector.t :=
  match raws with
  | [] => (sp, d)
  | raw :: rest =>
      let '(sp1, data) := SignalProcessor.process sp raw in
      pipeline sp1 (fst (detect d data)) rest
  end.

(** *** An example session *)

Definition reading (z t : number) : AccelerometerData.t := AccelerometerData.mk 0 0 z t.

(** One squat: standing, dropping, rising again (100 ms apart). *)
Definition squatSamples : list AccelerometerData.t :=
  [reading 1 0; reading 0 100; reading 0 200; reading 0 300;
   reading 1 400; reading 1 500; reading 1 600].

(** The sample on which the squat completes. *)
Definition completingSample : AccelerometerData.t := reading 1 700.

(** The default configuration with a stability requirement the example
    squat does not meet. *)
Definition strictConfig : SquatDetectionConfig.t :=
  SquatDetectionConfig.mk 0.08 (-0.1) 100 60000 0.05 15 65 0 0.22 60 240.

Definition freshProcessor : SignalProcessor.t :=
  SignalProcessor.mk (LowPassFilter.mk 0.22 0 0 0 false).

Definition afterSquat (cfg : SquatDetectionConfig.t) : SignalProcessor.t * SquatDetector.t :=
  pipeline freshProcessor (SquatDetector.constructor cfg) squatSamples.

Definition completingData (cfg : SquatDetectionConfig.t) : ProcessedSensorData.t :=
  snd (SignalProcessor.process (fst (afterSquat cfg)) completingSample).

(** Two samples into the descent. *)
Definition midDescent : SignalProcessor.t * SquatDetector.t :=
  pipeline freshProcessor (SquatDetector.constructor DEFAULT_SQUAT_CONFIG) (firstn 3 squatSamples).

(** A sample arriving 5.8 s after the descent began. *)
Definition lateData : ProcessedSensorData.t :=
  snd (SignalProcessor.process (fst midDescent) (reading 0 6000)).

End DetectorVocabulary.

(** ** PeakDetector *)

Section PeakVocabulary.
Import PeakDetector.

(** The prominence of a peak as the specification words it: against the
    minima of the [windowSize] samples on each side. *)
Definition prominenceAsSpecified (signal : list number) (index : nat) : number :=
  let peakValue := at_index signal index in
  let leftWindow := slice signal (index - windowSize) index in
  let rightWindow := slice signal (index + 1) (Nat.min (length signal) (index + 1 + windowSize)) in
  let leftMin := if (0 <? length leftWindow)%nat then Math_min leftWindow else peakValue in
  let rightMin := if (0 <? length rightWindow)%nat then Math_min rightWindow else peakValue in
  peakValue - (leftMin + rightMin) / 2.

Definition sampleOf (i : nat) (m : number) : ProcessedSensorData.t :=
  ProcessedSensorData.mk 0 0 m (of_Z (Z.of_nat i)) m 0 0 m m.

(** A peak at index 1 whose tenth right-hand neighbour is the lowest. *)
Definition spikeSignal : list number := [3; 9; 5; 5; 5; 5; 5; 5; 5; 5; 5; 1].

Definition spikeData : list ProcessedSensorData.t :=
  map (fun '(i, m) => sampleOf i m) (combine (seq 0 12) spikeSignal).

End PeakVocabulary.

(** ** MotionEngine *)

Section EngineVocabulary.
Import MotionEngine.

(** Callbacks that always return. *)
Definition quietCallbacks : MotionEngineCallbacks :=
  mkCallbacks (fun _ => Normal tt) (fun _ => Normal tt) (fun _ => Normal tt).

(** Callbacks whose state listener throws when told the engine stopped. *)
Definition listenerFailsOnStop : MotionEngineCallbacks :=
  mkCallbacks (fun _ => Normal tt)
    (fun s => match s with
              | MotionEngineState.stopped => Throw (mkError "state listener failed")
              | _ => Normal tt
              end)
    (fun _ => Normal tt).

(** A pipeline whose processor rejects samples with a NaN reading and whose
    scorer always throws. *)
Definition faultyStages : Stages :=
  mkStages
    (fun sp raw =>
       if isNaN (AccelerometerData.x raw) then (sp, Throw (mkError "corrupt sample"))
       else process production sp raw)
    (detect production)
    (fun _ _ => Throw (mkError "scoring failed")).

(** A pipeline whose processor always throws. *)
Definition brokenProcessor : Stages :=
  mkStages (fun sp _ => (sp, Throw (mkError "processor failed")))
    (detect production) (score production).

Definition granted : SensorAdapter.Platform := SensorAdapter.mkPlatform true true.

(** The engine of the default configuration, constructed and started. *)
Definition runningEngine (cbs : MotionEngineCallbacks) : MotionEngine.t :=
  match constructor (DEFAULT_MOTION_CONFIG false) with
  | Normal e => fst (start granted 0 0 cbs e)
  | Throw _ =>
      mk (DEFAULT_MOTION_CONFIG false)
        (SensorAdapter.constructor (SensorAdapter.mkConfig 60 240))
        freshProcessor
        (SquatDetector.constructor DEFAULT_SQUAT_CONFIG) ScoringEngine.default
        MotionEngineState.idle None None 0 0%nat [] 0%nat []
  end.

Definition corruptSample : AccelerometerData.t := AccelerometerData.mk nan 0 0 650.

(** The engine after its error budget is used up: ten samples in a row
    failed in the processor. *)
Definition exhaustedEngine (cbs : MotionEngineCallbacks) : MotionEngine.t :=
  deliver brokenProcessor cbs (runningEngine cbs) (repeat (reading 1 0) 10).

End EngineVocabulary.

(** ** The phase graph of the squat detector *)

(** The transitions one call of [detect] can make. *)
Definition phaseStep (p q : RepPhase) : bool :=
  match p, q with
  | idle, (idle | descending) => true
  | descending, (descending | bottom | idle) => true
  | bottom, ascending => true
  | ascending, (ascending | idle) => true
  | completed, idle => true
  | _, _ => false
  end.

(** ** The life cycle of an engine *)

Section LifecycleVocabulary.
Import MotionEngine.

(** What a client and the platform can do with an engine: the public
    methods, and accelerometer readings, which reach the engine only while
    the adapter's subscription is live.  The asynchronous [start] is taken
    as one step; it comes with the two clock readings taken during it, the
    engine's and the adapter's. *)
Inductive Call : Type :=
| CallStart (platform : SensorAdapter.Platform) (now subscribedAt : number)
| CallPause
| CallResume
| CallStop
| CallSetConfig (update : partialConfig)
| Reading (now x y z : number).

Definition perform (stages : Stages) (cbs : MotionEngineCallbacks) (e : MotionEngine.t) (c : Call)
  : MotionEngine.t :=
  match c with
  | CallStart platform now subscribedAt => fst (start platform now subscribedAt cbs e)
  | CallPause => fst (pause cbs e)
  | CallResume => fst (resume cbs e)
  | CallStop => fst (stop cbs e)
  | CallSetConfig update => setConfig e update
  | Reading now x y z =>
      if SensorAdapter.subscribed (sensorAdapter e)
      then fst (onSensorData stages cbs e now x y z) else e
  end.

Definition session (stages : Stages) (cbs : MotionEngineCallbacks) (e : MotionEngine.t)
  (script : list Call) : MotionEngine.t :=
  fold_left (perform stages cbs) script e.

(** A stream of accelerometer readings [(now, x, y, z)]. *)
Definition asReadings (rs : list (number * number * number * number)) : list Call :=
  map (fun '(now, x, y, z) => Reading now x y z) rs.

(** The adapter after its listener has buffered a stream of readings. *)
Definition buffered (a : SensorAdapter.t) (rs : list (number * number * number * number))
  : SensorAdapter.t :=
  fold_left (fun a '(now, x, y, z) => fst (SensorAdapter.receive a now x y z)) rs a.

(** Two engines with the same pipeline state and metrics. *)
Definition samePipeline (e e' : MotionEngine.t) : Prop :=
  signalProcessor e' = signalProcessor e /\ detector e' = detector e /\
  recentData e' = recentData e /\ lastRepTimestamp e' = lastRepTimestamp e /\
  totalScore e' = totalScore e /\ scoreCount e' = scoreCount e /\
  consecutivePipelineErrors e' = consecutivePipelineErrors e /\
  sessionStartTime e' = sessionStartTime e.

(** An engine that reports idle while its adapter still holds the
    accelerometer subscription. *)
Definition wedged (e : MotionEngine.t) : Prop :=
  state e = MotionEngineState.idle /\ SensorAdapter.isRunning (sensorAdapter e) = true.

(** Two engines with the same setup: configuration, scorer, adapter
    configuration, filter coefficient and detection thresholds. *)
Definition sameSetup (e e' : MotionEngine.t) : Prop :=
  config e' = config e /\ scorer e' = scorer e /\
  SensorAdapter.config (sensorAdapter e') = SensorAdapter.config (sensorAdapter e) /\
  LowPassFilter.alpha (SignalProcessor.filter (signalProcessor e'))
  = LowPassFilter.alpha (SignalProcessor.filter (signalProcessor e)) /\
  SquatDetector.config (detector e') = SquatDetector.config (detector e).

(** What holds of every engine, whatever is done with it. *)
Definition engineInvariant (cfg : MotionEngineConfig) (e : MotionEngine.t) : Prop :=
  (isRunning e = true -> SensorAdapter.isRunning (sensorAdapter e) = true) /\
  SensorAdapter.subscribed (sensorAdapter e) = SensorAdapter.isActive (sensorAdapter e) /\
  (consecutivePipelineErrors e <= MAX_CONSECUTIVE_ERRORS)%nat /\
  (length (recentData e) <= MAX_RECENT_DATA)%nat /\
  scorer e = ScoringEngine.default /\
  SensorAdapter.config (sensorAdapter e)
  = SensorAdapter.mkConfig (SquatDetectionConfig.samplingRate (detectionConfig cfg))
      (SquatDetectionConfig.bufferSize (detectionConfig cfg)).

End LifecycleVocabulary.

(** ** A session of the production pipeline *)

(** The processed samples a processor yields for a stream of raw samples. *)
Fixpoint processAll (sp : SignalProcessor.t) (raws : list AccelerometerData.t)
  : SignalProcessor.t * list ProcessedSensorData.t :=
  match raws with
  | [] => (sp, [])
  | raw :: rest =>
      let '(sp1, p) := SignalProcessor.process sp raw in
      let '(sp2, ps) := processAll sp1 rest in
      (sp2, p :: ps)
  end.

(** The repetition as it is handed to [onRepDetected]. *)
Definition scored (scorer : ScoringEngine.t) (rep : DetectedRep.t) : DetectedRep.t :=
  MotionEngine.attachScore rep (ScoringEngine.score scorer (DetectedRep.features rep)).

(** The last [n] elements of a list. *)
Definition lastn {A : Type} (n : nat) (l : list A) : list A := skipn (length l - n) l.

(** The sum of the overall scores, accumulated as the engine does. *)
Definition addScores (start : number) (reps : list DetectedRep.t) : number :=
  fold_left
    (fun total rep =>
       match DetectedRep.score rep with
       | Some sc => total + RepScore.overall sc
       | None => total
       end) reps start.

Definition lastTimestamp (start : option number) (reps : list DetectedRep.t) : option number :=
  fold_left (fun _ rep => Some (DetectedRep.timestamp rep)) reps start.

(** ** The samples of a session *)

(** The samples the adapter's listener builds from a stream of readings
    [(now, x, y, z)]: each is stamped relative to the session start. *)
Definition stamped (a : SensorAdapter.t) (rs : list (number * number * number * number))
  : list AccelerometerData.t :=
  map (fun '(now, x, y, z) => AccelerometerData.mk x y z (now - SensorAdapter.sessionStartTime a)) rs.

(** ** PeakDetector: what a reported extremum is *)

Section PeakVocabularyMore.
Import PeakDetector.

(** [R] holds between each element of a list and the next one. *)
Fixpoint adjacent {A : Type} (R : A -> A -> Prop) (l : list A) : Prop :=
  match l with
  | [] => True
  | a :: rest => match rest with [] => True | b :: _ => R a b end /\ adjacent R rest
  end.

(** Every element comes before all the later ones. *)
Fixpoint inOrder (l : list Peak.t) : Prop :=
  match l with
  | [] => True
  | a :: rest => Forall (fun b => (Peak.index a < Peak.index b)%nat) rest /\ inOrder rest
  end.

Definition before (a b : Peak.t) : Prop := (Peak.index a < Peak.index b)%nat.

(** The distance test of [filterByDistance], between two extrema. *)
Definition apart (minDist : number) (a b : Peak.t) : Prop :=
  ge (of_Z (Z.of_nat (Peak.index b)) - of_Z (Z.of_nat (Peak.index a))) minDist = true.

(** An interior sample strictly above (below, for a valley) both its
    neighbours, recorded with its value, time stamp and prominence, the
    prominence reaching the configured threshold. *)
Definition extremumOf (d : PeakDetector.t) (signal timestamps : list number) (isValley : bool)
  (p : Peak.t) : Prop :=
  (1 <= Peak.index p)%nat /\ (Peak.index p + 1 < length signal)%nat /\
  Peak.value p = at_index signal (Peak.index p) /\
  Peak.timestamp p = at_index timestamps (Peak.index p) /\
  (if isValley
   then (Peak.value p <? at_index signal (Peak.index p - 1))
        && (Peak.value p <? at_index signal (Peak.index p + 1))
   else gt (Peak.value p) (at_index signal (Peak.index p - 1))
        && gt (Peak.value p) (at_index signal (Peak.index p + 1))) = true /\
  Peak.prominence p = calculateProminence signal (Peak.index p) isValley /\
  ge (Peak.prominence p) (prominence (config d)) = true.

(** The signals [findPeaks] and [findValleys] scan. *)
Definition magnitudes (useFiltered : bool) (data : list ProcessedSensorData.t) : list number :=
  map (fun s => if useFiltered then ProcessedSensorData.filteredMagnitude s
                else ProcessedSensorData.magnitude s) data.

Definition heights (useFiltered : bool) (data : list ProcessedSensorData.t) : list number :=
  map (fun s => if useFiltered then ProcessedSensorData.filteredZ s
                else ProcessedSensorData.z s) data.

Definition timestamps (data : list ProcessedSensorData.t) : list number :=
  map ProcessedSensorData.timestamp data.

(** What the loop of [filterByDistance] keeps true of the extrema it has
    kept, the index it remembers and the extrema still to come. *)
Definition filterInvariant (Q : Peak.t -> Prop) (minDist : number)
  (filtered : list Peak.t) (lastIndex : number) (rest : list Peak.t) : Prop :=
  Forall Q filtered /\ adjacent before filtered /\ adjacent (apart minDist) filtered /\
  (forall f p, In f filtered -> In p rest -> before f p) /\
  match rev filtered with
  | [] => lastIndex = neg_infinity
  | lastPeak :: _ => lastIndex = of_Z (Z.of_nat (Peak.index lastPeak))
  end.

(** Two prominent peaks two samples apart (indices 1 and 3), and a third
    one at index 9. *)
Definition twinSignal : list number := [1; 5; 1; 7; 1; 1; 1; 1; 1; 6; 1].

Definition twinData : list ProcessedSensorData.t :=
  map (fun '(i, m) => sampleOf i m) (combine (seq 0 11) twinSignal).

End PeakVocabularyMore.

(** * Properties *)

(** ** Rounding to nearest even on integers *)

Local Open Scope Z_scope.

(** The number of binary digits of a mantissa. *)
Lemma digits2_pos_log2 (m : positive) :
  Zpos (digits2_pos m) = Z.log2 (Zpos m) + 1.
Proof.
  induction m as [m IH|m IH|]; simpl digits2_pos; try reflexivity.
  - rewrite Pos2Z.inj_succ, IH.
    change (Z.pos m~1) with (2 * Z.pos m + 1). rewrite Z.log2_succ_double by lia. lia.
  - rewrite Pos2Z.inj_succ, IH.
    change (Z.pos m~0) with (2 * Z.pos m). rewrite Z.log2_double by lia. lia.
Qed.

Lemma iter_pos_nat {A} (f : A -> A) (p : positive) (x : A) :
  iter_pos f p x = Nat.iter (Pos.to_nat p) f x.
Proof.
  revert x; induction p as [p IH|p IH|]; intros x; simpl iter_pos.
  - rewrite !IH, Pos2Nat.inj_xI.
    replace (S (2 * Pos.to_nat p))%nat with (Pos.to_nat p + (Pos.to_nat p + 1))%nat by lia.
    rewrite !Nat.iter_add. reflexivity.
  - rewrite !IH, Pos2Nat.inj_xO.
    replace (2 * Pos.to_nat p)%nat with (Pos.to_nat p + Pos.to_nat p)%nat by lia.
    rewrite Nat.iter_add. reflexivity.
  - reflexivity.
Qed.

Lemma shr_1_spec m r s : 0 <= m ->
  shr_1 (Build_shr_record m r s) = Build_shr_record (m / 2) (Z.odd m) (r || s).
Proof.
  intros Hm. rewrite <- Z.div2_div.
  destruct m as [|p|p]; [reflexivity| |lia].
  destruct p; reflexivity.
Qed.

(** The shift record after [n + 1] one-bit right shifts: quotient, round bit
    and sticky bit. *)
Lemma shr_iter (n : nat) m : 0 <= m ->
  Nat.iter (S n) shr_1 (Build_shr_record m false false) =
  Build_shr_record (m / 2 ^ Z.of_nat (S n)) (Z.odd (m / 2 ^ Z.of_nat n))
                   (negb (m mod 2 ^ Z.of_nat n =? 0)).
Proof.
  intros Hm. induction n as [|n IH].
  - change (Nat.iter 1 shr_1 ?x) with (shr_1 x). rewrite shr_1_spec by assumption.
    change (2 ^ Z.of_nat 1) with 2. change (2 ^ Z.of_nat 0) with 1.
    rewrite Z.div_1_r, Z.mod_1_r. reflexivity.
  - change (Nat.iter (S (S n)) shr_1 ?x) with (shr_1 (Nat.iter (S n) shr_1 x)).
    rewrite IH. rewrite shr_1_spec by (apply Z.div_pos; lia).
    f_equal.
    + rewrite Z.div_div by lia. f_equal. rewrite (Nat2Z.inj_succ (S n)), Z.pow_succ_r by lia. lia.
    + (* sticky *)
      rewrite (Nat2Z.inj_succ n), Z.pow_succ_r by lia.
      set (P := 2 ^ Z.of_nat n). assert (0 < P) by (apply Z.pow_pos_nonneg; lia).
      rewrite (Z.mul_comm 2 P), Z.rem_mul_r by lia.
      rewrite Zodd_mod.
      destruct (Z.eqb_spec (m mod P) 0) as [E|E], (Z.eqb_spec ((m / P) mod 2) 1) as [F|F]; simpl;
        symmetry; try (apply Z.eqb_neq) ; try (apply Z.eqb_eq);
        pose proof (Z.mod_pos_bound (m/P) 2 ltac:(lia)); pose proof (Z.mod_pos_bound m P ltac:(lia)); nia.
Qed.

Lemma pow2_pos k : 0 <= k -> 0 < 2 ^ k.
Proof. intros; apply Z.pow_pos_nonneg; lia. Qed.

Lemma rne_shr (p : positive) (m : Z) : 0 <= m ->
  let mrs := iter_pos shr_1 p (Build_shr_record m false false) in
  round_nearest_even (shr_m mrs) (loc_of_shr_record mrs) = rne m (Zpos p).
Proof.
  intros Hm mrs. subst mrs. rewrite iter_pos_nat.
  destruct (Pos2Nat.is_succ p) as [k Hk]. rewrite Hk, shr_iter by assumption.
  assert (Hp : Z.pos p = Z.of_nat k + 1) by lia.
  rewrite Nat2Z.inj_succ, <- Z.add_1_r, <- Hp.
  unfold rne.
  assert (E : 2 ^ Z.pos p = 2 * 2 ^ Z.of_nat k).
  { rewrite Hp, Z.pow_add_r by lia. lia. }
  set (P := 2 ^ Z.of_nat k) in *. assert (0 < P) by (apply pow2_pos; lia).
  assert (R : m mod 2 ^ Z.pos p = P * ((m / P) mod 2) + m mod P).
  { rewrite E, (Z.mul_comm 2 P), Z.rem_mul_r by lia. lia. }
  rewrite R, E. clear R E.
  pose proof (Z.mod_pos_bound (m/P) 2 ltac:(lia)). pose proof (Z.mod_pos_bound m P ltac:(lia)).
  rewrite Zodd_mod.
  destruct (Z.eqb_spec ((m / P) mod 2) 1) as [F|F], (Z.eqb_spec (m mod P) 0) as [G|G];
    cbn [negb shr_m shr_r shr_s loc_of_shr_record round_nearest_even];
    match goal with |- context [?a ?= ?b] => destruct (Z.compare_spec a b) end;
    try reflexivity; try nia.
Qed.

Section RneFacts.

Set Default Proof Using "All".

Variables (K : Z).

Hypothesis HK : 0 <= K.

Lemma rne_bounds X : X / 2 ^ K <= rne X K <= X / 2 ^ K + 1.
Proof.
  unfold rne. destruct (_ ?= _); [destruct (Z.even _)| |]; lia.
Qed.

Lemma rne_exact X : X mod 2 ^ K = 0 -> rne X K = X / 2 ^ K.
Proof.
  intros E. unfold rne. rewrite E. pose proof (pow2_pos K HK).
  destruct (Z.compare_spec (2 * 0) (2 ^ K)); try lia.
Qed.

Lemma rne_mult c : rne (c * 2 ^ K) K = c.
Proof.
  pose proof (pow2_pos K HK).
  rewrite rne_exact. apply Z.div_mul; lia. apply Z.mod_mul; lia.
Qed.

Lemma rne_mono X Y : X <= Y -> rne X K <= rne Y K.
Proof.
  intros L. pose proof (pow2_pos K HK) as HP.
  pose proof (Z.div_le_mono X Y (2 ^ K) HP L) as Q.
  pose proof (Z.div_mod X (2 ^ K) ltac:(lia)) as EX.
  pose proof (Z.div_mod Y (2 ^ K) ltac:(lia)) as EY.
  pose proof (Z.mod_pos_bound X (2 ^ K) HP). pose proof (Z.mod_pos_bound Y (2 ^ K) HP).
  destruct (Z.eq_dec (X / 2 ^ K) (Y / 2 ^ K)) as [E|N].
  - unfold rne. rewrite E in *.
    destruct (Z.compare_spec (2 * (X mod 2 ^ K)) (2 ^ K)), (Z.compare_spec (2 * (Y mod 2 ^ K)) (2 ^ K));
      destruct (Z.even (Y / 2 ^ K)); lia.
  - pose proof (rne_bounds X). pose proof (rne_bounds Y). lia.
Qed.

Lemma rne_le_mult X c : X <= c * 2 ^ K -> rne X K <= c.
Proof. intros L. rewrite <- (rne_mult c). apply rne_mono; assumption. Qed.

Lemma rne_ge_mult X c : c * 2 ^ K <= X -> c <= rne X K.
Proof. intros L. rewrite <- (rne_mult c). apply rne_mono; assumption. Qed.

Lemma rne_scale m j n : 0 <= j -> 0 <= n -> n + j = K -> rne (m * 2 ^ j) K = rne m n.
Proof.
  intros Hj Hn E.
  unfold rne. subst K. rewrite Z.pow_add_r by lia.
  pose proof (pow2_pos j Hj). pose proof (pow2_pos n Hn).
  rewrite Z.div_mul_cancel_r by lia. rewrite Z.mul_mod_distr_r by lia.
  destruct (Z.compare_spec (2 * (m mod 2 ^ n)) (2 ^ n)), (Z.compare_spec (2 * (m mod 2 ^ n * 2 ^ j)) (2 ^ n * 2 ^ j)); try reflexivity; nia.
Qed.

End RneFacts.

Lemma Zdigits2_log2 m : 0 < m -> Zdigits2 m = Z.log2 m + 1.
Proof. destruct m; try lia. intros _. apply digits2_pos_log2. Qed.

Lemma iter_xO_spec (d m : positive) : Zpos (Pos.iter xO m d) = Zpos m * 2 ^ Zpos d.
Proof.
  induction d as [|d IH] using Pos.peano_ind.
  - cbn [Pos.iter]. lia.
  - rewrite Pos.iter_succ, Pos2Z.inj_xO, IH, Pos2Z.inj_succ, Z.pow_succ_r by lia. lia.
Qed.

Section Format.

Variables prec emax : Z.

Hypothesis Hprec : 0 < prec.

Hypothesis Hemax : prec < emax.

Abbreviation emin := (SpecFloat.emin prec emax).

Abbreviation fexp := (SpecFloat.fexp prec emax).

Abbreviation valid := (SpecFloat.valid_binary prec emax).

Variable B : Z.

Hypothesis HB : B <= emin.

Local Abbreviation Kof := (Kof prec emax B).
Local Abbreviation rnd := (rnd prec emax B).
Local Abbreviation mk_result := (mk_result prec emax).
Local Abbreviation round := (round prec emax B).
Local Abbreviation Omega := (Omega emax B).
Local Abbreviation clamp := (clamp emax B).
Local Abbreviation cround := (cround prec emax B).
Local Abbreviation xval := (xval emax B).

Set Default Proof Using "All".

Lemma fexp_ge_emin z : emin <= fexp z.
Proof. unfold SpecFloat.fexp. lia. Qed.

Lemma Kof_nonneg X : 0 <= Kof X.
Proof. unfold Kof. pose proof (fexp_ge_emin (Z.log2 X + 1 + B)). lia. Qed.

Lemma log2_scaled m j : 0 < m -> 0 <= j -> Z.log2 (m * 2 ^ j) = Z.log2 m + j.
Proof. intros. rewrite Z.log2_mul_pow2 by lia. lia. Qed.

(** [binary_round_aux] rounds the value [m * 2^e] to nearest even and packs
    the result; [Kof] and [rnd] describe it on integers. *)
Lemma binary_round_aux_spec s (mx : positive) ex : B <= ex ->
  let X := Zpos mx * 2 ^ (ex - B) in
  exists m e, m * 2 ^ (e - B) = rnd X /\ 0 <= m /\ B <= e /\
    binary_round_aux prec emax s (Zpos mx) ex loc_Exact = mk_result s m e /\
    (ex <= fexp (Z.log2 (Zpos mx) + 1 + ex) -> emax - prec < e -> 2 ^ (prec - 1) <= m).
Proof.
  intros Hex X.
  assert (HlogX : Z.log2 X = Z.log2 (Zpos mx) + (ex - B)) by (apply log2_scaled; lia).
  set (d := Z.log2 (Zpos mx) + 1) in *.
  pose proof (Z.log2_spec (Zpos mx) ltac:(lia)) as Hlog. fold d in Hlog.
  replace (Z.succ (Z.log2 (Z.pos mx))) with d in Hlog by (unfold d; lia).
  replace (Z.log2 (Z.pos mx)) with (d - 1) in Hlog by (unfold d; lia).
  assert (HK : Kof X = fexp (d + ex) - B).
  { unfold Kof. rewrite HlogX. f_equal. f_equal. unfold d. lia. }
  set (E := fexp (d + ex)) in *.
  assert (HE : E = Z.max (d + ex - prec) emin) by reflexivity.
  assert (Hmm : emin <= emax - prec) by (unfold SpecFloat.emin; lia).
  assert (HEm : emin <= E) by apply fexp_ge_emin.
  assert (HrX : E <= ex -> rnd X = X).
  { intros L. unfold rnd. rewrite HK.
    assert (EX : X = Zpos mx * 2 ^ (ex - E) * 2 ^ (E - B))
      by (unfold X; rewrite <- Z.mul_assoc, <- Z.pow_add_r by lia; do 2 f_equal; lia).
    rewrite EX at 1. rewrite rne_mult by lia. lia. }
  unfold binary_round_aux, shr_fexp.
  rewrite Zdigits2_log2 by lia. fold d. fold E.
  destruct (E - ex) as [|p|p] eqn:Hn; cbn [shr shr_record_of_loc].
  1,3: (* no shift: the input is already aligned or finer than needed *)
    cbn [loc_of_shr_record round_nearest_even shr_m];
    rewrite Zdigits2_log2 by lia; fold d; fold E; rewrite Hn; cbn [shr shr_record_of_loc shr_m];
    exists (Zpos mx), ex; split; [|split; [|split; [|split]]];
    [ symmetry; apply HrX; lia | lia | lia | reflexivity
    | intros HA Hov;
      assert (E = ex) by lia; assert (d = prec) by lia;
      replace (prec - 1) with (d - 1) by lia; lia ].
  (* a right shift by p bits *)
  assert (Hp : E = ex + Zpos p) by lia.
  pose proof (rne_shr p (Zpos mx) ltac:(lia)) as Hr. cbv zeta in Hr.
  destruct (iter_pos shr_1 p _) as [m' r' s'] eqn:Hit.
  cbn [shr_m] in *.
  set (m1 := round_nearest_even m' (loc_of_shr_record _)) in *.
  assert (HX1 : rnd X = m1 * 2 ^ (E - B)).
  { unfold rnd. rewrite HK. f_equal. rewrite Hr. unfold X.
    apply rne_scale; lia. }
  assert (Hm1 : 0 <= m1 <= 2 ^ prec).
  { rewrite Hr. split.
    - apply (rne_ge_mult (Zpos p) ltac:(lia) _ 0). lia.
    - apply rne_le_mult; [lia|].
      rewrite <- Z.pow_add_r by lia.
      assert (2 ^ d <= 2 ^ (prec + Zpos p)) by (apply Z.pow_le_mono_r; lia). lia. }
  assert (Hbig : emax - prec < E -> 2 ^ (prec - 1) <= m1).
  { intros Hov. assert (Zpos p = d - prec) by lia.
    rewrite Hr; apply rne_ge_mult; try lia.
    rewrite <- Z.pow_add_r by lia. replace (prec - 1 + Z.pos p) with (d - 1) by lia. lia. }
  pose proof (pow2_pos (prec - 1) ltac:(lia)) as Hpp.
  replace (ex + Z.pos p) with E by lia.
  assert (Hcase : m1 = 0 \/ (0 < m1 < 2 ^ prec) \/ m1 = 2 ^ prec) by lia.
  destruct Hcase as [H0|[Hlt|Hc]].
  - (* rounds to zero *)
    rewrite H0. cbn [Zdigits2].
    assert (Hn2 : fexp (0 + E) - E <= 0) by (unfold SpecFloat.fexp; lia).
    destruct (fexp (0 + E) - E) eqn:Hn2'; try lia; cbn [shr shr_record_of_loc shr_m];
      exists 0, E; repeat split; try lia.
  - rewrite Zdigits2_log2 by lia.
    assert (Z.log2 m1 < prec) by (apply Z.log2_lt_pow2; lia).
    assert (Hn2 : fexp (Z.log2 m1 + 1 + E) - E <= 0) by (unfold SpecFloat.fexp; lia).
    destruct (fexp (Z.log2 m1 + 1 + E) - E) eqn:Hn2'; try lia; cbn [shr shr_record_of_loc shr_m];
      exists m1, E; repeat split; try lia.
  - (* the mantissa overflows into the next binade *)
    rewrite Hc, Zdigits2_log2 by (apply pow2_pos; lia).
    rewrite Z.log2_pow2 by lia.
    assert (prec <= d - Zpos p).
    { destruct (Z_lt_le_dec (d - Zpos p) prec) as [L|L]; [|assumption]. exfalso.
      assert (m1 <= 2 ^ (prec - 1)); [|assert (2 ^ (prec-1) < 2 ^ prec) by (apply Z.pow_lt_mono_r; lia); lia].
      rewrite Hr. apply rne_le_mult; [lia|].
      rewrite <- Z.pow_add_r by lia.
      assert (2 ^ d <= 2 ^ (prec - 1 + Z.pos p)) by (apply Z.pow_le_mono_r; lia). lia. }
    assert (Hn2 : fexp (prec + 1 + E) - E = 1) by (unfold SpecFloat.fexp; lia).
    rewrite Hn2. cbn [shr shr_record_of_loc iter_pos].
    rewrite shr_1_spec by (apply Z.lt_le_incl, pow2_pos; lia). cbn [shr_m].
    assert (E2 : 2 ^ prec / 2 = 2 ^ (prec - 1)).
    { replace prec with (prec - 1 + 1) at 1 by lia. rewrite Z.pow_add_r by lia. apply Z.div_mul; lia. }
    rewrite E2. exists (2 ^ (prec - 1)), (E + 1).
    pose proof (pow2_pos (prec - 1) ltac:(lia)).
    repeat split; try lia.
    rewrite HX1, Hc. rewrite <- !Z.pow_add_r by lia. f_equal. lia.
Qed.

Lemma Kof_mono X Y : 0 < X -> X <= Y -> Kof X <= Kof Y.
Proof.
  intros HX L. unfold Kof, SpecFloat.fexp.
  pose proof (Z.log2_le_mono X Y L). lia.
Qed.

Lemma rnd_nonneg X : 0 < X -> 0 <= rnd X.
Proof.
  intros HX. unfold rnd.
  pose proof (Kof_nonneg X) as HK.
  pose proof (pow2_pos _ HK).
  pose proof (rne_ge_mult _ HK X 0 ltac:(lia)). nia.
Qed.

Lemma rnd_mono X Y : 0 < X -> X <= Y -> rnd X <= rnd Y.
Proof.
  intros HX L.
  pose proof (Kof_mono X Y HX L) as HKm.
  pose proof (Kof_nonneg X) as HKX.
  pose proof (Kof_nonneg Y) as HKY.
  unfold rnd.
  destruct (Z.eq_dec (Kof X) (Kof Y)) as [E|N].
  - rewrite E. pose proof (pow2_pos _ HKY).
    pose proof (rne_mono _ HKY X Y L). nia.
  - assert (HlY : Kof Y = Z.log2 Y + 1 - prec).
    { unfold Kof, SpecFloat.fexp in *. lia. }
    assert (Hll : Z.log2 X < Z.log2 Y).
    { pose proof (Z.log2_le_mono X Y L).
      destruct (Z.eq_dec (Z.log2 X) (Z.log2 Y)) as [E|E]; [|lia].
      exfalso. apply N. unfold Kof. rewrite E. reflexivity. }
    pose proof (Z.log2_spec X HX) as [_ HXu].
    pose proof (Z.log2_spec Y ltac:(lia)) as [HYl _].
    pose proof (Z.log2_nonneg X).
    set (L2 := Z.log2 Y) in *.
    assert (H1 : rne X (Kof X) <= 2 ^ (L2 - Kof X)).
    { apply rne_le_mult; [assumption|]. rewrite <- Z.pow_add_r by lia.
      replace (L2 - Kof X + Kof X) with L2 by lia.
      assert (2 ^ Z.succ (Z.log2 X) <= 2 ^ L2) by (apply Z.pow_le_mono_r; lia). lia. }
    assert (H2 : 2 ^ (L2 - Kof Y) <= rne Y (Kof Y)).
    { apply rne_ge_mult; [assumption|]. rewrite <- Z.pow_add_r by lia.
      replace (L2 - Kof Y + Kof Y) with L2 by lia. lia. }
    pose proof (pow2_pos _ HKX). pose proof (pow2_pos _ HKY).
    assert (E1 : 2 ^ (L2 - Kof X) * 2 ^ Kof X = 2 ^ L2).
    { rewrite <- Z.pow_add_r by lia. f_equal. lia. }
    assert (E2 : 2 ^ (L2 - Kof Y) * 2 ^ Kof Y = 2 ^ L2).
    { rewrite <- Z.pow_add_r by lia. f_equal. lia. }
    nia.
Qed.

Lemma round_mono X Y : X <= Y -> round X <= round Y.
Proof.
  intros L. unfold round.
  destruct (Z.ltb_spec 0 X), (Z.ltb_spec 0 Y), (Z.ltb_spec X 0), (Z.ltb_spec Y 0); try lia;
    try (apply rnd_mono; lia);
    try (pose proof (rnd_nonneg X ltac:(lia)));
    try (pose proof (rnd_nonneg Y ltac:(lia)));
    try (pose proof (rnd_nonneg (- X) ltac:(lia)));
    try (pose proof (rnd_nonneg (- Y) ltac:(lia)));
    try (pose proof (rnd_mono (- Y) (- X) ltac:(lia) ltac:(lia)));
    lia.
Qed.

Lemma Omega_pos : 0 < Omega.
Proof. apply pow2_pos. unfold SpecFloat.emin in HB. lia. Qed.

Lemma clamp_mono V W : V <= W -> clamp V <= clamp W.
Proof.
  intros L. pose proof Omega_pos. unfold clamp.
  destruct (Z.leb_spec Omega V), (Z.leb_spec Omega W), (Z.leb_spec V (- Omega)), (Z.leb_spec W (- Omega)); lia.
Qed.

Lemma clamp_spec V :
  (Omega <= V /\ clamp V = Omega) \/ (V <= - Omega /\ clamp V = - Omega) \/
  (- Omega < V < Omega /\ clamp V = V).
Proof.
  pose proof Omega_pos. unfold clamp.
  destruct (Z.leb_spec Omega V), (Z.leb_spec V (- Omega)); lia.
Qed.

Lemma round_pos X : 0 < X -> round X = rnd X.
Proof. intros H. unfold round. destruct (Z.ltb_spec 0 X); [reflexivity|lia]. Qed.

Lemma round_neg X : X < 0 -> round X = - rnd (- X).
Proof.
  intros H. unfold round. destruct (Z.ltb_spec 0 X); [lia|].
  destruct (Z.ltb_spec X 0); [reflexivity|lia].
Qed.

Lemma round_0 : round 0 = 0.
Proof. reflexivity. Qed.

Lemma cround_mono X Y : X <= Y -> cround X <= cround Y.
Proof. intros. apply clamp_mono, round_mono. assumption. Qed.

Lemma bounded_inv m e : bounded prec emax m e = true ->
  let d := Z.log2 (Zpos m) + 1 in
  d <= prec /\ emin <= e <= emax - prec /\ (emin < e -> d = prec) /\ fexp (d + e) = e.
Proof.
  unfold bounded, canonical_mantissa. intros H. apply andb_prop in H as [H1 H2].
  apply Z.eqb_eq in H1. apply Z.leb_le in H2. rewrite digits2_pos_log2 in H1.
  cbv zeta. unfold SpecFloat.fexp in *. lia.
Qed.

Lemma finite_val_bounds m e : bounded prec emax m e = true ->
  0 < Zpos m * 2 ^ (e - B) < Omega.
Proof.
  intros H. apply bounded_inv in H. cbv zeta in H. destruct H as (Hd & He & Hn & _).
  pose proof (Z.log2_spec (Zpos m) ltac:(lia)) as [_ Hu].
  assert (0 < 2 ^ (e - B)) by (apply pow2_pos; lia).
  split; [lia|].
  assert (2 ^ Z.succ (Z.log2 (Z.pos m)) <= 2 ^ prec) by (apply Z.pow_le_mono_r; lia).
  assert (2 ^ prec * 2 ^ (e - B) <= Omega).
  { unfold Omega. rewrite <- Z.pow_add_r by lia. apply Z.pow_le_mono_r; lia. }
  nia.
Qed.

Lemma xval_bounds f : valid f = true -> - Omega <= xval f <= Omega.
Proof.
  pose proof Omega_pos.
  destruct f as [s|s| |s m e]; cbn [SpecFloat.valid_binary xval]; intros Hv;
    try (pose proof (finite_val_bounds m e Hv)); try (destruct s; cbn [sgn]); lia.
Qed.

(** On canonical mantissas, exponent-then-mantissa order is the order of values. *)
Lemma lex_compare m1 e1 m2 e2 :
  bounded prec emax m1 e1 = true -> bounded prec emax m2 e2 = true ->
  match e1 ?= e2 with
  | Lt => Lt
  | Gt => Gt
  | Eq => Pos.compare_cont Eq m1 m2
  end = (Zpos m1 * 2 ^ (e1 - B) ?= Zpos m2 * 2 ^ (e2 - B)).
Proof.
  assert (key : forall m1 e1 m2 e2, bounded prec emax m1 e1 = true -> bounded prec emax m2 e2 = true ->
            e1 < e2 -> Zpos m1 * 2 ^ (e1 - B) < Zpos m2 * 2 ^ (e2 - B)).
  { clear m1 e1 m2 e2. intros m1 e1 m2 e2 H1 H2 L.
    apply bounded_inv in H1, H2. cbv zeta in *.
    destruct H1 as (Hd1 & He1 & _ & _). destruct H2 as (Hd2 & He2 & Hn2 & _).
    pose proof (Z.log2_spec (Zpos m1) ltac:(lia)) as [_ Hu].
    pose proof (Z.log2_spec (Zpos m2) ltac:(lia)) as [Hl _].
    assert (Z.log2 (Zpos m2) = prec - 1) as E2 by lia. rewrite E2 in Hl.
    assert (2 ^ Z.succ (Z.log2 (Z.pos m1)) <= 2 ^ prec) by (apply Z.pow_le_mono_r; lia).
    assert (0 < 2 ^ (e1 - B)) by (apply pow2_pos; lia).
    assert (E : 2 ^ (e2 - B) = 2 ^ (e2 - e1 - 1) * 2 * 2 ^ (e1 - B)).
    { replace (e2 - B) with ((e2 - e1 - 1) + 1 + (e1 - B)) by lia.
      rewrite !Z.pow_add_r by lia. lia. }
    assert (0 < 2 ^ (e2 - e1 - 1)) by (apply pow2_pos; lia).
    assert (P : 2 ^ prec = 2 * 2 ^ (prec - 1)).
    { replace prec with (1 + (prec - 1)) at 1 by lia. rewrite Z.pow_add_r by lia. lia. }
    rewrite E. nia. }
  intros H1 H2.
  destruct (Z.compare_spec e1 e2) as [E|L|L].
  - subst e2. apply bounded_inv in H1. cbv zeta in H1.
    assert (0 < 2 ^ (e1 - B)) by (apply pow2_pos; lia).
    rewrite Pos.compare_cont_spec. cbn [Pos.switch_Eq].
    change (Pos.compare m1 m2) with (Zpos m1 ?= Zpos m2).
    symmetry. destruct (Z.compare_spec (Zpos m1) (Zpos m2)) as [E|L|L].
    + rewrite E. apply Z.compare_refl.
    + apply Z.compare_lt_iff. nia.
    + apply Z.compare_gt_iff. nia.
  - symmetry. apply Z.compare_lt_iff. apply key; assumption.
  - symmetry. apply Z.compare_gt_iff. apply key; assumption.
Qed.

Lemma SFcompare_xval f1 f2 :
  valid f1 = true -> valid f2 = true ->
  not_nan f1 = true -> not_nan f2 = true ->
  SFcompare f1 f2 = Some (xval f1 ?= xval f2).
Proof.
  pose proof Omega_pos as HO.
  intros V1 V2 N1 N2.
  destruct f1 as [s1|s1| |s1 m1 e1], f2 as [s2|s2| |s2 m2 e2]; try discriminate;
    cbn [SpecFloat.valid_binary] in *;
    try (pose proof (finite_val_bounds _ _ V1)); try (pose proof (finite_val_bounds _ _ V2));
    cbn [SFcompare xval]; f_equal; symmetry.
  all: try (destruct s1; cbn [sgn]); try (destruct s2; cbn [sgn]).
  all: try (apply Z.compare_eq_iff; lia); try (apply Z.compare_lt_iff; lia);
       try (apply Z.compare_gt_iff; lia).
  - rewrite Z.compare_opp, (Z.compare_antisym (Zpos m1 * _)), <- (lex_compare m1 e1 m2 e2 V1 V2).
    destruct (e1 ?= e2); reflexivity.
  - symmetry. apply lex_compare; assumption.
Qed.

Lemma shl_align_spec mx ex ex' :
  let mz := fst (shl_align mx ex ex') in
  let ez := snd (shl_align mx ex ex') in
  ez = Z.min ex ex' /\ Zpos mz = Zpos mx * 2 ^ (ex - ez).
Proof.
  unfold shl_align. destruct (ex' - ex) as [|d|d] eqn:E; cbn [fst snd].
  - rewrite Z.min_l by lia. rewrite Z.sub_diag. lia.
  - rewrite Z.min_l by lia. rewrite Z.sub_diag. lia.
  - rewrite Z.min_r by lia. split; [reflexivity|].
    rewrite iter_xO_spec. do 2 f_equal. lia.
Qed.

Lemma scaled_val m e e' : B <= e' <= e -> m * 2 ^ (e - e') * 2 ^ (e' - B) = m * 2 ^ (e - B).
Proof.
  intros. rewrite <- Z.mul_assoc, <- Z.pow_add_r by lia. do 2 f_equal. lia.
Qed.

Lemma binary_round_spec s (mx : positive) ex : B <= ex ->
  exists m e, m * 2 ^ (e - B) = rnd (Zpos mx * 2 ^ (ex - B)) /\ 0 <= m /\ B <= e /\
    binary_round prec emax s mx ex = mk_result s m e /\
    (emax - prec < e -> 2 ^ (prec - 1) <= m).
Proof.
  intros Hex. unfold binary_round.
  rewrite digits2_pos_log2.
  set (E := fexp (Z.log2 (Zpos mx) + 1 + ex)).
  assert (HE : emin <= E) by apply fexp_ge_emin.
  pose proof (shl_align_spec mx ex E) as [Hez Hmz]. cbv zeta in *.
  destruct (shl_align mx ex E) as [mz ez]. cbn [fst snd] in *.
  assert (Hval : Zpos mz * 2 ^ (ez - B) = Zpos mx * 2 ^ (ex - B)).
  { rewrite Hmz. apply scaled_val. lia. }
  destruct (binary_round_aux_spec s mz ez ltac:(lia))
    as (m & e & Hv & Hm & He & Hr & Hov).
  cbv zeta in *. rewrite Hval in Hv.
  exists m, e. repeat split; try assumption.
  apply Hov.
  assert (Z.log2 (Zpos mz) + ez = Z.log2 (Zpos mx) + ex).
  { rewrite Hmz, log2_scaled by lia. lia. }
  replace (Z.log2 (Z.pos mz) + 1 + ez) with (Z.log2 (Zpos mx) + 1 + ex) by lia.
  fold E. lia.
Qed.

Lemma xval_mk_result s m e :
  valid (mk_result s m e) = true -> 0 <= m -> B <= e ->
  (emax - prec < e -> 2 ^ (prec - 1) <= m) ->
  xval (mk_result s m e) = clamp (sgn s (m * 2 ^ (e - B))).
Proof.
  intros Hv Hm He Hov. pose proof Omega_pos as HO.
  unfold mk_result in *. destruct m as [|p|p]; try lia.
  - cbn [xval]. rewrite Z.mul_0_l.
    replace (sgn s 0) with 0 by (destruct s; reflexivity).
    pose proof (clamp_spec 0). lia.
  - destruct (Z.leb_spec e (emax - prec)) as [L|L].
    + cbn [SpecFloat.valid_binary xval] in *.
      pose proof (finite_val_bounds p e Hv).
      pose proof (clamp_spec (sgn s (Zpos p * 2 ^ (e - B)))).
      destruct s; cbn [sgn] in *; lia.
    + cbn [xval]. specialize (Hov L).
      assert (Omega <= Zpos p * 2 ^ (e - B)).
      { unfold Omega.
        replace (emax - B) with ((prec - 1) + (emax - prec + 1 - B)) by lia.
        unfold SpecFloat.emin in HB.
        rewrite Z.pow_add_r by lia.
        assert (2 ^ (emax - prec + 1 - B) <= 2 ^ (e - B)) by (apply Z.pow_le_mono_r; lia).
        assert (0 < 2 ^ (emax - prec + 1 - B)) by (apply pow2_pos; lia).
        assert (0 < 2 ^ (prec - 1)) by (apply pow2_pos; lia).
        nia. }
      pose proof (clamp_spec (sgn s (Zpos p * 2 ^ (e - B)))).
      destruct s; cbn [sgn] in *; lia.
Qed.

Lemma cround_0 : cround 0 = 0.
Proof.
  pose proof Omega_pos as HO. unfold cround. rewrite round_0.
  pose proof (clamp_spec 0). lia.
Qed.

Lemma binary_normalize_xval M e :
  B <= e -> valid (binary_normalize prec emax M e false) = true ->
  xval (binary_normalize prec emax M e false) = cround (M * 2 ^ (e - B)).
Proof.
  intros He Hv. pose proof Omega_pos as HO.
  assert (HP : 0 < 2 ^ (e - B)) by (apply pow2_pos; lia).
  unfold binary_normalize in *. destruct M as [|p|p].
  - cbn [xval]. rewrite Z.mul_0_l, cround_0. reflexivity.
  - destruct (binary_round_spec false p e He) as (m & e' & HV & Hm & He' & Hr & Hov).
    rewrite Hr in *. rewrite xval_mk_result by assumption.
    unfold cround. rewrite round_pos by lia. cbn [sgn]. rewrite HV. reflexivity.
  - destruct (binary_round_spec true p e He) as (m & e' & HV & Hm & He' & Hr & Hov).
    rewrite Hr in *. rewrite xval_mk_result by assumption.
    unfold cround. rewrite round_neg by lia. cbn [sgn]. rewrite HV.
    do 3 f_equal. lia.
Qed.

(** A representable value rounds to itself. *)
Lemma rnd_canonical m e : bounded prec emax m e = true ->
  rnd (Zpos m * 2 ^ (e - B)) = Zpos m * 2 ^ (e - B).
Proof.
  intros Hb. apply bounded_inv in Hb. cbv zeta in Hb.
  destruct Hb as (Hd & He & _ & Hf).
  unfold rnd, Kof. rewrite log2_scaled by lia.
  replace (Z.log2 (Z.pos m) + (e - B) + 1 + B) with (Z.log2 (Z.pos m) + 1 + e) by lia.
  rewrite Hf. rewrite rne_mult by lia. reflexivity.
Qed.

Lemma cround_xval f : valid f = true -> is_fin f = true -> cround (xval f) = xval f.
Proof.
  intros Hv Hf. pose proof Omega_pos as HO.
  destruct f as [s|s| |s m e]; try discriminate; cbn [xval].
  - apply cround_0.
  - cbn [SpecFloat.valid_binary] in Hv.
    pose proof (finite_val_bounds m e Hv).
    pose proof (rnd_canonical m e Hv) as Hr.
    unfold cround. destruct s; cbn [sgn].
    + rewrite round_neg by lia. rewrite Z.opp_involutive, Hr.
      pose proof (clamp_spec (- (Zpos m * 2 ^ (e - B)))). lia.
    + rewrite round_pos by lia. rewrite Hr.
      pose proof (clamp_spec (Zpos m * 2 ^ (e - B))). lia.
Qed.

Lemma aligned_sum sx mx ex sy my ey (op : Z -> Z -> Z) :
  (forall a b c, op a b * c = op (a * c) (b * c)) ->
  bounded prec emax mx ex = true -> bounded prec emax my ey = true ->
  let ez := Z.min ex ey in
  op (cond_Zopp sx (Zpos (fst (shl_align mx ex ez)))) (cond_Zopp sy (Zpos (fst (shl_align my ey ez))))
    * 2 ^ (ez - B)
  = op (sgn sx (Zpos mx * 2 ^ (ex - B))) (sgn sy (Zpos my * 2 ^ (ey - B))).
Proof.
  intros Hop Hx Hy ez.
  apply bounded_inv in Hx, Hy. cbv zeta in Hx, Hy.
  pose proof (shl_align_spec mx ex ez) as [Hex Hmx].
  pose proof (shl_align_spec my ey ez) as [Hey Hmy]. cbv zeta in *.
  rewrite Hmx, Hmy, Hex, Hey. rewrite Hop.
  assert (E1 : Z.min ex ez = ez) by (unfold ez; lia).
  assert (E2 : Z.min ey ez = ez) by (unfold ez; lia).
  rewrite E1, E2.
  f_equal.
  - destruct sx; cbn [cond_Zopp sgn]; rewrite ?Z.mul_opp_l; rewrite scaled_val by (unfold ez; lia); reflexivity.
  - destruct sy; cbn [cond_Zopp sgn]; rewrite ?Z.mul_opp_l; rewrite scaled_val by (unfold ez; lia); reflexivity.
Qed.

Lemma SFadd_xval x y :
  valid x = true -> valid y = true -> is_fin x = true -> is_fin y = true ->
  valid (SFadd prec emax x y) = true ->
  xval (SFadd prec emax x y) = cround (xval x + xval y).
Proof.
  intros Vx Vy Fx Fy Vo.
  destruct x as [sx|sx| |sx mx ex], y as [sy|sy| |sy my ey]; try discriminate.
  - destruct sx, sy; cbn [SFadd xval]; symmetry; apply cround_0.
  - cbn [SFadd]. change (xval (S754_zero sx)) with 0. rewrite Z.add_0_l.
    rewrite cround_xval; [reflexivity|assumption|reflexivity].
  - cbn [SFadd]. change (xval (S754_zero sy)) with 0. rewrite Z.add_0_r.
    rewrite cround_xval; [reflexivity|assumption|reflexivity].
  - cbn [SFadd xval] in *. cbn [SpecFloat.valid_binary] in Vx, Vy.
    pose proof (bounded_inv mx ex Vx). pose proof (bounded_inv my ey Vy).
    cbv zeta in *.
    rewrite binary_normalize_xval by (assumption || lia).
    f_equal. apply (aligned_sum sx mx ex sy my ey Z.add); auto. intros; lia.
Qed.

Lemma SFsub_xval x y :
  valid x = true -> valid y = true -> is_fin x = true -> is_fin y = true ->
  valid (SFsub prec emax x y) = true ->
  xval (SFsub prec emax x y) = cround (xval x - xval y).
Proof.
  intros Vx Vy Fx Fy Vo.
  destruct x as [sx|sx| |sx mx ex], y as [sy|sy| |sy my ey]; try discriminate.
  - destruct sx, sy; cbn [SFsub xval]; symmetry; apply cround_0.
  - cbn [SFsub].
    replace (xval (S754_zero sx) - xval (S754_finite sy my ey)) with (xval (S754_finite (negb sy) my ey))
      by (cbn [xval]; destruct sy; cbn [sgn negb]; lia).
    rewrite cround_xval; [reflexivity|assumption|reflexivity].
  - cbn [SFsub]. change (xval (S754_zero sy)) with 0. rewrite Z.sub_0_r.
    rewrite cround_xval; [reflexivity|assumption|reflexivity].
  - cbn [SFsub xval] in *. cbn [SpecFloat.valid_binary] in Vx, Vy.
    pose proof (bounded_inv mx ex Vx). pose proof (bounded_inv my ey Vy).
    cbv zeta in *.
    rewrite binary_normalize_xval by (assumption || lia).
    f_equal. apply (aligned_sum sx mx ex sy my ey Z.sub); auto. intros; lia.
Qed.

Lemma is_fin_bounds f : valid f = true -> is_fin f = true -> - Omega < xval f < Omega.
Proof.
  intros Hv Hf. pose proof Omega_pos.
  destruct f as [s|s| |s m e]; try discriminate; cbn [xval]; [lia|].
  pose proof (finite_val_bounds m e Hv). destruct s; cbn [sgn]; lia.
Qed.

Lemma is_fin_of_bounds f : not_nan f = true -> - Omega < xval f < Omega -> is_fin f = true.
Proof.
  destruct f as [s|s| |s m e]; try discriminate; try reflexivity.
  cbn [xval]. destruct s; cbn [sgn]; lia.
Qed.

Lemma mk_result_not_nan s m e : 0 <= m -> not_nan (mk_result s m e) = true.
Proof.
  intros Hm. unfold mk_result. destruct m; try lia; [reflexivity|].
  destruct (e <=? emax - prec); reflexivity.
Qed.

Lemma binary_normalize_not_nan M e : B <= e -> not_nan (binary_normalize prec emax M e false) = true.
Proof.
  intros He. unfold binary_normalize. destruct M as [|p|p]; [reflexivity| |].
  - destruct (binary_round_spec false p e He) as (m & e' & _ & Hm & _ & Hr & _).
    rewrite Hr. apply mk_result_not_nan; assumption.
  - destruct (binary_round_spec true p e He) as (m & e' & _ & Hm & _ & Hr & _).
    rewrite Hr. apply mk_result_not_nan; assumption.
Qed.

Lemma SFadd_not_nan x y :
  valid x = true -> valid y = true -> is_fin x = true -> is_fin y = true ->
  not_nan (SFadd prec emax x y) = true.
Proof.
  intros Vx Vy Fx Fy.
  destruct x as [sx|sx| |sx mx ex], y as [sy|sy| |sy my ey]; try discriminate;
    try reflexivity; [destruct sx, sy; reflexivity|].
  cbn [SFadd]. cbn [SpecFloat.valid_binary] in Vx, Vy.
  apply bounded_inv in Vx, Vy. cbv zeta in *.
  apply binary_normalize_not_nan. lia.
Qed.

(** Addition of finite numbers is monotone in both arguments. *)
Lemma SFadd_mono x y x' y' :
  valid x = true -> valid y = true -> valid x' = true -> valid y' = true ->
  is_fin x = true -> is_fin y = true -> is_fin x' = true -> is_fin y' = true ->
  valid (SFadd prec emax x y) = true -> valid (SFadd prec emax x' y') = true ->
  xval x <= xval x' -> xval y <= xval y' ->
  xval (SFadd prec emax x y) <= xval (SFadd prec emax x' y').
Proof.
  intros. rewrite !SFadd_xval by assumption. apply cround_mono. lia.
Qed.

(** Subtraction is monotone in its first argument, infinities included,
    whenever both differences are numbers. *)
Lemma SFsub_mono c p v :
  valid c = true -> valid p = true -> valid v = true ->
  valid (SFsub prec emax c v) = true -> valid (SFsub prec emax p v) = true ->
  not_nan c = true -> not_nan p = true ->
  not_nan (SFsub prec emax c v) = true -> not_nan (SFsub prec emax p v) = true ->
  xval c <= xval p ->
  xval (SFsub prec emax c v) <= xval (SFsub prec emax p v).
Proof.
  intros Vc Vp Vv Voc Vop Nc Np Noc Nop L.
  pose proof Omega_pos as HO.
  destruct (is_fin c && is_fin p && is_fin v) eqn:F.
  - apply andb_prop in F as [F Fv]. apply andb_prop in F as [Fc Fp].
    rewrite !SFsub_xval by assumption. apply cround_mono. lia.
  - pose proof (xval_bounds _ Voc) as Boc. pose proof (xval_bounds _ Vop) as Bop.
    destruct c as [sc|sc| |sc mc ec]; try discriminate;
    destruct p as [sp|sp| |sp mp ep]; try discriminate;
    destruct v as [sv|sv| |sv mv ev]; try discriminate;
    cbn [SpecFloat.valid_binary] in Vc, Vp;
    try (pose proof (finite_val_bounds _ _ Vc));
    try (pose proof (finite_val_bounds _ _ Vp));
    try (destruct sc); try (destruct sp); try (destruct sv);
    try discriminate;
    cbn [SFsub xval sgn negb] in *; lia.
Qed.

(** Product of two positive finite numbers: the result carries the rounded
    exact product unless its exponent overflows. *)
Lemma SFmul_finite_spec sx mx ex sy my ey : B <= ex + ey ->
  exists m e, m * 2 ^ (e - B) = rnd (Zpos mx * Zpos my * 2 ^ (ex + ey - B)) /\ 0 <= m /\ B <= e /\
    SFmul prec emax (S754_finite sx mx ex) (S754_finite sy my ey) = mk_result (xorb sx sy) m e.
Proof.
  intros He. cbn [SFmul].
  destruct (binary_round_aux_spec (xorb sx sy) (mx * my) (ex + ey) He) as (m & e & Hv & Hm & He' & Hr & _).
  cbv zeta in Hv. rewrite Pos2Z.inj_mul in Hv. exists m, e. repeat split; assumption.
Qed.

Lemma SFmul_mono_pos mx ex mx' ex' mw ew :
  B <= ex + ew -> B <= ex' + ew ->
  Zpos mx * 2 ^ (ex + ew - B) <= Zpos mx' * 2 ^ (ex' + ew - B) ->
  let out := SFmul prec emax (S754_finite false mx ex) (S754_finite false mw ew) in
  let out' := SFmul prec emax (S754_finite false mx' ex') (S754_finite false mw ew) in
  valid out = true -> is_fin out' = true -> xval out' < 2 ^ (emax - prec + 1 - B) ->
  is_fin out = true /\ 0 <= xval out <= xval out'.
Proof.
  intros He He' L out out' Vo Fo' Bo'.
  destruct (SFmul_finite_spec false mx ex false mw ew He) as (m & e & Hv & Hm & Hbe & Hr).
  destruct (SFmul_finite_spec false mx' ex' false mw ew He') as (m' & e' & Hv' & Hm' & Hbe' & Hr').
  fold out in Hr. fold out' in Hr'. cbn [xorb] in *.
  assert (HX : 0 < Zpos mx * Zpos mw * 2 ^ (ex + ew - B)).
  { assert (0 < 2 ^ (ex + ew - B)) by (apply pow2_pos; lia). nia. }
  assert (Hmono : rnd (Zpos mx * Zpos mw * 2 ^ (ex + ew - B)) <= rnd (Zpos mx' * Zpos mw * 2 ^ (ex' + ew - B))).
  { apply rnd_mono; [assumption|]. nia. }
  assert (Hx' : xval out' = m' * 2 ^ (e' - B)).
  { rewrite Hr' in *. unfold mk_result in *. destruct m' as [|q|q]; try lia; [reflexivity|].
    destruct (e' <=? emax - prec); [reflexivity|discriminate]. }
  assert (0 < 2 ^ (e - B)) by (apply pow2_pos; lia).
  assert (Hx : is_fin out = true /\ xval out = m * 2 ^ (e - B)).
  { rewrite Hr. unfold mk_result. destruct m as [|q|q]; try lia; [split; reflexivity|].
    destruct (Z.leb_spec e (emax - prec)) as [Le|Le]; [split; reflexivity|].
    exfalso.
    assert (2 ^ (emax - prec + 1 - B) <= 2 ^ (e - B)) by (apply Z.pow_le_mono_r; unfold SpecFloat.emin in HB; lia).
    nia. }
  destruct Hx as [Hf Hx]. split; [assumption|]. rewrite Hx, Hx', Hv, Hv'. nia.
Qed.

Lemma SFsub_not_nan x y :
  valid x = true -> valid y = true -> not_nan x = true -> is_fin y = true ->
  not_nan (SFsub prec emax x y) = true.
Proof.
  intros Vx Vy Nx Fy.
  destruct x as [sx|sx| |sx mx ex], y as [sy|sy| |sy my ey]; try discriminate;
    try reflexivity; [destruct sx, sy; reflexivity|].
  cbn [SFsub]. cbn [SpecFloat.valid_binary] in Vx, Vy.
  apply bounded_inv in Vx, Vy. cbv zeta in *.
  apply binary_normalize_not_nan. lia.
Qed.

End Format.

(** ** Binary64 operations through their integer values *)

Lemma prec_pos : 0 < prec.
Proof. reflexivity. Qed.

Lemma prec_lt_emax : prec < emax.
Proof. reflexivity. Qed.

Lemma B64_le_emin : B64 <= emin.
Proof. discriminate. Qed.

Lemma prec_eq : prec = 53.
Proof. reflexivity. Qed.

Lemma emax_eq : emax = 1024.
Proof. reflexivity. Qed.

Lemma emin_eq : emin = -1074.
Proof. reflexivity. Qed.

Lemma B64_eq : B64 = 2 * emin.
Proof. reflexivity. Qed.

Ltac b64_lia := pose proof prec_eq; pose proof emax_eq; pose proof emin_eq; pose proof B64_eq; lia.

Abbreviation G l := (l prec emax prec_pos prec_lt_emax B64 B64_le_emin).

Lemma SFcompare_fval x y : fnum x = true -> fnum y = true ->
  SFcompare (Prim2SF x) (Prim2SF y) = Some (fval x ?= fval y).
Proof.
  intros Nx Ny.
  apply (SFcompare_xval prec emax prec_pos prec_lt_emax B64 B64_le_emin);
    auto using Prim2SF_valid.
Qed.

Lemma SFcompare_nan_l x y : fnum x = false -> SFcompare (Prim2SF x) (Prim2SF y) = None.
Proof. unfold fnum. destruct (Prim2SF x); try discriminate. reflexivity. Qed.

Lemma SFcompare_nan_r x y : fnum y = false -> SFcompare (Prim2SF x) (Prim2SF y) = None.
Proof. unfold fnum. destruct (Prim2SF x), (Prim2SF y); try discriminate; reflexivity. Qed.

Lemma leb_fval x y :
  (x <=? y)%float = fnum x && fnum y && (fval x <=? fval y).
Proof.
  rewrite leb_spec. unfold SFleb.
  destruct (fnum x) eqn:Nx; [|rewrite SFcompare_nan_l by assumption; reflexivity].
  destruct (fnum y) eqn:Ny; [|rewrite SFcompare_nan_r by assumption; reflexivity].
  rewrite SFcompare_fval by assumption. cbn [andb].
  destruct (Z.compare_spec (fval x) (fval y)); symmetry;
    [apply Z.leb_le|apply Z.leb_le|apply Z.leb_gt]; lia.
Qed.

Lemma ltb_fval x y :
  (x <? y)%float = fnum x && fnum y && (fval x <? fval y).
Proof.
  rewrite ltb_spec. unfold SFltb.
  destruct (fnum x) eqn:Nx; [|rewrite SFcompare_nan_l by assumption; reflexivity].
  destruct (fnum y) eqn:Ny; [|rewrite SFcompare_nan_r by assumption; reflexivity].
  rewrite SFcompare_fval by assumption. cbn [andb].
  destruct (Z.compare_spec (fval x) (fval y)); symmetry;
    [apply Z.ltb_ge|apply Z.ltb_lt|apply Z.ltb_ge]; lia.
Qed.

Lemma eqb_fval x y :
  (x =? y)%float = fnum x && fnum y && (fval x =? fval y).
Proof.
  rewrite eqb_spec. unfold SFeqb.
  destruct (fnum x) eqn:Nx; [|rewrite SFcompare_nan_l by assumption; reflexivity].
  destruct (fnum y) eqn:Ny; [|rewrite SFcompare_nan_r by assumption; reflexivity].
  rewrite SFcompare_fval by assumption. cbn [andb].
  destruct (Z.compare_spec (fval x) (fval y)); symmetry;
    [apply Z.eqb_eq|apply Z.eqb_neq|apply Z.eqb_neq]; lia.
Qed.

Lemma is_nan_fnum x : is_nan x = negb (fnum x).
Proof.
  unfold is_nan. rewrite eqb_fval.
  destruct (fnum x); [|reflexivity]. cbn [andb]. rewrite Z.eqb_refl. reflexivity.
Qed.

Lemma is_finite_ffin x : is_finite x = ffin x.
Proof.
  unfold is_finite, is_infinity. rewrite is_nan_fnum, eqb_spec, abs_spec.
  unfold fnum, ffin. change (Prim2SF infinity) with (S754_infinity false).
  destruct (Prim2SF x) as [s|s| |s m e]; reflexivity.
Qed.

(** Subtraction is monotone in its first argument. *)
Lemma sub_mono_l c p v :
  (c <=? p)%float = true -> fnum (c - v) = true -> fnum (p - v) = true ->
  (c - v <=? p - v)%float = true.
Proof.
  rewrite !leb_fval. intros H Nc Np.
  apply andb_prop in H as [H L]. apply andb_prop in H as [Hc Hp]. apply Z.leb_le in L.
  rewrite Nc, Np. cbn [andb]. apply Z.leb_le.
  unfold fval, fnum in *. rewrite !sub_spec in *.
  apply (SFsub_mono prec emax prec_pos prec_lt_emax B64 B64_le_emin);
    try apply Prim2SF_valid; try assumption.
  - rewrite <- sub_spec. apply Prim2SF_valid.
  - rewrite <- sub_spec. apply Prim2SF_valid.
Qed.

Lemma fval_fin_bounds x : ffin x = true -> - Omega emax B64 < fval x < Omega emax B64.
Proof.
  intros F. apply (is_fin_bounds prec emax prec_pos prec_lt_emax B64 B64_le_emin);
    [apply Prim2SF_valid|assumption].
Qed.

Lemma ffin_fnum x : ffin x = true -> fnum x = true.
Proof. unfold ffin, fnum. destruct (Prim2SF x); try discriminate; reflexivity. Qed.

Lemma ffin_of_bounds x : fnum x = true -> - Omega emax B64 < fval x < Omega emax B64 -> ffin x = true.
Proof. apply (G is_fin_of_bounds). Qed.

(** A number between two finite numbers is finite. *)
Lemma between_ffin lo hi x :
  ffin lo = true -> ffin hi = true -> (lo <=? x)%float = true -> (x <=? hi)%float = true ->
  ffin x = true.
Proof.
  intros Fl Fh. rewrite !leb_fval. intros H1 H2.
  apply andb_prop in H1 as [H1 L1]. apply andb_prop in H1 as [_ Nx].
  apply andb_prop in H2 as [_ L2]. apply Z.leb_le in L1, L2.
  pose proof (fval_fin_bounds lo Fl). pose proof (fval_fin_bounds hi Fh).
  apply ffin_of_bounds; [assumption|lia].
Qed.

Lemma add_fnum x y : ffin x = true -> ffin y = true -> fnum (x + y) = true.
Proof.
  intros Fx Fy. unfold fnum. rewrite add_spec.
  apply (SFadd_not_nan prec emax prec_pos prec_lt_emax B64 B64_le_emin);
    try apply Prim2SF_valid; assumption.
Qed.

(** Addition of finite numbers is monotone. *)
Lemma add_mono x y x' y' :
  ffin x = true -> ffin y = true -> ffin x' = true -> ffin y' = true ->
  (x <=? x')%float = true -> (y <=? y')%float = true ->
  (x + y <=? x' + y')%float = true.
Proof.
  intros Fx Fy Fx' Fy'. rewrite !leb_fval. intros H1 H2.
  apply andb_prop in H1 as [_ L1]. apply andb_prop in H2 as [_ L2]. apply Z.leb_le in L1, L2.
  rewrite !add_fnum by assumption. cbn [andb]. apply Z.leb_le.
  unfold fval in *. rewrite !add_spec.
  apply (SFadd_mono prec emax prec_pos prec_lt_emax B64 B64_le_emin);
    try apply Prim2SF_valid; try assumption;
    rewrite <- add_spec; apply Prim2SF_valid.
Qed.

Lemma pow2_split a b : 0 <= a -> 0 <= b -> 2 ^ (a + b) = 2 ^ a * 2 ^ b.
Proof. intros. apply Z.pow_add_r; assumption. Qed.

(** Multiplication by a positive finite factor is monotone on the
    non-negative finite numbers, as long as the larger product stays small. *)
Lemma mul_mono_nonneg x x' w :
  (0 <=? x)%float = true -> (x <=? x')%float = true -> ffin x' = true ->
  (0 <? w)%float = true -> ffin w = true ->
  ffin (x' * w) = true -> fval (x' * w) < 2 ^ (emax - prec + 1 - B64) ->
  (0 <=? x * w)%float = true /\ (x * w <=? x' * w)%float = true.
Proof.
  rewrite !leb_fval, ltb_fval. intros H0 H1 Fx' Hw Fw Fo Bo.
  apply andb_prop in H0 as [H0 L0]. apply andb_prop in H0 as [_ Nx].
  apply andb_prop in H1 as [_ L1]. apply andb_prop in Hw as [_ Lw].
  apply Z.leb_le in L0, L1. apply Z.ltb_lt in Lw.
  change (fval 0) with 0 in *. change (fnum 0) with true.
  pose proof (fval_fin_bounds x' Fx') as Bx'.
  assert (Fx : ffin x = true) by (apply ffin_of_bounds; [assumption|lia]).
  pose proof (Prim2SF_valid x) as Vx. pose proof (Prim2SF_valid x') as Vx'.
  pose proof (Prim2SF_valid w) as Vw. pose proof (Prim2SF_valid (x * w)) as Vo.
  unfold fnum, ffin, fval in *. rewrite !mul_spec in *. unfold SF64mul in *.
  destruct (Prim2SF w) as [sw|sw| |sw mw ew]; try discriminate; cbn [xval] in Lw.
  destruct sw; cbn [sgn] in Lw; [lia|]. clear Lw Fw.
  cbn [SpecFloat.valid_binary] in Vw.
  pose proof (G bounded_inv mw ew Vw) as Iw. cbv zeta in Iw.
  assert (HO := Omega_pos prec emax prec_pos prec_lt_emax B64 B64_le_emin).
  destruct (Prim2SF x) as [sx|sx| |sx mx ex]; try discriminate.
  - (* x is a zero *)
    cbn [SFmul xval not_nan andb].
    destruct (Prim2SF x') as [sx'|sx'| |sx' mx' ex']; try discriminate.
    + cbn [SFmul xval not_nan andb]. split; reflexivity.
    + cbn [SpecFloat.valid_binary] in Vx'.
      pose proof (G finite_val_bounds mx' ex' Vx').
      cbn [xval] in L1. destruct sx'; cbn [sgn] in L1; [lia|].
      pose proof (G bounded_inv mx' ex' Vx') as Ix'. cbv zeta in Ix'.
      destruct (SFmul_finite_spec prec emax prec_pos prec_lt_emax B64 B64_le_emin
                  false mx' ex' false mw ew) as (m & e & _ & Hm & Hbe & Hr).
      { b64_lia. }
      rewrite Hr. cbn [xorb].
      rewrite (G mk_result_not_nan) by assumption.
      split; [reflexivity|]. cbn [andb]. apply Z.leb_le.
      unfold mk_result. destruct m as [|q|q]; try lia; cbn [xval]; [lia|].
      destruct (e <=? emax - prec); cbn [xval sgn]; [|lia].
      assert (0 < 2 ^ (e - B64)) by (apply pow2_pos; lia). nia.
  - (* x is positive *)
    cbn [xval] in L0, L1. destruct sx; cbn [sgn] in L0, L1.
    { cbn [SpecFloat.valid_binary] in Vx.
      pose proof (G finite_val_bounds mx ex Vx). lia. }
    cbn [SpecFloat.valid_binary] in Vx.
    pose proof (G finite_val_bounds mx ex Vx) as Bx.
    pose proof (G bounded_inv mx ex Vx) as Ix. cbv zeta in Ix.
    destruct (Prim2SF x') as [sx'|sx'| |sx' mx' ex']; try discriminate;
      cbn [xval] in L1; [lia|].
    cbn [SpecFloat.valid_binary] in Vx'.
    pose proof (G finite_val_bounds mx' ex' Vx').
    destruct sx'; cbn [sgn] in L1; [lia|].
    pose proof (G bounded_inv mx' ex' Vx') as Ix'. cbv zeta in Ix'.
    assert (E1 : B64 <= ex + ew) by b64_lia.
    assert (E2 : B64 <= ex' + ew) by b64_lia.
    destruct (SFmul_mono_pos prec emax prec_pos prec_lt_emax B64 B64_le_emin
                mx ex mx' ex' mw ew E1 E2) as [Ff [Lo Hi]]; try assumption.
    { (* the exact products are ordered *)
      assert (Q1 : 2 ^ (ex - B64) = 2 ^ (ex - emin) * 2 ^ (emin - B64))
        by (rewrite <- pow2_split by b64_lia; f_equal; lia).
      assert (Q2 : 2 ^ (ex' - B64) = 2 ^ (ex' - emin) * 2 ^ (emin - B64))
        by (rewrite <- pow2_split by b64_lia; f_equal; lia).
      assert (Q3 : 2 ^ (ex + ew - B64) = 2 ^ (ex - emin) * 2 ^ (ew + emin - B64))
        by (rewrite <- pow2_split by b64_lia; f_equal; lia).
      assert (Q4 : 2 ^ (ex' + ew - B64) = 2 ^ (ex' - emin) * 2 ^ (ew + emin - B64))
        by (rewrite <- pow2_split by b64_lia; f_equal; lia).
      assert (0 < 2 ^ (emin - B64)) by (apply pow2_pos; b64_lia).
      assert (0 < 2 ^ (ew + emin - B64)) by (apply pow2_pos; b64_lia).
      assert (0 < 2 ^ (ex - emin)) by (apply pow2_pos; lia).
      assert (0 < 2 ^ (ex' - emin)) by (apply pow2_pos; lia).
      rewrite Q1, Q2 in L1. rewrite Q3, Q4.
      assert (Zpos mx * 2 ^ (ex - emin) <= Zpos mx' * 2 ^ (ex' - emin)).
      { rewrite !Z.mul_assoc in L1. apply Z.mul_le_mono_pos_r in L1; assumption. }
      rewrite !Z.mul_assoc. apply Z.mul_le_mono_nonneg_r; lia. }
    assert (Nf : forall f, is_fin f = true -> not_nan f = true) by (intros [| | |]; easy).
    rewrite (Nf _ Ff), (Nf _ Fo). cbn [andb].
    split; apply Z.leb_le; assumption.
Qed.

Lemma sqrt_not_neg_infinity x : Prim2SF (sqrt x) <> S754_infinity true.
Proof.
  rewrite sqrt_spec. unfold SF64sqrt, SFsqrt.
  destruct (Prim2SF x) as [s|s| |s m e]; try destruct s; try discriminate.
  destruct (SFsqrt_core_binary _ _ _ _) as [[mz ez] lz].
  unfold binary_round_aux.
  destruct (shr_fexp _ _ _ _ _) as [mrs' e'].
  destruct (shr_fexp _ _ _ _ _) as [mrs'' e''].
  destruct (shr_m mrs''); [discriminate| |discriminate].
  destruct (_ <=? _)%Z; discriminate.
Qed.

Lemma sub_fnum x y : fnum x = true -> ffin y = true -> fnum (x - y) = true.
Proof.
  intros Nx Fy. unfold fnum. rewrite sub_spec.
  apply (G SFsub_not_nan); try apply Prim2SF_valid; assumption.
Qed.

(** ** Ranges of the scoring arithmetic *)

Lemma leb_trans a b c :
  (a <=? b)%float = true -> (b <=? c)%float = true -> (a <=? c)%float = true.
Proof.
  rewrite !leb_fval. intros H1 H2.
  apply andb_prop in H1 as [H1 L1]. apply andb_prop in H1 as [Na _].
  apply andb_prop in H2 as [H2 L2]. apply andb_prop in H2 as [_ Nc].
  apply Z.leb_le in L1, L2. rewrite Na, Nc. apply Z.leb_le. lia.
Qed.

Lemma leb_refl a : fnum a = true -> (a <=? a)%float = true.
Proof. intros N. rewrite leb_fval, N. apply Z.leb_refl. Qed.

(** [Math.min] and [Math.max] of two numbers (no NaN) take the smaller and
    the larger value. *)
Lemma min2_spec a b : fnum a = true -> fnum b = true ->
  fnum (min2 a b) = true /\ fval (min2 a b) = Z.min (fval a) (fval b).
Proof.
  intros Na Nb. unfold min2. rewrite !is_nan_fnum, Na, Nb. cbn [negb orb].
  rewrite !ltb_fval, Na, Nb. cbn [andb].
  destruct (Z.ltb_spec (fval a) (fval b)); [split; [assumption|lia]|].
  destruct (Z.ltb_spec (fval b) (fval a)); [split; [assumption|lia]|].
  destruct (is_zero a); [destruct (get_sign a)|]; (split; [assumption|lia]).
Qed.

Lemma max2_spec a b : fnum a = true -> fnum b = true ->
  fnum (max2 a b) = true /\ fval (max2 a b) = Z.max (fval a) (fval b).
Proof.
  intros Na Nb. unfold max2. rewrite !is_nan_fnum, Na, Nb. cbn [negb orb].
  rewrite !ltb_fval, Na, Nb. cbn [andb].
  destruct (Z.ltb_spec (fval b) (fval a)); [split; [assumption|lia]|].
  destruct (Z.ltb_spec (fval a) (fval b)); [split; [assumption|lia]|].
  destruct (is_zero a); [destruct (get_sign a)|]; (split; [assumption|lia]).
Qed.

Lemma in_0_100_fval v : in_0_100 v = true <-> fnum v = true /\ 0 <= fval v <= fval 100%float.
Proof.
  unfold in_0_100. rewrite !leb_fval.
  change (fnum 0%float) with true. change (fnum 100%float) with true. change (fval 0%float) with 0.
  rewrite !andb_true_r. cbn [andb].
  destruct (fnum v); cbn [andb]; [|split; [discriminate|intros [? _]; discriminate]].
  rewrite andb_true_iff, !Z.leb_le. tauto.
Qed.

Lemma fval_100_pos : 0 < fval 100%float.
Proof. vm_compute. reflexivity. Qed.

Lemma isFinite_in_0_100 v : in_0_100 v = true -> isFinite v = true.
Proof.
  unfold in_0_100. intros H. apply andb_prop in H as [H1 H2].
  unfold isFinite. rewrite is_finite_ffin.
  apply (between_ffin 0%float 100%float); auto.
Qed.

Lemma sanitizeScore_range x : in_0_100 (ScoringEngine.sanitizeScore x) = true.
Proof.
  unfold ScoringEngine.sanitizeScore, isNaN, isFinite.
  destruct (is_nan x || negb (is_finite x)) eqn:E; [reflexivity|].
  apply orb_false_elim in E as [E _]. rewrite is_nan_fnum in E.
  apply negb_false_iff in E.
  unfold Math_max, Math_min. cbn [fold_left].
  change (min2 infinity 100%float) with 100%float. change (max2 neg_infinity 0%float) with 0%float.
  destruct (min2_spec 100%float x eq_refl E) as [N1 V1].
  destruct (max2_spec 0%float _ eq_refl N1) as [N2 V2].
  apply in_0_100_fval. split; [assumption|].
  rewrite V2, V1. change (fval 0%float) with 0. pose proof fval_100_pos. lia.
Qed.

(** [Math.max(0, Math.min(100, score))] clamps: the code sanitizes as
    specified. *)
Lemma sanitizeScore_clamps x : ScoringEngine.sanitizeScore x = sanitizedAsSpecified x.
Proof.
  unfold ScoringEngine.sanitizeScore, sanitizedAsSpecified, isNaN, isFinite.
  destruct (is_nan x || negb (is_finite x)) eqn:E; [reflexivity|].
  apply orb_false_elim in E as [E _]. rewrite is_nan_fnum in E.
  apply negb_false_iff in E.
  unfold Math_max, Math_min. cbn [fold_left].
  change (min2 infinity 100%float) with 100%float. change (max2 neg_infinity 0%float) with 0%float.
  pose proof fval_100_pos as P.
  rewrite !leb_fval, E.
  change (fnum 0%float) with true. change (fnum 100%float) with true.
  change (fval 0%float) with 0. cbn [andb].
  unfold min2. rewrite !is_nan_fnum, E. change (fnum 100%float) with true. cbn [negb orb].
  rewrite !ltb_fval, E. change (fnum 100%float) with true. cbn [andb].
  change (is_zero 100%float) with false. cbv iota.
  destruct (Z.ltb_spec (fval 100%float) (fval x)) as [L1|L1].
  { change (max2 0%float 100%float) with 100%float.
    destruct (Z.leb_spec (fval x) 0); [lia|].
    destruct (Z.leb_spec (fval 100%float) (fval x)); [reflexivity|lia]. }
  destruct (Z.ltb_spec (fval x) (fval 100%float)) as [L2|L2].
  2:{ change (max2 0%float 100%float) with 100%float.
      destruct (Z.leb_spec (fval x) 0); [lia|].
      destruct (Z.leb_spec (fval 100%float) (fval x)); [reflexivity|lia]. }
  unfold max2. rewrite !is_nan_fnum, E. change (fnum 0%float) with true. cbn [negb orb].
  rewrite !ltb_fval, E. change (fnum 0%float) with true. change (fval 0%float) with 0.
  cbn [andb].
  change (is_zero 0%float) with true. change (get_sign 0%float) with false. cbv iota.
  destruct (Z.ltb_spec (fval x) 0) as [L3|L3].
  { destruct (Z.leb_spec (fval x) 0); [reflexivity|lia]. }
  destruct (Z.ltb_spec 0 (fval x)) as [L4|L4].
  - destruct (Z.leb_spec (fval x) 0); [lia|].
    destruct (Z.leb_spec (fval 100%float) (fval x)); [lia|reflexivity].
  - destruct (Z.leb_spec (fval x) 0); [reflexivity|lia].
Qed.

Lemma sanitizeScore_not_finite x : isFinite x = false -> ScoringEngine.sanitizeScore x = 0%float.
Proof.
  intros H. unfold ScoringEngine.sanitizeScore. rewrite H, orb_true_r. reflexivity.
Qed.

Lemma of_Z_small n : 1 <= n <= 100 -> in_0_100 (of_Z n) = true.
Proof.
  intros Hn.
  assert (H : forallb (fun k => in_0_100 (of_Z (Z.of_nat k))) (seq 1 100) = true)
    by (vm_compute; reflexivity).
  rewrite forallb_forall in H. specialize (H (Z.to_nat n)).
  rewrite Z2Nat.id in H by lia. apply H. apply in_seq. lia.
Qed.

Lemma Prim2SF_100 : Prim2SF 100%float = S754_finite false 7036874417766400 (-46).
Proof. reflexivity. Qed.

(** Rounding to the nearest integer keeps a score inside [[0, 100]]. *)
Lemma Math_round_range x : in_0_100 x = true -> in_0_100 (Math_round x) = true.
Proof.
  intros H. unfold Math_round.
  destruct (Prim2SF x) as [s|s| |s m e] eqn:E; try assumption.
  destruct (Z.leb_spec 0 e) as [He|He]; [assumption|].
  apply in_0_100_fval in H as [_ [L0 L1]].
  pose proof (Prim2SF_valid x) as V. rewrite E in V. cbn [SpecFloat.valid_binary] in V.
  pose proof (G finite_val_bounds m e V) as Bm.
  pose proof (G bounded_inv m e V) as I. cbv zeta in I.
  unfold fval in L0, L1. rewrite E in L0, L1. rewrite Prim2SF_100 in L1. cbn [xval] in L0, L1.
  destruct s; cbn [sgn] in L0, L1; [lia|].
  assert (Hm : Zpos m <= 100 * 2 ^ (- e)).
  { assert (P1 : 0 < 2 ^ (e - B64)) by (apply pow2_pos; b64_lia).
    assert (P2 : 0 < 2 ^ (- e)) by (apply pow2_pos; lia).
    assert (Q : 7036874417766400 * 2 ^ (-46 - B64) = 100 * 2 ^ (- e) * 2 ^ (e - B64)).
    { change 7036874417766400 with (100 * 2 ^ 46).
      rewrite <- !Z.mul_assoc, <- !Z.pow_add_r by b64_lia. do 2 f_equal. lia. }
    rewrite Q in L1. apply Z.mul_le_mono_pos_r in L1; assumption. }
  assert (P2 : 0 < 2 ^ (- e)) by (apply pow2_pos; lia).
  assert (Q2 : 2 ^ (1 - e) = 2 * 2 ^ (- e)).
  { replace (1 - e) with (1 + - e) by lia. rewrite Z.pow_add_r by lia. reflexivity. }
  set (n := (2 * Z.pos m + 2 ^ (- e)) / 2 ^ (1 - e)).
  assert (Hn : 0 <= n <= 100).
  { unfold n. rewrite Q2. split.
    - apply Z.div_pos; lia.
    - apply Z.lt_succ_r. apply Z.div_lt_upper_bound; lia. }
  destruct (Z.eqb_spec n 0) as [Z0|NZ]; [reflexivity|].
  apply of_Z_small. lia.
Qed.

Lemma in_0_100_split v : in_0_100 v = true -> (0 <=? v)%float = true /\ (v <=? 100)%float = true.
Proof. unfold in_0_100. intros H. apply andb_prop in H. exact H. Qed.

(** A score times a default weight stays between zero and the weight's
    share of 100. *)
Lemma weighted_range v w :
  in_0_100 v = true ->
  (0 <? w)%float = true -> ffin w = true -> ffin (100 * w)%float = true ->
  fval (100 * w)%float < 2 ^ (emax - prec + 1 - B64) ->
  (0 <=? v * w)%float = true /\ (v * w <=? 100 * w)%float = true.
Proof.
  intros H Hw Fw Fo Bo. apply in_0_100_split in H as [H0 H1].
  apply mul_mono_nonneg; auto.
Qed.

Lemma weighted_sum_range d s c :
  in_0_100 d = true -> in_0_100 s = true -> in_0_100 c = true ->
  in_0_100 (d * 0.5 + s * 0.3 + c * 0.2)%float = true.
Proof.
  intros Hd Hs Hc.
  destruct (weighted_range d 0.5%float Hd) as [D0 D1]; try (vm_compute; reflexivity).
  destruct (weighted_range s 0.3%float Hs) as [S0 S1]; try (vm_compute; reflexivity).
  destruct (weighted_range c 0.2%float Hc) as [C0 C1]; try (vm_compute; reflexivity).
  assert (Fd : ffin (d * 0.5)%float = true)
    by (apply (between_ffin 0%float (100 * 0.5)%float); auto).
  assert (Fs : ffin (s * 0.3)%float = true)
    by (apply (between_ffin 0%float (100 * 0.3)%float); auto).
  assert (Fc : ffin (c * 0.2)%float = true)
    by (apply (between_ffin 0%float (100 * 0.2)%float); auto).
  assert (L1 : (0 <=? d * 0.5 + s * 0.3)%float = true).
  { change 0%float with (0 + 0)%float at 1. apply add_mono; auto. }
  assert (U1 : (d * 0.5 + s * 0.3 <=? 100 * 0.5 + 100 * 0.3)%float = true).
  { apply add_mono; auto. }
  assert (F1 : ffin (d * 0.5 + s * 0.3)%float = true)
    by (apply (between_ffin 0%float (100 * 0.5 + 100 * 0.3)%float); auto).
  assert (L2 : (0 <=? d * 0.5 + s * 0.3 + c * 0.2)%float = true).
  { change 0%float with (0 + 0)%float at 1. apply add_mono; auto. }
  assert (U2 : (d * 0.5 + s * 0.3 + c * 0.2 <=? 100 * 0.5 + 100 * 0.3 + 100 * 0.2)%float = true).
  { apply add_mono; auto. }
  unfold in_0_100. rewrite L2. cbn [andb].
  apply (leb_trans _ _ _ U2). reflexivity.
Qed.

Local Close Scope Z_scope.

(** ** ScoringEngine *)

(** C8: [score] sanitizes the three components into [0, 100] as
    specified: NaN and the infinities become 0, a number at or below 0
    becomes 0, a number at or above 100 becomes 100, and a number strictly
    between is kept as it is.  The reported components are the sanitized
    input scores rounded to the nearest integer and lie in [0, 100]; under
    the default weights the overall score is the rounded weighted sum
    depth * 0.5 + stability * 0.3 + consistency * 0.2 of the sanitized
    components (the sum is taken before the components are rounded), it is
    finite and lies in [0, 100].  On the scores 150, NaN and -10 the
    components are 100, 0 and 0 and the overall score is 50; on 0.6, 0 and
    0 the depth is reported as 1 and the overall score as 0. *)
Theorem score_sanitized_and_bounded (f : RepFeatures.t) :
  let d := ScoringEngine.sanitizeScore (RepFeatures.depthScore f) in
  let s := ScoringEngine.sanitizeScore (RepFeatures.stabilityScore f) in
  let c := ScoringEngine.sanitizeScore (RepFeatures.rangeScore f) in
  let r := ScoringEngine.score ScoringEngine.default f in
  ((in_0_100 d = true /\ in_0_100 s = true /\ in_0_100 c = true) /\
   (ScoringEngine.sanitizeScore nan = 0 /\ ScoringEngine.sanitizeScore infinity = 0 /\
    ScoringEngine.sanitizeScore neg_infinity = 0) /\
   (in_0_100 (RepScore.depth r) = true /\ in_0_100 (RepScore.stability r) = true /\
    in_0_100 (RepScore.consistency r) = true) /\
   RepScore.overall r = Math_round (d * 0.5 + s * 0.3 + c * 0.2) /\
   isFinite (RepScore.overall r) = true /\ in_0_100 (RepScore.overall r) = true) /\
  (forall x, ScoringEngine.sanitizeScore x = sanitizedAsSpecified x) /\
  (forall x, isFinite x = true ->
     ((x <=? 0) = true -> ScoringEngine.sanitizeScore x = 0) /\
     ((100 <=? x) = true -> ScoringEngine.sanitizeScore x = 100) /\
     ((0 <? x) = true -> (x <? 100) = true -> ScoringEngine.sanitizeScore x = x)) /\
  (let D := sanitizedAsSpecified (RepFeatures.depthScore f) in
   let S := sanitizedAsSpecified (RepFeatures.stabilityScore f) in
   let C := sanitizedAsSpecified (RepFeatures.rangeScore f) in
   RepScore.depth r = Math_round D /\
   RepScore.stability r = Math_round S /\
   RepScore.consistency r = Math_round C /\
   RepScore.overall r = Math_round (D * 0.5 + S * 0.3 + C * 0.2) /\
   RepScore.technique r = getScoreTechnique (D * 0.5 + S * 0.3 + C * 0.2)) /\
  (ScoringEngine.score ScoringEngine.default (RepFeatures.mk 0 0 0 150 nan (-10) 0 0 0 0)
   = RepScore.mk 50 100 0 0 good /\
   ScoringEngine.score ScoringEngine.default (RepFeatures.mk 0 0 0 0.6 0 0 0 0 0 0)
   = RepScore.mk 0 1 0 0 acceptable).
Proof.
  intros d s c r.
  pose proof (sanitizeScore_range (RepFeatures.depthScore f)) as Hd.
  pose proof (sanitizeScore_range (RepFeatures.stabilityScore f)) as Hs.
  pose proof (sanitizeScore_range (RepFeatures.rangeScore f)) as Hc.
  fold d in Hd. fold s in Hs. fold c in Hc.
  assert (Ho : in_0_100 (Math_round (d * 0.5 + s * 0.3 + c * 0.2)) = true)
    by (apply Math_round_range, weighted_sum_range; assumption).
  split; [|split; [|split; [|split]]].
  - split; [auto|]. split; [repeat split|].
    split; [repeat split; apply Math_round_range; assumption|].
    split; [reflexivity|].
    split; [apply isFinite_in_0_100|]; exact Ho.
  - exact sanitizeScore_clamps.
  - intros x Fx. rewrite sanitizeScore_clamps. unfold sanitizedAsSpecified.
    assert (Nx : isNaN x = false).
    { unfold isNaN. unfold isFinite, is_finite in Fx.
      destruct (is_nan x); [cbn in Fx; discriminate|reflexivity]. }
    rewrite Nx, Fx. cbn [negb orb].
    unfold isNaN in Nx. rewrite is_nan_fnum in Nx. apply negb_false_iff in Nx.
    rewrite !ltb_fval, !leb_fval, Nx.
    change (fnum 0) with true. change (fnum 100) with true. change (fval 0) with 0%Z.
    cbn [andb].
    pose proof fval_100_pos as P.
    split; [|split].
    + intros H. rewrite H. reflexivity.
    + intros H. rewrite H. apply Z.leb_le in H.
      destruct (Z.leb_spec (fval x) 0); [lia|reflexivity].
    + intros H0 H1. apply Z.ltb_lt in H0, H1.
      destruct (Z.leb_spec (fval x) 0); [lia|].
      destruct (Z.leb_spec (fval 100) (fval x)); [lia|reflexivity].
  - cbv zeta. rewrite <- !sanitizeScore_clamps. repeat split.
  - split; vm_compute; reflexivity.
Qed.

(** ** LowPassFilter *)

Section LowPassFilterFacts.
Import LowPassFilter.

Lemma cold_uninitialized f : cold f -> isInitialized f = false.
Proof.
  intros [[a Ha]|[g Hg]].
  - unfold constructor in Ha. destruct (_ || _); [discriminate|].
    injection Ha as <-. reflexivity.
  - subst f. reflexivity.
Qed.

(** C5: on a filter that was just constructed or reset, the first call of
    [filter] returns its input unchanged on all three axes, and the second
    call returns, per axis, [alpha * raw + (1 - alpha) * previous], the
    previous value being the first input. *)
Theorem filter_cold_start (f : LowPassFilter.t) (x y z x' y' z' : number) :
  cold f ->
  let first := filter f x y z in
  let second := filter (fst first) x' y' z' in
  snd first = (x, y, z) /\
  snd second = (alpha f * x' + (1 - alpha f) * x,
                alpha f * y' + (1 - alpha f) * y,
                alpha f * z' + (1 - alpha f) * z).
Proof.
  intros Hc first second. apply cold_uninitialized in Hc.
  assert (E : first = (mk (alpha f) x y z true, (x, y, z))).
  { subst first. unfold filter. rewrite Hc. reflexivity. }
  subst second. rewrite E. cbn [fst snd]. split; reflexivity.
Qed.

(** The cold-start law on a filter that was reset after use. *)
Lemma filter_cold_start_witness :
  cold (reset (mk 0.22 0.5 0.5 0.5 true)) /\
  snd (filter (reset (mk 0.22 0.5 0.5 0.5 true)) 1 2 3) = (1, 2, 3) /\
  snd (filter (fst (filter (reset (mk 0.22 0.5 0.5 0.5 true)) 1 2 3)) 0 0 0)
  = (0.22 * 0 + (1 - 0.22) * 1, 0.22 * 0 + (1 - 0.22) * 2, 0.22 * 0 + (1 - 0.22) * 3).
Proof.
  assert (H : cold (reset (mk 0.22 0.5 0.5 0.5 true))) by (right; eexists; reflexivity).
  split; [exact H|].
  exact (filter_cold_start (reset (mk 0.22 0.5 0.5 0.5 true)) 1 2 3 0 0 0 H).
Defined.

(** C6, as stated, fails at the ends of the interval: 0 and 1 are not in the
    open interval (0, 1), yet the constructor and [setAlpha] accept both. *)
Lemma alpha_boundary_accepted :
  inOpenUnit 0 = false /\ inOpenUnit 1 = false /\
  LowPassFilter.constructor 0 = Normal (LowPassFilter.mk 0 0 0 0 false) /\
  LowPassFilter.constructor 1 = Normal (LowPassFilter.mk 1 0 0 0 false) /\
  LowPassFilter.setAlpha (LowPassFilter.mk 0.22 0 0 0 false) 1
  = Normal (LowPassFilter.mk 1 0 0 0 false).
Proof. repeat split. Qed.

Lemma leb_not_ltb a b : (a <=? b) = true -> (b <? a) = false.
Proof.
  rewrite leb_fval, ltb_fval. intros H. apply andb_prop in H as [H L].
  apply andb_prop in H as [Na Nb]. rewrite Na, Nb. apply Z.leb_le in L.
  apply Z.ltb_ge. exact L.
Qed.

(** C6, amended to the closed interval: the constructor and [setAlpha] throw
    for every alpha below 0 or above 1, and succeed, storing alpha, for
    every alpha with 0 <= alpha <= 1. *)
Theorem alpha_guard (a : number) (f : LowPassFilter.t) :
  ((a <? 0) = true \/ gt a 1 = true ->
   LowPassFilter.constructor a = Throw LowPassFilter.alpha_error /\
   LowPassFilter.setAlpha f a = Throw LowPassFilter.alpha_error) /\
  ((0 <=? a) = true /\ (a <=? 1) = true ->
   LowPassFilter.constructor a = Normal (LowPassFilter.mk a 0 0 0 false) /\
   LowPassFilter.setAlpha f a
   = Normal (LowPassFilter.mk a (LowPassFilter.previousX f) (LowPassFilter.previousY f)
               (LowPassFilter.previousZ f) (LowPassFilter.isInitialized f))).
Proof.
  unfold LowPassFilter.constructor, LowPassFilter.setAlpha. split.
  - intros [H|H]; rewrite H, ?orb_true_r; split; reflexivity.
  - intros [H0 H1]. unfold gt.
    rewrite (leb_not_ltb _ _ H0), (leb_not_ltb _ _ H1). split; reflexivity.
Qed.

(** The guard at 2 (rejected) and at the default 0.22 (accepted). *)
Lemma alpha_guard_witness :
  LowPassFilter.constructor 2 = Throw LowPassFilter.alpha_error /\
  LowPassFilter.constructor 0.22 = Normal (LowPassFilter.mk 0.22 0 0 0 false).
Proof.
  split.
  - exact (proj1 (proj1 (alpha_guard 2 (LowPassFilter.mk 0.22 0 0 0 false)) (or_intror eq_refl))).
  - exact (proj1 (proj2 (alpha_guard 0.22 (LowPassFilter.mk 0.22 0 0 0 false))
                    (conj eq_refl eq_refl))).
Defined.

End LowPassFilterFacts.

(** ** SquatDetector *)

Section SquatDetectorFacts.
Import RepDetector SquatDetector.

Lemma validateRep_checks cfg s rep :
  fst (validateRep cfg s rep) =
  checkDepth cfg rep && checkZAxisChange cfg rep && checkDuration cfg s rep
  && checkStability cfg rep && checkDepthScore cfg rep.
Proof.
  unfold validateRep.
  destruct (checkDepth cfg rep), (checkZAxisChange cfg rep), (checkDuration cfg s rep),
    (checkStability cfg rep), (checkDepthScore cfg rep); reflexivity.
Qed.

Lemma updatePeakMagnitude_fields s m :
  let s' := updatePeakMagnitude s m in
  currentPhase s' = currentPhase s /\ repCount s' = repCount s /\
  repStartTime s' = repStartTime s /\ descendStartTime s' = descendStartTime s /\
  bottomTime s' = bottomTime s /\ ascendStartTime s' = ascendStartTime s /\
  valleyMagnitude s' = valleyMagnitude s /\ peakZValue s' = peakZValue s /\
  valleyZValue s' = valleyZValue s.
Proof. unfold updatePeakMagnitude. destruct (gt m _); cbn; repeat split. Qed.

Lemma track_ascending s data : currentPhase s = ascending ->
  track s data = updatePeakMagnitude s (ProcessedSensorData.filteredMagnitude data).
Proof.
  intros H. unfold track.
  destruct (updatePeakMagnitude_fields s (ProcessedSensorData.filteredMagnitude data)) as [E _].
  cbv zeta in E. cbv zeta. rewrite E, H. cbv iota. rewrite E, H. reflexivity.
Qed.

Lemma sameTiming_refl s : sameTiming s s.
Proof. repeat split. Qed.

Lemma sameTiming_trans s1 s2 s3 : sameTiming s1 s2 -> sameTiming s2 s3 -> sameTiming s1 s3.
Proof.
  unfold sameTiming. intros (A1 & A2 & A3 & A4 & A5 & A6) (B1 & B2 & B3 & B4 & B5 & B6).
  repeat split; congruence.
Qed.

Lemma sameTiming_updatePeak s m : sameTiming s (updatePeakMagnitude s m).
Proof. unfold updatePeakMagnitude. destruct (gt m _); repeat split. Qed.

Lemma sameTiming_updateValley s m : sameTiming s (updateValleyMagnitude s m).
Proof. unfold updateValleyMagnitude. destruct (m <? _); repeat split. Qed.

Lemma sameTiming_updateZ s z : sameTiming s (updateZAxisTracking s z).
Proof.
  unfold updateZAxisTracking. destruct (gt z _); cbn; destruct (z <? _); repeat split.
Qed.

Lemma track_fields s data : sameTiming s (track s data).
Proof.
  unfold track. cbv zeta.
  pose proof (sameTiming_updatePeak s (ProcessedSensorData.filteredMagnitude data)) as H1.
  set (s1 := updatePeakMagnitude s _) in *.
  assert (H2 : sameTiming s1 (match currentPhase s1 with
                        | descending | bottom =>
                            updateZAxisTracking
                              (updateValleyMagnitude s1 (ProcessedSensorData.filteredMagnitude data))
                              (ProcessedSensorData.filteredZ data)
                        | _ => s1 end)).
  { destruct (currentPhase s1); try apply sameTiming_refl;
      (eapply sameTiming_trans; [apply sameTiming_updateValley|apply sameTiming_updateZ]). }
  set (s2 := match currentPhase s1 with descending | bottom => _ | _ => s1 end) in *.
  apply (sameTiming_trans _ s1); [assumption|].
  apply (sameTiming_trans _ s2); [assumption|].
  destruct (currentPhase s2); try apply sameTiming_refl. apply sameTiming_updateZ.
Qed.

Lemma resetRepState_idle s : resetRepState (transitionToPhase s idle) = idleState (repCount s).
Proof. reflexivity. Qed.

(** C1: on every sample that makes the detector take the
    ascending -> completed transition while one of the five validation
    checks fails, [detect] returns no repetition, the counter keeps its
    value, and the phase and the whole tracking state are back to idle. *)
Theorem rejected_rep_resets (d : SquatDetector.t) (data : ProcessedSensorData.t) :
  takesCompletion d data = true -> allChecks d data = false ->
  detect d data = (SquatDetector.mk (idleState (getRepCount d)) (config d), None).
Proof.
  unfold takesCompletion, allChecks, candidateRep, getRepCount.
  destruct (currentPhase (base d)) eqn:Hph; try discriminate.
  intros Ht Hc. apply andb_prop in Ht as [Hto Hrec]. apply negb_true_iff in Hto.
  unfold detect.
  destruct (track_fields (base d) data) as (Eph & Ecnt & _ & _ & _ & Easc).
  pose proof (track_ascending (base d) data Hph) as Etr.
  destruct (updatePeakMagnitude_fields (base d) (ProcessedSensorData.filteredMagnitude data))
    as (_ & _ & _ & _ & _ & _ & Eval & _). cbv zeta in Eval. rewrite <- Etr in Eval.
  rewrite Eph, Hph. unfold handleAscendingPhase.
  rewrite Easc, Hto, Eval, Hrec.
  rewrite <- validateRep_checks in Hc.
  destruct (validateRep _ _ _) as [ok rep']. cbn [fst] in Hc. subst ok.
  rewrite resetRepState_idle, Ecnt. reflexivity.
Qed.

(** The example squat is rejected under [strictConfig] on its completing
    sample. *)
Lemma rejected_rep_resets_witness :
  takesCompletion (snd (afterSquat strictConfig)) (completingData strictConfig) = true /\
  allChecks (snd (afterSquat strictConfig)) (completingData strictConfig) = false /\
  detect (snd (afterSquat strictConfig)) (completingData strictConfig)
  = (SquatDetector.mk (idleState (getRepCount (snd (afterSquat strictConfig)))) strictConfig, None).
Proof.
  assert (H1 : takesCompletion (snd (afterSquat strictConfig)) (completingData strictConfig) = true)
    by (vm_compute; reflexivity).
  assert (H2 : allChecks (snd (afterSquat strictConfig)) (completingData strictConfig) = false)
    by (vm_compute; reflexivity).
  split; [exact H1|split; [exact H2|]].
  exact (rejected_rep_resets (snd (afterSquat strictConfig)) (completingData strictConfig) H1 H2).
Defined.

(** C7: a sample whose timestamp is more than [PHASE_TIMEOUT] (5000 ms) after
    the entry into the descending, respectively ascending, phase makes
    [detect] abandon the repetition: it returns no repetition and the
    detector is idle again with its tracking state reset and its counter
    unchanged. *)
Theorem phase_timeout_resets (d : SquatDetector.t) (data : ProcessedSensorData.t) :
  (currentPhase (base d) = descending /\
   gt (ProcessedSensorData.timestamp data - descendStartTime (base d)) PHASE_TIMEOUT = true) \/
  (currentPhase (base d) = ascending /\
   gt (ProcessedSensorData.timestamp data - ascendStartTime (base d)) PHASE_TIMEOUT = true) ->
  detect d data = (SquatDetector.mk (idleState (getRepCount d)) (config d), None).
Proof.
  intros H. unfold detect, getRepCount.
  destruct (track_fields (base d) data) as (Eph & Ecnt & _ & Edesc & _ & Easc).
  rewrite Eph.
  destruct H as [[Hph Ht]|[Hph Ht]]; rewrite Hph.
  - unfold handleDescendingPhase. rewrite Edesc, Ht, resetRepState_idle, Ecnt. reflexivity.
  - unfold handleAscendingPhase. rewrite Easc, Ht, resetRepState_idle, Ecnt. reflexivity.
Qed.

(** A descent that is still open 5.8 s after it began. *)
Lemma phase_timeout_resets_witness :
  currentPhase (base (snd midDescent)) = descending /\
  gt (ProcessedSensorData.timestamp lateData - descendStartTime (base (snd midDescent)))
     PHASE_TIMEOUT = true /\
  detect (snd midDescent) lateData
  = (SquatDetector.mk (idleState (getRepCount (snd midDescent))) DEFAULT_SQUAT_CONFIG, None).
Proof.
  assert (H1 : currentPhase (base (snd midDescent)) = descending) by (vm_compute; reflexivity).
  assert (H2 : gt (ProcessedSensorData.timestamp lateData - descendStartTime (base (snd midDescent)))
                 PHASE_TIMEOUT = true) by (vm_compute; reflexivity).
  split; [exact H1|split; [exact H2|]].
  exact (phase_timeout_resets (snd midDescent) lateData (or_introl (conj H1 H2))).
Defined.

(** Every call of [detect] leaves the counter alone or, when it emits a
    repetition, increments it and numbers the repetition with the new
    value. *)
Lemma detect_counts d data :
  match snd (detect d data) with
  | Some rep =>
      DetectedRep.repNumber rep = S (getRepCount d) /\ DetectedRep.isValid rep = true /\
      getRepCount (fst (detect d data)) = S (getRepCount d)
  | None => getRepCount (fst (detect d data)) = getRepCount d
  end.
Proof.
  unfold detect, getRepCount.
  destruct (track_fields (base d) data) as (Eph & Ecnt & _).
  set (s := track (base d) data) in *. rewrite Eph.
  destruct (currentPhase (base d)); cbn [fst snd].
  - unfold handleIdlePhase. destruct (gt _ _); cbn [fst snd base]; [|assumption].
    unfold updatePeakMagnitude. destruct (gt _ _); cbn; assumption.
  - unfold handleDescendingPhase. destruct (gt _ _); cbn [fst snd base]; [cbn; assumption|].
    destruct (gt _ _); cbn; assumption.
  - cbn. assumption.
  - unfold handleAscendingPhase. destruct (gt _ _); cbn [fst snd base]; [cbn; assumption|].
    destruct (ge _ _); cbn [fst snd base]; [|assumption].
    unfold validateRep.
    repeat (match goal with |- context [if negb ?b then _ else _] => destruct b; cbn [negb] end);
      cbn; auto.
  - cbn. assumption.
Qed.

Lemma feed_numbers d samples :
  map DetectedRep.repNumber (snd (feed d samples))
  = seq (S (getRepCount d)) (length (snd (feed d samples)))
  /\ Forall (fun rep => DetectedRep.isValid rep = true) (snd (feed d samples))
  /\ getRepCount (fst (feed d samples)) = (getRepCount d + length (snd (feed d samples)))%nat.
Proof.
  revert d. induction samples as [|data rest IH]; intros d.
  - cbn. repeat split; [constructor|lia].
  - cbn [feed]. pose proof (detect_counts d data) as Hd.
    destruct (detect d data) as [d1 result]. cbn [fst snd] in Hd.
    specialize (IH d1). destruct (feed d1 rest) as [d2 reps]. cbn [fst snd] in *.
    destruct IH as (IH1 & IH2 & IH3).
    destruct result as [rep|].
    + destruct Hd as (Hn & Hv & Hc). cbn [map length seq]. rewrite Hc in IH1, IH3.
      repeat split; [rewrite Hn, IH1; reflexivity|constructor; assumption|lia].
    + rewrite Hd in IH1, IH3. repeat split; assumption.
Qed.

(** C2: the repetitions emitted while a sequence of samples is fed to a
    detector are all valid and carry consecutive numbers that continue the
    counter; the counter ends at its initial value plus the number of
    repetitions emitted.  A constructed or reset detector counts from 0, so
    a session of N accepted repetitions numbers them 1, 2, ..., N. *)
Theorem rep_numbers_consecutive (d : SquatDetector.t) (cfg : SquatDetectionConfig.t)
  (samples : list ProcessedSensorData.t) :
  let numbers (start : SquatDetector.t) := map DetectedRep.repNumber (snd (feed start samples)) in
  let emitted (start : SquatDetector.t) := length (snd (feed start samples)) in
  (numbers d = seq (S (getRepCount d)) (emitted d) /\
   Forall (fun rep => DetectedRep.isValid rep = true) (snd (feed d samples)) /\
   getRepCount (fst (feed d samples)) = (getRepCount d + emitted d)%nat) /\
  (getRepCount (SquatDetector.constructor cfg) = 0%nat /\
   numbers (SquatDetector.constructor cfg) = seq 1 (emitted (SquatDetector.constructor cfg))) /\
  (getRepCount (SquatDetector.reset d) = 0%nat /\
   numbers (SquatDetector.reset d) = seq 1 (emitted (SquatDetector.reset d))).
Proof.
  intros numbers emitted. subst numbers emitted. cbv beta.
  split; [exact (feed_numbers d samples)|].
  split; (split; [reflexivity|]).
  - exact (proj1 (feed_numbers (SquatDetector.constructor cfg) samples)).
  - exact (proj1 (feed_numbers (SquatDetector.reset d) samples)).
Qed.

Lemma processed_magnitudeLike sp raw :
  magnitudeLike (ProcessedSensorData.filteredMagnitude (snd (SignalProcessor.process sp raw))).
Proof.
  unfold SignalProcessor.process.
  destruct (LowPassFilter.filter _ _ _ _) as [f [[fx fy] fz]]. cbn [snd ProcessedSensorData.filteredMagnitude].
  apply sqrt_not_neg_infinity.
Qed.

Lemma gt_fnum a b : gt a b = true -> fnum a = true.
Proof.
  unfold gt. rewrite ltb_fval. intros H. apply andb_prop in H as [H _].
  apply andb_prop in H as [_ H]. exact H.
Qed.

Lemma tracked_idleState n : tracked (idleState n).
Proof. split; [reflexivity|]. unfold magnitudeLike. cbn. discriminate. Qed.

Lemma tracked_updatePeak s m : tracked s -> tracked (updatePeakMagnitude s m).
Proof.
  intros [Hp Hv]. unfold updatePeakMagnitude. destruct (gt m _) eqn:E; [|split; assumption].
  split; [exact (gt_fnum _ _ E)|exact Hv].
Qed.

Lemma tracked_updateValley s m : magnitudeLike m -> tracked s -> tracked (updateValleyMagnitude s m).
Proof.
  intros Hm [Hp Hv]. unfold updateValleyMagnitude. destruct (m <? _); split; assumption.
Qed.

Lemma tracked_updateZ s z : tracked s -> tracked (updateZAxisTracking s z).
Proof.
  intros [Hp Hv]. unfold updateZAxisTracking.
  destruct (gt z _); cbn; destruct (z <? _); cbn; split; assumption.
Qed.

Lemma tracked_track s data :
  magnitudeLike (ProcessedSensorData.filteredMagnitude data) -> tracked s -> tracked (track s data).
Proof.
  intros Hm Hs. unfold track.
  pose proof (tracked_updatePeak s (ProcessedSensorData.filteredMagnitude data) Hs) as H1.
  set (s1 := updatePeakMagnitude s _) in *.
  assert (H2 : tracked (match currentPhase s1 with
                        | descending | bottom =>
                            updateZAxisTracking
                              (updateValleyMagnitude s1 (ProcessedSensorData.filteredMagnitude data))
                              (ProcessedSensorData.filteredZ data)
                        | _ => s1 end)).
  { destruct (currentPhase s1); try assumption;
      apply tracked_updateZ, tracked_updateValley; assumption. }
  cbv zeta. set (s2 := match currentPhase s1 with descending | bottom => _ | _ => s1 end) in *.
  destruct (currentPhase s2); try assumption. apply tracked_updateZ; assumption.
Qed.

Lemma tracked_fields_only s s' :
  peakMagnitude s' = peakMagnitude s -> valleyMagnitude s' = valleyMagnitude s ->
  tracked s -> tracked s'.
Proof. intros E1 E2 [Hp Hv]. unfold tracked. rewrite E1, E2. split; assumption. Qed.

Lemma tracked_detect d data :
  magnitudeLike (ProcessedSensorData.filteredMagnitude data) ->
  tracked (base d) -> tracked (base (fst (detect d data))).
Proof.
  intros Hm Hs. unfold detect.
  pose proof (tracked_track (base d) data Hm Hs) as Ht.
  set (s := track (base d) data) in *.
  destruct (currentPhase s).
  - unfold handleIdlePhase. destruct (gt _ _); cbn [fst base]; [|assumption].
    apply (tracked_fields_only
             (updatePeakMagnitude (setStartTimes (resetRepState s) (ProcessedSensorData.timestamp data))
                (ProcessedSensorData.filteredMagnitude data))); try reflexivity.
    apply tracked_updatePeak. split; [reflexivity|]. unfold magnitudeLike. cbn. discriminate.
  - unfold handleDescendingPhase. destruct (gt _ _); cbn [fst base].
    + apply tracked_idleState.
    + destruct (gt _ _); cbn [fst base]; [|assumption].
      apply (tracked_fields_only s); try reflexivity. assumption.
  - cbn [handleBottomPhase fst base]. apply (tracked_fields_only s); try reflexivity. assumption.
  - unfold handleAscendingPhase. destruct (gt _ _); cbn [fst base]; [apply tracked_idleState|].
    destruct (ge _ _); cbn [fst base]; [|assumption].
    destruct (validateRep _ _ _) as [[|] rep']; cbn [fst base]; apply tracked_idleState.
  - cbn [fst base]. apply (tracked_fields_only s); try reflexivity. assumption.
Qed.

Lemma reachable_tracked d : reachable d -> tracked (base d).
Proof.
  induction 1 as [cfg|d sp raw _ IH|d _ IH|d p _ IH].
  - apply (tracked_idleState 0).
  - apply tracked_detect; [apply processed_magnitudeLike|assumption].
  - apply (tracked_idleState 0).
  - exact IH.
Qed.

Lemma reachable_pipeline sp d raws : reachable d -> reachable (snd (pipeline sp d raws)).
Proof.
  revert sp d. induction raws as [|raw rest IH]; intros sp d Hd; [exact Hd|].
  cbn [pipeline]. pose proof (reach_detect d sp raw Hd) as H1.
  destruct (SignalProcessor.process sp raw) as [sp1 data]. cbn [snd] in H1.
  apply IH. exact H1.
Qed.

(** The arithmetic core: once the peak has absorbed the current sample, a
    recovery of at least the threshold makes the depth at least the
    threshold too. *)
Lemma depth_of_recovery (peak cur valley thr : number) :
  fnum peak = true -> magnitudeLike valley ->
  ge (cur - valley) thr = true ->
  let depth :=
    if negb (isFinite valley) then 0 else (if gt cur peak then cur else peak) - valley in
  ge depth thr = true /\ (depth <? thr) = false.
Proof.
  intros Hp Hv Hrec. unfold ge in Hrec. rewrite leb_fval in Hrec.
  apply andb_prop in Hrec as [Hrec L]. apply andb_prop in Hrec as [Nt Nr]. apply Z.leb_le in L.
  unfold isFinite. rewrite is_finite_ffin.
  assert (Nc : fnum cur = true).
  { unfold fnum in *. rewrite sub_spec in Nr. destruct (Prim2SF cur); try discriminate; reflexivity. }
  destruct (ffin valley) eqn:Fv; cbn [negb]; cbv zeta.
  - (* finite valley: monotonicity of the subtraction *)
    match goal with |- context [(?p - valley)%float] => remember p as peak' eqn:Epk end.
    assert (Np' : fnum peak' = true) by (rewrite Epk; destruct (gt cur peak); assumption).
    pose proof (sub_fnum peak' valley Np' Fv) as Np.
    assert (Hle : (cur <=? peak') = true).
    { rewrite Epk. unfold gt. rewrite ltb_fval, Hp, Nc. cbn [andb].
      destruct (Z.ltb_spec (fval peak) (fval cur)).
      - apply leb_refl; assumption.
      - rewrite leb_fval, Hp, Nc. apply Z.leb_le. assumption. }
    pose proof (sub_mono_l cur peak' valley Hle Nr Np) as M.
    rewrite leb_fval in M. apply andb_prop in M as [_ M]. apply Z.leb_le in M.
    unfold ge. rewrite leb_fval, ltb_fval, Np, Nt. cbn [andb].
    split; [apply Z.leb_le|apply Z.ltb_ge]; lia.
  - (* the valley still holds its sentinel +Infinity *)
    assert (E : fval (cur - valley) = (- Omega emax B64)%Z).
    { unfold fval, fnum, ffin, magnitudeLike in *. rewrite sub_spec in *.
      destruct (Prim2SF valley) as [sv|[|]| |sv mv ev]; try discriminate; try congruence;
        destruct (Prim2SF cur) as [sc|[|]| |sc mc ec]; try discriminate; reflexivity. }
    pose proof (G Omega_pos).
    unfold ge. rewrite leb_fval, ltb_fval, Nt.
    change (fnum 0) with true. change (fval 0) with 0%Z. cbn [andb].
    split; [apply Z.leb_le|apply Z.ltb_ge]; lia.
Qed.

(** C10: in a detector fed by the signal processor, whenever a sample takes
    the ascending -> completed transition the depth of the candidate
    repetition is at least [minDepthThreshold]: the depth check of
    [validateRep] passes. *)
Theorem depth_check_passes_on_completion (d : SquatDetector.t) (sp : SignalProcessor.t)
  (raw : AccelerometerData.t) :
  reachable d ->
  let data := snd (SignalProcessor.process sp raw) in
  takesCompletion d data = true ->
  ge (DetectedRep.depth (candidateRep d data)) (SquatDetectionConfig.minDepthThreshold (config d))
  = true /\
  checkDepth (config d) (candidateRep d data) = true.
Proof.
  intros Hr data Ht. apply reachable_tracked in Hr as [Hp Hv].
  unfold takesCompletion in Ht.
  destruct (currentPhase (base d)) eqn:Hph; try discriminate.
  apply andb_prop in Ht as [_ Hrec].
  unfold checkDepth, candidateRep, createDetectedRep, calculateMagnitudeChange.
  cbn [DetectedRep.depth]. rewrite track_ascending by assumption.
  destruct (updatePeakMagnitude_fields (base d) (ProcessedSensorData.filteredMagnitude data))
    as (_ & _ & _ & _ & _ & _ & Eval & _). cbv zeta in Eval. rewrite Eval.
  pose proof (depth_of_recovery (peakMagnitude (base d)) (ProcessedSensorData.filteredMagnitude data)
                (valleyMagnitude (base d)) (SquatDetectionConfig.minDepthThreshold (config d))
                Hp Hv Hrec) as H.
  cbv zeta in H.
  unfold updatePeakMagnitude.
  destruct (gt (ProcessedSensorData.filteredMagnitude data) (peakMagnitude (base d)));
    cbn [peakMagnitude valleyMagnitude] in *; destruct H as [H1 H2];
      (split; [exact H1|apply negb_true_iff; exact H2]).
Qed.

(** The completing sample of the example squat. *)
Lemma depth_check_passes_on_completion_witness :
  reachable (snd (afterSquat DEFAULT_SQUAT_CONFIG)) /\
  takesCompletion (snd (afterSquat DEFAULT_SQUAT_CONFIG)) (completingData DEFAULT_SQUAT_CONFIG) = true /\
  ge (DetectedRep.depth (candidateRep (snd (afterSquat DEFAULT_SQUAT_CONFIG))
                           (completingData DEFAULT_SQUAT_CONFIG)))
     (SquatDetectionConfig.minDepthThreshold DEFAULT_SQUAT_CONFIG) = true /\
  checkDepth DEFAULT_SQUAT_CONFIG
    (candidateRep (snd (afterSquat DEFAULT_SQUAT_CONFIG)) (completingData DEFAULT_SQUAT_CONFIG)) = true.
Proof.
  assert (H1 : reachable (snd (afterSquat DEFAULT_SQUAT_CONFIG)))
    by (apply reachable_pipeline, reach_new).
  assert (H2 : takesCompletion (snd (afterSquat DEFAULT_SQUAT_CONFIG))
                 (completingData DEFAULT_SQUAT_CONFIG) = true) by (vm_compute; reflexivity).
  split; [exact H1|split; [exact H2|]].
  exact (depth_check_passes_on_completion (snd (afterSquat DEFAULT_SQUAT_CONFIG))
           (fst (afterSquat DEFAULT_SQUAT_CONFIG)) completingSample H1 H2).
Defined.

End SquatDetectorFacts.

(** ** PeakDetector *)

Section PeakDetectorFacts.
Import PeakDetector.

(** C9: the window to the right of an extremum never holds more than 9
    samples, where the window to the left holds up to 10.  On
    [spikeSignal] the tenth right-hand neighbour of the peak is therefore
    ignored: the code computes prominence 5 where windows of 10 samples on
    each side give 7, so [findPeaks] reports the peak with prominence 5 and
    drops it under a required prominence of 6.  Inputs of fewer than three
    samples yield no extremum. *)
Theorem right_window_has_nine_samples :
  (forall (signal : list number) (index : nat),
     length (slice signal (index + 1) (Nat.min (length signal) (index + windowSize))) <= 9 /\
     length (slice signal (Nat.max 0 (index - windowSize)) index) <= 10)%nat /\
  length (slice spikeSignal (Nat.max 0 (11 - windowSize)) 11) = 10%nat /\
  calculateProminence spikeSignal 1 false = 5 /\
  prominenceAsSpecified spikeSignal 1 = 7 /\
  findPeaks (constructor (mkConfig 0 1)) spikeData true = Normal [Peak.mk 9 1 1 5] /\
  findPeaks (constructor (mkConfig 6 1)) spikeData true = Normal [] /\
  (forall (pd : PeakDetector.t) (data : list ProcessedSensorData.t) (useFiltered : bool),
     (length data < 3)%nat ->
     findPeaks pd data useFiltered = Normal [] /\ findValleys pd data useFiltered = Normal []).
Proof.
  split; [|split; [|split; [|split; [|split; [|split]]]]]; try reflexivity.
  - intros signal index. unfold slice. rewrite !length_firstn. unfold windowSize. lia.
  - intros pd data useFiltered H. apply Nat.ltb_lt in H.
    unfold findPeaks, findValleys. rewrite H. split; reflexivity.
Qed.

End PeakDetectorFacts.

(** ** MotionEngine *)

Section MotionEngineFacts.
Import MotionEngine.

(** C3: a failure of the scoring stage is not counted.  The engine has one
    error on its counter; the next sample completes a valid repetition and
    the scorer throws.  The sample is abandoned without a callback, and the
    counter is back to 0 instead of 2. *)
Theorem scoring_failure_clears_error_count :
  let before := deliver faultyStages quietCallbacks (runningEngine quietCallbacks)
                  (squatSamples ++ [corruptSample]) in
  let completed :=
    detect production (detector before)
      (snd (SignalProcessor.process (signalProcessor before) completingSample)) in
  let after := fst (handleSensorData faultyStages quietCallbacks before completingSample) in
  state before = MotionEngineState.active /\
  consecutivePipelineErrors before = 1%nat /\
  (exists rep, snd completed = Normal (Some rep) /\ DetectedRep.isValid rep = true) /\
  state after = MotionEngineState.active /\
  calls after = calls before /\
  consecutivePipelineErrors after = 0%nat.
Proof.
  vm_compute. repeat split. eexists. split; reflexivity.
Qed.

(** A throwing processor or detector is counted once and ends the sample
    without a callback. *)
Lemma stage_failure_counted stages cbs e raw :
  state e = MotionEngineState.active ->
  (consecutivePipelineErrors e < MAX_CONSECUTIVE_ERRORS)%nat ->
  (forall p, snd (process stages (signalProcessor e) raw) = Normal p ->
     exists err, snd (detect stages (detector e) p) = Throw err) ->
  consecutivePipelineErrors (fst (handleSensorData stages cbs e raw))
  = S (consecutivePipelineErrors e) /\
  snd (handleSensorData stages cbs e raw) = Normal tt /\
  calls (fst (handleSensorData stages cbs e raw)) = calls e.
Proof.
  intros Hs Hn Hfail. unfold handleSensorData. rewrite Hs. cbn [MotionEngineState.eqb negb].
  destruct (Nat.leb_spec MAX_CONSECUTIVE_ERRORS (consecutivePipelineErrors e)); [lia|].
  destruct (process stages (signalProcessor e) raw) as [sp [p|err]]; cbn [fst snd] in *.
  - destruct (Hfail p eq_refl) as [err Herr].
    cbn [addToRecentData with_recentData with_signalProcessor detector].
    destruct (detect stages (detector e) p) as [det r]. cbn [snd] in Herr. subst r.
    cbn. repeat split.
  - cbn. repeat split.
Qed.

(** A throwing scorer, in contrast, leaves no trace on the counter: whatever
    it held before the sample, it is 0 afterwards. *)
Lemma scoring_failure_not_counted stages cbs e raw sp p det rep err :
  state e = MotionEngineState.active ->
  (consecutivePipelineErrors e < MAX_CONSECUTIVE_ERRORS)%nat ->
  process stages (signalProcessor e) raw = (sp, Normal p) ->
  detect stages (detector e) p = (det, Normal (Some rep)) ->
  DetectedRep.isValid rep = true ->
  score stages (scorer e) (DetectedRep.features rep) = Throw err ->
  consecutivePipelineErrors (fst (handleSensorData stages cbs e raw)) = 0%nat /\
  snd (handleSensorData stages cbs e raw) = Normal tt /\
  calls (fst (handleSensorData stages cbs e raw)) = calls e.
Proof.
  intros Hs Hn Hp Hd Hv Hsc. unfold handleSensorData. rewrite Hs. cbn [MotionEngineState.eqb negb].
  destruct (Nat.leb_spec MAX_CONSECUTIVE_ERRORS (consecutivePipelineErrors e)); [lia|].
  rewrite Hp. cbn [addToRecentData with_recentData with_signalProcessor detector].
  rewrite Hd, Hv. unfold scoreAndNotify. cbn. rewrite Hsc. cbn.
  repeat split.
Qed.

(** C4: the one error of the circuit breaker is lost when the state listener
    throws.  The engine has used up its error budget; on the next sample the
    breaker stops it and releases the adapter, [stop] tells the state
    listener, the listener throws, and the exception leaves
    [handleSensorData] before the error callback is reached: the engine
    ends stopped, the exception reaches the accelerometer listener, and no
    error has been reported, then or on any later sample. *)
Lemma breaker_error_skipped_when_listener_throws :
  let e := exhaustedEngine listenerFailsOnStop in
  let r := handleSensorData brokenProcessor listenerFailsOnStop e (reading 1 0) in
  let e' := fst r in
  (state e = MotionEngineState.active /\
   consecutivePipelineErrors e = MAX_CONSECUTIVE_ERRORS /\
   state e' = MotionEngineState.stopped /\
   errorCalls (calls e') = []) /\
  SensorAdapter.isRunning (sensorAdapter e') = false /\
  snd r = Throw (mkError "state listener failed") /\
  calls e' = calls e ++ [StateChange MotionEngineState.stopped] /\
  errorCalls (calls (deliver brokenProcessor listenerFailsOnStop e' squatSamples)) = [].
Proof. vm_compute. repeat split. Qed.

Lemma deliver_stopped stages cbs e samples :
  state e = MotionEngineState.stopped -> deliver stages cbs e samples = e.
Proof.
  intros Hs. unfold deliver. induction samples as [|raw rest IH]; [reflexivity|].
  cbn [fold_left].
  assert (E : fst (handleSensorData stages cbs e raw) = e).
  { unfold handleSensorData. rewrite Hs. reflexivity. }
  rewrite E. exact IH.
Qed.

Lemma errorCalls_app l1 l2 : errorCalls (l1 ++ l2) = errorCalls l1 ++ errorCalls l2.
Proof. unfold errorCalls. apply flat_map_app. Qed.

(** The circuit breaker in general: on the sample that finds the counter
    at the limit, the engine stops and its adapter is released; the error
    callback is invoked exactly once with the breaker's message provided
    the state listener returns, and at most once otherwise; samples
    delivered afterwards change nothing, so no further callback of any kind
    is invoked. *)
Theorem circuit_breaker_stops_once stages cbs e raw later :
  state e = MotionEngineState.active ->
  (MAX_CONSECUTIVE_ERRORS <= consecutivePipelineErrors e)%nat ->
  let e' := fst (handleSensorData stages cbs e raw) in
  state e' = MotionEngineState.stopped /\
  SensorAdapter.isRunning (sensorAdapter e') = false /\
  (onStateChange cbs MotionEngineState.stopped = Normal tt ->
   errorCalls (calls e') = errorCalls (calls e) ++ [breaker_error]) /\
  (length (errorCalls (calls e')) <= S (length (errorCalls (calls e))))%nat /\
  deliver stages cbs e' later = e'.
Proof.
  intros Hs Hn e'.
  assert (He' : e' = match onStateChange cbs MotionEngineState.stopped with
                     | Normal _ =>
                         invoked (invoked (with_state (with_sensorAdapter e (SensorAdapter.stop (sensorAdapter e)))
                                    MotionEngineState.stopped) (StateChange MotionEngineState.stopped))
                           (ErrorReported breaker_error)
                     | Throw _ =>
                         invoked (with_state (with_sensorAdapter e (SensorAdapter.stop (sensorAdapter e)))
                                    MotionEngineState.stopped) (StateChange MotionEngineState.stopped)
                     end).
  { subst e'. unfold handleSensorData. rewrite Hs. cbn [MotionEngineState.eqb negb].
    destruct (Nat.leb_spec MAX_CONSECUTIVE_ERRORS (consecutivePipelineErrors e)); [|lia].
    unfold stop. rewrite Hs. unfold setState.
    cbn [with_sensorAdapter state]. rewrite Hs. cbn [MotionEngineState.eqb negb].
    destruct (onStateChange cbs MotionEngineState.stopped); reflexivity. }
  assert (Hst : state e' = MotionEngineState.stopped).
  { rewrite He'. destruct (onStateChange cbs MotionEngineState.stopped); reflexivity. }
  split; [exact Hst|].
  split; [rewrite He'; destruct (onStateChange cbs MotionEngineState.stopped); reflexivity|].
  split; [|split].
  - intros Hok. rewrite He', Hok. cbn [invoked calls with_state with_sensorAdapter].
    rewrite !errorCalls_app. cbn. rewrite app_nil_r. reflexivity.
  - rewrite He'. destruct (onStateChange cbs MotionEngineState.stopped);
      cbn [invoked calls with_state with_sensorAdapter]; rewrite !errorCalls_app, !length_app; cbn; lia.
  - apply deliver_stopped. exact Hst.
Qed.

(** The breaker on an engine whose processor failed ten times in a row. *)
Lemma circuit_breaker_stops_once_witness :
  let e := exhaustedEngine quietCallbacks in
  let e' := fst (handleSensorData brokenProcessor quietCallbacks e (reading 1 0)) in
  state e = MotionEngineState.active /\
  (MAX_CONSECUTIVE_ERRORS <= consecutivePipelineErrors e)%nat /\
  state e' = MotionEngineState.stopped /\
  SensorAdapter.isRunning (sensorAdapter e') = false /\
  (onStateChange quietCallbacks MotionEngineState.stopped = Normal tt ->
   errorCalls (calls e') = errorCalls (calls e) ++ [breaker_error]) /\
  (length (errorCalls (calls e')) <= S (length (errorCalls (calls e))))%nat /\
  deliver brokenProcessor quietCallbacks e' squatSamples = e'.
Proof.
  assert (H1 : state (exhaustedEngine quietCallbacks) = MotionEngineState.active)
    by (vm_compute; reflexivity).
  assert (H2 : (MAX_CONSECUTIVE_ERRORS <= consecutivePipelineErrors (exhaustedEngine quietCallbacks))%nat)
    by (vm_compute; lia).
  exact (conj H1 (conj H2
    (circuit_breaker_stops_once brokenProcessor quietCallbacks (exhaustedEngine quietCallbacks)
       (reading 1 0) squatSamples H1 H2))).
Defined.

End MotionEngineFacts.

(** ** SquatDetector: phases, emitted repetitions and failure reasons *)

Section SquatDetectorMore.
Import RepDetector SquatDetector.

Lemma detect_phase d data :
  currentPhase (base (fst (detect d data))) =
  match currentPhase (base d) with
  | idle =>
      if gt (peakMagnitude (track (base d) data) - ProcessedSensorData.filteredMagnitude data)
            MAGNITUDE_DROP_THRESHOLD then descending else idle
  | descending =>
      if gt (ProcessedSensorData.timestamp data - descendStartTime (base d)) PHASE_TIMEOUT
      then idle
      else if gt (ProcessedSensorData.filteredMagnitude data
                  - valleyMagnitude (track (base d) data)) MAGNITUDE_RISE_THRESHOLD
           then bottom else descending
  | bottom => ascending
  | ascending =>
      if gt (ProcessedSensorData.timestamp data - ascendStartTime (base d)) PHASE_TIMEOUT
      then idle
      else if takesCompletion d data then idle else ascending
  | completed => idle
  end.
Proof.
  unfold detect, takesCompletion.
  destruct (track_fields (base d) data) as (Eph & _ & _ & Edesc & _ & Easc).
  rewrite Eph.
  destruct (currentPhase (base d)) eqn:Hph; cbn [fst base].
  - unfold handleIdlePhase. destruct (gt _ _); [|cbn [fst]; exact Eph].
    cbn [fst]. unfold updatePeakMagnitude. destruct (gt _ _); reflexivity.
  - unfold handleDescendingPhase. rewrite Edesc.
    destruct (gt _ PHASE_TIMEOUT); [reflexivity|].
    destruct (gt _ _); [reflexivity|]. cbn [fst]. exact Eph.
  - reflexivity.
  - unfold handleAscendingPhase. rewrite Easc.
    destruct (gt _ PHASE_TIMEOUT); cbn [negb andb]; [reflexivity|].
    rewrite (track_ascending (base d) data Hph) at 1.
    destruct (updatePeakMagnitude_fields (base d) (ProcessedSensorData.filteredMagnitude data))
      as (_ & _ & _ & _ & _ & _ & Eval & _). cbv zeta in Eval. rewrite Eval.
    destruct (ge _ _); [|cbn [fst]; exact Eph].
    destruct (validateRep _ _ _) as [[|] rep']; reflexivity.
  - reflexivity.
Qed.

Lemma detect_emits d data rep :
  snd (detect d data) = Some rep ->
  takesCompletion d data = true /\ allChecks d data = true /\
  rep = markValid (candidateRep d data) /\
  fst (detect d data) = SquatDetector.mk (idleState (S (getRepCount d))) (config d).
Proof.
  unfold detect, takesCompletion, allChecks, candidateRep, getRepCount.
  destruct (track_fields (base d) data) as (Eph & Ecnt & _ & _ & _ & Easc).
  rewrite Eph.
  destruct (currentPhase (base d)) eqn:Hph; cbn [fst snd].
  - unfold handleIdlePhase. destruct (gt _ _); discriminate.
  - unfold handleDescendingPhase. destruct (gt _ _); [discriminate|]. destruct (gt _ _); discriminate.
  - discriminate.
  - unfold handleAscendingPhase. rewrite Easc.
    destruct (gt _ PHASE_TIMEOUT); cbn [negb andb]; [discriminate|].
    rewrite (track_ascending (base d) data Hph) in *.
    destruct (updatePeakMagnitude_fields (base d) (ProcessedSensorData.filteredMagnitude data))
      as (_ & _ & _ & _ & _ & _ & Eval & _). cbv zeta in Eval. rewrite Eval.
    destruct (ge _ _); [|discriminate].
    rewrite <- validateRep_checks.
    unfold validateRep.
    repeat (match goal with |- context [if negb ?b then _ else _] => destruct b; cbn [negb] end);
      cbn [fst snd]; try discriminate.
    intros H. injection H as <-. repeat split.
    unfold incrementRepCount, transitionToPhase, resetRepState, idleState. cbn.
    rewrite Ecnt. reflexivity.
  - discriminate.
Qed.

(** X1: one call of [detect] moves along the phase graph
    idle -> descending -> bottom -> ascending -> idle (with the fall-backs
    to idle); the bottom phase lasts exactly one sample, the completed phase
    is never left standing, and a repetition is only ever returned by a call
    that starts in the ascending phase and ends in idle. *)
Theorem detect_follows_phase_graph (d : SquatDetector.t) (data : ProcessedSensorData.t) :
  let d' := fst (detect d data) in
  phaseStep (getCurrentPhase d) (getCurrentPhase d') = true /\
  getCurrentPhase d' <> completed /\
  (getCurrentPhase d = bottom -> getCurrentPhase d' = ascending) /\
  (snd (detect d data) <> None ->
   getCurrentPhase d = ascending /\ getCurrentPhase d' = idle).
Proof.
  intros d'. subst d'. unfold getCurrentPhase.
  pose proof (detect_phase d data) as E.
  split; [|split; [|split]].
  - rewrite E. destruct (currentPhase (base d)); repeat (destruct (gt _ _)); try reflexivity;
      destruct (takesCompletion d data); reflexivity.
  - rewrite E. destruct (currentPhase (base d)); repeat (destruct (gt _ _)); try discriminate;
      destruct (takesCompletion d data); discriminate.
  - intros H. rewrite E, H. reflexivity.
  - intros H. destruct (snd (detect d data)) as [rep|] eqn:Er; [|congruence].
    apply detect_emits in Er as (Ht & _ & _ & Ed).
    rewrite Ed. cbn. split; [|reflexivity].
    unfold takesCompletion in Ht. destruct (currentPhase (base d)); try discriminate. reflexivity.
Qed.

(** X2: a repetition returned by [detect] is the candidate of the completing
    sample marked valid; it carries the next number, the sample's timestamp
    and no score yet, it passes each of the five thresholds of the
    configuration, and it leaves the detector idle with the counter
    incremented. *)
Theorem emitted_rep_meets_thresholds (d : SquatDetector.t) (data : ProcessedSensorData.t)
  (rep : DetectedRep.t) :
  snd (detect d data) = Some rep ->
  let cfg := config d in
  let features := DetectedRep.features rep in
  (rep = markValid (candidateRep d data) /\
   fst (detect d data) = SquatDetector.mk (idleState (S (getRepCount d))) cfg) /\
  (DetectedRep.isValid rep = true /\
   DetectedRep.repNumber rep = S (getRepCount d) /\
   DetectedRep.timestamp rep = ProcessedSensorData.timestamp data /\
   DetectedRep.score rep = None) /\
  (DetectedRep.depth rep <? SquatDetectionConfig.minDepthThreshold cfg) = false /\
  (Math_abs (RepFeatures.zAxisChange features)
   <? Math_abs (SquatDetectionConfig.minZAxisChange cfg)) = false /\
  (ge (DetectedRep.duration rep) (SquatDetectionConfig.minRepDuration cfg) = true /\
   (DetectedRep.duration rep <=? SquatDetectionConfig.maxRepDuration cfg) = true) /\
  (RepFeatures.stabilityScore features <? SquatDetectionConfig.minStabilityScore cfg) = false /\
  (RepFeatures.depthScore features <? SquatDetectionConfig.minDepthScore cfg) = false.
Proof.
  intros H cfg features. apply detect_emits in H as (_ & Hc & Hr & Hd).
  split; [split; assumption|].
  unfold allChecks in Hc.
  apply andb_prop in Hc as [Hc H5]. apply andb_prop in Hc as [Hc H4].
  apply andb_prop in Hc as [Hc H3]. apply andb_prop in Hc as [H1 H2].
  unfold checkDepth, checkZAxisChange, checkDuration, checkStability, checkDepthScore,
    isValidDuration in *.
  apply negb_true_iff in H1, H2, H4, H5. apply andb_prop in H3 as [H3a H3b].
  subst features cfg. rewrite Hr.
  unfold markValid, candidateRep, createDetectedRep, calculateDuration in *.
  cbn [DetectedRep.isValid DetectedRep.repNumber DetectedRep.timestamp DetectedRep.score
       DetectedRep.depth DetectedRep.duration DetectedRep.features] in *.
  destruct (track_fields (base d) data) as (_ & Ecnt & _).
  repeat split; try assumption.
  unfold getRepCount. rewrite Ecnt. reflexivity.
Qed.

Lemma emitted_rep_meets_thresholds_witness :
  let d := snd (afterSquat DEFAULT_SQUAT_CONFIG) in
  let data := completingData DEFAULT_SQUAT_CONFIG in
  let rep := markValid (candidateRep d data) in
  snd (detect d data) = Some rep /\
  DetectedRep.repNumber rep = 1%nat /\
  (DetectedRep.depth rep <? 0.08) = false /\
  ge (DetectedRep.duration rep) 100 = true.
Proof.
  intros d data rep.
  assert (H : snd (detect d data) = Some rep) by (vm_compute; reflexivity).
  split; [exact H|].
  pose proof (emitted_rep_meets_thresholds d data rep H) as T. cbv zeta in T.
  destruct T as (_ & (_ & Hn & _) & Hd & _ & (Hmin & _) & _).
  split; [exact Hn|]. split; [exact Hd|exact Hmin].
Defined.

Lemma not_leb_ltb a b : fnum a = true -> fnum b = true -> (a <=? b) = false -> (b <? a) = true.
Proof.
  intros Na Nb. rewrite leb_fval, ltb_fval, Na, Nb. cbn [andb].
  intros H. apply Z.leb_gt in H. apply Z.ltb_lt. exact H.
Qed.

(** X3: the reason logged for a rejected candidate names the first check
    that failed, in the order [validateRep] applies them; a duration outside
    the configured range reads "too fast" below the minimum and "too slow"
    above the maximum (all three being numbers).  For a candidate that
    passes every check the function has no reason to give. *)
Theorem failure_reason_names_first_failed_check (cfg : SquatDetectionConfig.t)
  (s : RepDetector.t) (timestamp : number) :
  let rep := createDetectedRep s timestamp in
  let reason := getValidationFailureReason cfg rep in
  (checkDepth cfg rep = false -> reason = VALIDATION_MESSAGES.INSUFFICIENT_DEPTH) /\
  (checkDepth cfg rep = true -> checkZAxisChange cfg rep = false ->
   reason = VALIDATION_MESSAGES.INSUFFICIENT_Z_CHANGE) /\
  (checkDepth cfg rep = true -> checkZAxisChange cfg rep = true ->
   checkDuration cfg s rep = false ->
   isNaN (DetectedRep.duration rep) = false ->
   isNaN (SquatDetectionConfig.minRepDuration cfg) = false ->
   isNaN (SquatDetectionConfig.maxRepDuration cfg) = false ->
   ((DetectedRep.duration rep <? SquatDetectionConfig.minRepDuration cfg) = true /\
    reason = VALIDATION_MESSAGES.TOO_FAST) \/
   ((DetectedRep.duration rep <? SquatDetectionConfig.minRepDuration cfg) = false /\
    gt (DetectedRep.duration rep) (SquatDetectionConfig.maxRepDuration cfg) = true /\
    reason = VALIDATION_MESSAGES.TOO_SLOW)) /\
  (checkDepth cfg rep = true -> checkZAxisChange cfg rep = true ->
   checkDuration cfg s rep = true -> checkStability cfg rep = false ->
   reason = VALIDATION_MESSAGES.LOW_STABILITY) /\
  (checkDepth cfg rep = true -> checkZAxisChange cfg rep = true ->
   checkDuration cfg s rep = true -> checkStability cfg rep = true ->
   checkDepthScore cfg rep = false ->
   reason = VALIDATION_MESSAGES.LOW_RANGE) /\
  (fst (validateRep cfg s rep) = true -> reason = "Unknown validation failure"%string).
Proof.
  intros rep reason.
  assert (Edur : DetectedRep.duration rep = DetectedRep.timestamp rep - repStartTime s)
    by reflexivity.
  assert (Hdur : checkDuration cfg s rep = true ->
                 (DetectedRep.duration rep <? SquatDetectionConfig.minRepDuration cfg) = false /\
                 gt (DetectedRep.duration rep) (SquatDetectionConfig.maxRepDuration cfg) = false).
  { unfold checkDuration, isValidDuration. rewrite <- Edur. intros H.
    apply andb_prop in H as [Ha Hb]. unfold ge, gt in *.
    split; apply leb_not_ltb; assumption. }
  subst reason. unfold getValidationFailureReason.
  unfold checkDepth, checkZAxisChange, checkStability, checkDepthScore.
  split; [|split; [|split; [|split; [|split]]]].
  - intros H. apply negb_false_iff in H. rewrite H. reflexivity.
  - intros H1 H2. apply negb_true_iff in H1. apply negb_false_iff in H2.
    rewrite H1, H2. reflexivity.
  - intros H1 H2 H3 Nd Nmin Nmax. apply negb_true_iff in H1, H2. rewrite H1, H2.
    unfold isNaN in *. rewrite is_nan_fnum in Nd, Nmin, Nmax.
    apply negb_false_iff in Nd, Nmin, Nmax.
    unfold checkDuration, isValidDuration in H3. rewrite <- Edur in H3. unfold ge in H3.
    destruct (DetectedRep.duration rep <? SquatDetectionConfig.minRepDuration cfg) eqn:Efast.
    + left. split; reflexivity.
    + right. split; [reflexivity|].
      assert (Hge : (SquatDetectionConfig.minRepDuration cfg <=? DetectedRep.duration rep) = true).
      { rewrite leb_fval, Nd, Nmin. rewrite ltb_fval, Nd, Nmin in Efast. cbn [andb] in *.
        apply Z.ltb_ge in Efast. apply Z.leb_le. exact Efast. }
      rewrite Hge in H3. cbn [andb] in H3.
      pose proof (not_leb_ltb _ _ Nd Nmax H3) as Hslow. unfold gt. rewrite Hslow.
      split; reflexivity.
  - intros H1 H2 H3 H4. apply negb_true_iff in H1, H2. apply negb_false_iff in H4.
    destruct (Hdur H3) as [Ha Hb]. rewrite H1, H2, Ha, Hb, H4. reflexivity.
  - intros H1 H2 H3 H4 H5. apply negb_true_iff in H1, H2, H4. apply negb_false_iff in H5.
    destruct (Hdur H3) as [Ha Hb]. rewrite H1, H2, Ha, Hb, H4, H5. reflexivity.
  - rewrite validateRep_checks. intros H.
    apply andb_prop in H as [H H5]. apply andb_prop in H as [H H4].
    apply andb_prop in H as [H H3]. apply andb_prop in H as [H1 H2].
    unfold checkDepth, checkZAxisChange, checkStability, checkDepthScore in *.
    apply negb_true_iff in H1, H2, H4, H5.
    destruct (Hdur H3) as [Ha Hb]. rewrite H1, H2, Ha, Hb, H4, H5. reflexivity.
Qed.

End SquatDetectorMore.

(** ** MotionEngine: containment of failures *)

Section MotionEngineSafety.
Import MotionEngine.

Lemma errorCalls_invoked_rep e rep :
  errorCalls (calls (invoked e (RepDetected rep))) = errorCalls (calls e).
Proof.
  unfold invoked. cbn [calls]. unfold errorCalls. rewrite flat_map_app. cbn. apply app_nil_r.
Qed.

(** What one sample can do below the breaker limit. *)
Lemma handleSensorData_cases stages cbs e raw :
  state e = MotionEngineState.active ->
  (consecutivePipelineErrors e < MAX_CONSECUTIVE_ERRORS)%nat ->
  let e' := fst (handleSensorData stages cbs e raw) in
  snd (handleSensorData stages cbs e raw) = Normal tt /\
  state e' = state e /\ config e' = config e /\ sensorAdapter e' = sensorAdapter e /\
  scorer e' = scorer e /\ sessionStartTime e' = sessionStartTime e /\
  (consecutivePipelineErrors e' <= S (consecutivePipelineErrors e))%nat /\
  (calls e' = calls e \/
   exists rep sc,
     calls e' = calls e ++ [RepDetected (attachScore rep sc)] /\
     DetectedRep.isValid rep = true /\
     score stages (scorer e) (DetectedRep.features rep) = Normal sc /\
     scoreCount e' = S (scoreCount e)).
Proof.
  intros Hs Hn. cbv zeta. unfold handleSensorData. rewrite Hs. cbn [MotionEngineState.eqb negb].
  destruct (Nat.leb_spec MAX_CONSECUTIVE_ERRORS (consecutivePipelineErrors e)); [lia|].
  destruct (process stages (signalProcessor e) raw) as [sp [p|err]].
  - cbn [addToRecentData with_recentData with_signalProcessor detector].
    destruct (detect stages (detector e) p) as [det [r|err]].
    + destruct r as [rep|].
      * destruct (DetectedRep.isValid rep) eqn:Hv.
        -- unfold scoreAndNotify. cbn.
           destruct (score stages (scorer e) (DetectedRep.features rep)) as [sc|err] eqn:Hsc.
           ++ destruct (onRepDetected cbs (attachScore rep sc)); cbn;
                (repeat split; try assumption; try lia;
                 right; exists rep, sc; repeat split; assumption).
           ++ cbn. repeat split; try assumption; try lia. left. reflexivity.
        -- cbn. repeat split; try assumption; try lia. left. reflexivity.
      * cbn. repeat split; try assumption; try lia. left. reflexivity.
    + cbn. repeat split; try assumption; try lia. left. reflexivity.
  - cbn. repeat split; try assumption; try lia. left. reflexivity.
Qed.

(** X4: below the breaker limit, handling a sample never throws, whether
    the pipeline stages and the callbacks return or throw (callbacks that
    do not call back into the engine): the engine keeps its state,
    neither [onError] nor [onStateChange] is invoked, [onRepDetected] is
    invoked at most once, with a valid repetition that carries its score,
    and the error counter grows by at most one.  An engine that is not
    active ignores the sample altogether. *)
Theorem sample_handler_contains_failures (stages : Stages) (cbs : MotionEngineCallbacks)
  (e : MotionEngine.t) (raw : AccelerometerData.t) :
  (consecutivePipelineErrors e < MAX_CONSECUTIVE_ERRORS)%nat ->
  let e' := fst (handleSensorData stages cbs e raw) in
  snd (handleSensorData stages cbs e raw) = Normal tt /\
  state e' = state e /\
  (state e <> MotionEngineState.active -> e' = e) /\
  (consecutivePipelineErrors e' <= S (consecutivePipelineErrors e))%nat /\
  (calls e' = calls e \/
   exists rep, calls e' = calls e ++ [RepDetected rep] /\
               DetectedRep.isValid rep = true /\ DetectedRep.score rep <> None).
Proof.
  intros Hn e'. subst e'.
  destruct (MotionEngineState.eqb (state e) MotionEngineState.active) eqn:Hs.
  - assert (Ha : state e = MotionEngineState.active) by (destruct (state e); try discriminate; reflexivity).
    destruct (handleSensorData_cases stages cbs e raw Ha Hn) as (H1 & H2 & _ & _ & _ & _ & H3 & H4).
    cbv zeta in *. split; [exact H1|]. split; [exact H2|]. split; [congruence|]. split; [exact H3|].
    destruct H4 as [H4|(rep & sc & H4 & Hv & _)]; [left; exact H4|].
    right. exists (attachScore rep sc). split; [exact H4|]. split; [exact Hv|discriminate].
  - unfold handleSensorData. rewrite Hs. cbn [negb fst snd].
    repeat split; try lia. left. reflexivity.
Qed.

Lemma sample_handler_contains_failures_witness :
  let e := deliver faultyStages listenerFailsOnStop (runningEngine listenerFailsOnStop)
             (squatSamples ++ [corruptSample]) in
  (consecutivePipelineErrors e < MAX_CONSECUTIVE_ERRORS)%nat /\
  snd (handleSensorData faultyStages listenerFailsOnStop e completingSample) = Normal tt.
Proof.
  intros e.
  assert (H : (consecutivePipelineErrors e < MAX_CONSECUTIVE_ERRORS)%nat)
    by (vm_compute; lia).
  split; [exact H|].
  exact (proj1 (sample_handler_contains_failures faultyStages listenerFailsOnStop e
                  completingSample H)).
Defined.

End MotionEngineSafety.

(** ** MotionEngine: life cycle *)

Section MotionEngineLifecycle.
Import MotionEngine.

(** [setState] writes the state and records the callback; nothing else. *)
Lemma setState_fields cbs e s :
  let e' := fst (setState cbs e s) in
  state e' = s /\ config e' = config e /\ sensorAdapter e' = sensorAdapter e /\
  signalProcessor e' = signalProcessor e /\ detector e' = detector e /\
  scorer e' = scorer e /\ sessionStartTime e' = sessionStartTime e /\
  lastRepTimestamp e' = lastRepTimestamp e /\ totalScore e' = totalScore e /\
  scoreCount e' = scoreCount e /\ recentData e' = recentData e /\
  consecutivePipelineErrors e' = consecutivePipelineErrors e /\
  calls e' = calls e ++ (if MotionEngineState.eqb (state e) s then [] else [StateChange s]).
Proof.
  unfold setState. destruct (MotionEngineState.eqb (state e) s); cbn; repeat split.
  symmetry. apply app_nil_r.
Qed.

Lemma setState_result cbs e s :
  snd (setState cbs e s)
  = if MotionEngineState.eqb (state e) s then Normal tt else onStateChange cbs s.
Proof. unfold setState. destruct (MotionEngineState.eqb (state e) s); reflexivity. Qed.

Lemma startFailed_fields cbs e err :
  let e' := fst (startFailed cbs e err) in
  state e' = MotionEngineState.idle /\ config e' = config e /\
  sensorAdapter e' = sensorAdapter e /\
  signalProcessor e' = signalProcessor e /\ detector e' = detector e /\
  scorer e' = scorer e /\ sessionStartTime e' = sessionStartTime e /\
  lastRepTimestamp e' = lastRepTimestamp e /\ totalScore e' = totalScore e /\
  scoreCount e' = scoreCount e /\ recentData e' = recentData e /\
  consecutivePipelineErrors e' = consecutivePipelineErrors e /\
  (exists err', snd (startFailed cbs e err) = Throw err').
Proof.
  unfold startFailed.
  pose proof (setState_fields cbs e MotionEngineState.idle) as F. cbv zeta in F.
  destruct (setState cbs e MotionEngineState.idle) as [e1 [u|err1]]; cbn [fst snd] in *.
  - destruct F as (F1 & F2 & F3 & F4 & F5 & F6 & F7 & F8 & F9 & F10 & F11 & F12 & _).
    destruct (onError cbs err); cbn; repeat split; try assumption; eexists; reflexivity.
  - destruct F as (F1 & F2 & F3 & F4 & F5 & F6 & F7 & F8 & F9 & F10 & F11 & F12 & _).
    repeat split; try assumption. eexists; reflexivity.
Qed.

Lemma sameSetup_refl e : sameSetup e e.
Proof. repeat split. Qed.

Lemma sameSetup_trans e1 e2 e3 : sameSetup e1 e2 -> sameSetup e2 e3 -> sameSetup e1 e3.
Proof.
  unfold sameSetup. intros (A1 & A2 & A3 & A4 & A5) (B1 & B2 & B3 & B4 & B5).
  repeat split; congruence.
Qed.

Lemma sameSetup_setState cbs e s : sameSetup e (fst (setState cbs e s)).
Proof.
  destruct (setState_fields cbs e s) as (_ & F2 & F3 & F4 & F5 & F6 & _).
  unfold sameSetup. rewrite F2, F3, F4, F5, F6. repeat split.
Qed.

Lemma sameSetup_startFailed cbs e err : sameSetup e (fst (startFailed cbs e err)).
Proof.
  destruct (startFailed_fields cbs e err) as (_ & F2 & F3 & F4 & F5 & F6 & _).
  unfold sameSetup. rewrite F2, F3, F4, F5, F6. repeat split.
Qed.

(** The session reset [start] performs between the two state changes. *)
Lemma start_unfold platform now subscribedAt cbs e :
  state e <> MotionEngineState.active ->
  start platform now subscribedAt cbs e =
  match setState cbs e MotionEngineState.starting with
  | (e1, Throw err) => startFailed cbs e1 err
  | (e1, Normal _) =>
      let e2 :=
        mk (config e1) (sensorAdapter e1)
           (SignalProcessor.reset (signalProcessor e1))
           (SquatDetector.reset (detector e1)) (scorer e1) (state e1)
           (Some now) None 0 0%nat [] 0%nat (calls e1) in
      match SensorAdapter.start platform subscribedAt (sensorAdapter e2) with
      | (a, Throw err) => startFailed cbs (with_sensorAdapter e2 a) err
      | (a, Normal _) =>
          match setState cbs (with_sensorAdapter e2 a) MotionEngineState.active with
          | (e3, Throw err) => startFailed cbs e3 err
          | (e3, Normal _) => (e3, Normal tt)
          end
      end
  end.
Proof. intros Hs. unfold start. destruct (state e); congruence || reflexivity. Qed.

(** The three ways [start] can end on an engine that is not active. *)
Lemma start_cases platform now subscribedAt cbs e :
  state e <> MotionEngineState.active ->
  let r := start platform now subscribedAt cbs e in
  let e' := fst r in
  sameSetup e e' /\
  ((* the state listener threw on 'starting': nothing was reset *)
   (state e' = MotionEngineState.idle /\ (exists err, snd r = Throw err) /\
    sensorAdapter e' = sensorAdapter e /\ recentData e' = recentData e /\
    consecutivePipelineErrors e' = consecutivePipelineErrors e)
   \/
   (* the session was reset, then the start failed *)
   (state e' = MotionEngineState.idle /\ (exists err, snd r = Throw err) /\
    recentData e' = [] /\ consecutivePipelineErrors e' = 0%nat /\
    (sensorAdapter e' = sensorAdapter e \/
     (SensorAdapter.isActive (sensorAdapter e) = false /\
      sensorAdapter e'
      = SensorAdapter.mk (SensorAdapter.config (sensorAdapter e)) [] true subscribedAt true)))
   \/
   (* the session is running *)
   (state e' = MotionEngineState.active /\ snd r = Normal tt /\
    SensorAdapter.isActive (sensorAdapter e) = false /\
    SensorAdapter.isAvailable platform = true /\
    SensorAdapter.permissionGranted platform = true /\
    sensorAdapter e'
    = SensorAdapter.mk (SensorAdapter.config (sensorAdapter e)) [] true subscribedAt true /\
    signalProcessor e' = SignalProcessor.reset (signalProcessor e) /\
    detector e' = SquatDetector.reset (detector e) /\
    recentData e' = [] /\ consecutivePipelineErrors e' = 0%nat /\
    sessionStartTime e' = Some now /\ lastRepTimestamp e' = None /\
    totalScore e' = 0 /\ scoreCount e' = 0%nat /\
    calls e'
    = calls e ++ (if MotionEngineState.eqb (state e) MotionEngineState.starting then []
                  else [StateChange MotionEngineState.starting])
              ++ [StateChange MotionEngineState.active])).
Proof.
  intros Hs r e'. subst e' r. rewrite (start_unfold platform now subscribedAt cbs e Hs).
  pose proof (setState_fields cbs e MotionEngineState.starting) as F. cbv zeta in F.
  pose proof (sameSetup_setState cbs e MotionEngineState.starting) as S1.
  destruct (setState cbs e MotionEngineState.starting) as [e1 [u|err1]]; cbn [fst snd] in F, S1;
    destruct F as (F1 & F2 & F3 & F4 & F5 & F6 & F7 & F8 & F9 & F10 & F11 & F12 & F13).
  2:{ (* the listener threw on 'starting' *)
      destruct (startFailed_fields cbs e1 err1)
        as (G1 & _ & G3 & _ & _ & _ & _ & _ & _ & _ & G11 & G12 & G13).
      split; [exact (sameSetup_trans _ _ _ S1 (sameSetup_startFailed cbs e1 err1))|].
      left. repeat split; try assumption; congruence. }
  cbv zeta.
  set (e2 := mk (config e1) (sensorAdapter e1) (SignalProcessor.reset (signalProcessor e1))
               (SquatDetector.reset (detector e1)) (scorer e1) (state e1)
               (Some now) None 0 0%nat [] 0%nat (calls e1)).
  assert (S2 : sameSetup e e2).
  { unfold sameSetup in *. destruct S1 as (A1 & A2 & A3 & A4 & A5).
    subst e2. cbn. repeat split; assumption. }
  change (sensorAdapter e2) with (sensorAdapter e1). rewrite F3.
  unfold SensorAdapter.start.
  assert (Refused : forall err,
    sameSetup e (fst (startFailed cbs (with_sensorAdapter e2 (sensorAdapter e)) err)) /\
    state (fst (startFailed cbs (with_sensorAdapter e2 (sensorAdapter e)) err))
    = MotionEngineState.idle /\
    (exists err', snd (startFailed cbs (with_sensorAdapter e2 (sensorAdapter e)) err) = Throw err') /\
    recentData (fst (startFailed cbs (with_sensorAdapter e2 (sensorAdapter e)) err)) = [] /\
    consecutivePipelineErrors (fst (startFailed cbs (with_sensorAdapter e2 (sensorAdapter e)) err))
    = 0%nat /\
    sensorAdapter (fst (startFailed cbs (with_sensorAdapter e2 (sensorAdapter e)) err))
    = sensorAdapter e).
  { intros err.
    destruct (startFailed_fields cbs (with_sensorAdapter e2 (sensorAdapter e)) err)
      as (G1 & _ & G3 & _ & _ & _ & _ & _ & _ & _ & G11 & G12 & G13).
    split.
    - apply (sameSetup_trans _ (with_sensorAdapter e2 (sensorAdapter e)));
        [|apply sameSetup_startFailed].
      unfold sameSetup in *. destruct S2 as (A1 & A2 & A3 & A4 & A5).
      cbn. repeat split; assumption.
    - repeat split; assumption. }
  destruct (SensorAdapter.isActive (sensorAdapter e)) eqn:Eact.
  { destruct (Refused (mkError "SensorAdapter: Already started")) as (R0 & R1 & R2 & R3 & R4 & R5).
    split; [exact R0|]. right; left. repeat split; try assumption. left. exact R5. }
  destruct (SensorAdapter.isAvailable platform) eqn:Eav; cbn [negb].
  2:{ destruct (Refused (mkError "SensorAdapter: Accelerometer not available on this device"))
        as (R0 & R1 & R2 & R3 & R4 & R5).
      split; [exact R0|]. right; left. repeat split; try assumption. left. exact R5. }
  destruct (SensorAdapter.permissionGranted platform) eqn:Egr; cbn [negb].
  2:{ destruct (Refused (mkError "SensorAdapter: Accelerometer permission denied. Please enable motion access in Settings."))
        as (R0 & R1 & R2 & R3 & R4 & R5).
      split; [exact R0|]. right; left. repeat split; try assumption. left. exact R5. }
  clear Refused.
  set (a := SensorAdapter.mk (SensorAdapter.config (sensorAdapter e)) [] true subscribedAt true).
  set (e2a := with_sensorAdapter e2 a).
  assert (S3 : sameSetup e e2a).
  { unfold sameSetup in *. destruct S2 as (A1 & A2 & A3 & A4 & A5).
    subst e2a a. cbn. repeat split; assumption. }
  pose proof (setState_fields cbs e2a MotionEngineState.active) as G. cbv zeta in G.
  pose proof (sameSetup_setState cbs e2a MotionEngineState.active) as S4.
  destruct (setState cbs e2a MotionEngineState.active) as [e3 [u'|err3]]; cbn [fst snd] in G, S4;
    destruct G as (G1 & G2 & G3 & G4 & G5 & G6 & G7 & G8 & G9 & G10 & G11 & G12 & G13).
  - (* running *)
    cbn [fst snd]. split; [exact (sameSetup_trans _ _ _ S3 S4)|]. right; right.
    rewrite G3, G4, G5, G7, G8, G9, G10, G11, G12, G13.
    subst e2a e2. cbn. rewrite F1, F4, F5, F13. cbn [MotionEngineState.eqb].
    repeat split; try assumption; try reflexivity. rewrite <- app_assoc. reflexivity.
  - (* the listener threw on 'active' *)
    destruct (startFailed_fields cbs e3 err3)
      as (K1 & _ & K3 & _ & _ & _ & _ & _ & _ & _ & K11 & K12 & K13).
    split; [exact (sameSetup_trans _ _ _ (sameSetup_trans _ _ _ S3 S4)
                     (sameSetup_startFailed cbs e3 err3))|].
    right; left. rewrite K3, K11, K12, G3, G11, G12.
    repeat split; try assumption; try reflexivity. right. split; reflexivity.
Qed.

(** X5: [start] either succeeds, leaving the engine active with a live
    subscription, or throws, leaving it idle: whatever the platform answers
    and whether the callbacks return or throw, it never leaves the engine
    in the starting state.
    On an active engine it throws and changes nothing. *)
Theorem start_succeeds_or_idles (platform : SensorAdapter.Platform) (now subscribedAt : number)
  (cbs : MotionEngineCallbacks) (e : MotionEngine.t) :
  let r := start platform now subscribedAt cbs e in
  (state e = MotionEngineState.active ->
   r = (e, Throw (mkError "MotionEngine: Already running"))) /\
  (state e <> MotionEngineState.active ->
   (snd r = Normal tt /\ state (fst r) = MotionEngineState.active /\
    SensorAdapter.isRunning (sensorAdapter (fst r)) = true)
   \/
   ((exists err, snd r = Throw err) /\ state (fst r) = MotionEngineState.idle)).
Proof.
  intros r. subst r. split.
  - intros H. unfold start. rewrite H. reflexivity.
  - intros H. destruct (start_cases platform now subscribedAt cbs e H) as (_ & [C|[C|C]]); cbv zeta in C.
    + right. destruct C as (C1 & C2 & _). split; assumption.
    + right. destruct C as (C1 & C2 & _). split; assumption.
    + left. destruct C as (C1 & C2 & _ & _ & _ & C6 & _). rewrite C6. repeat split; assumption.
Qed.

(** X6: on an idle or stopped engine whose adapter is released, with the
    accelerometer available and permitted and a state listener that
    returns, [start] begins a fresh session: the detector is as newly
    constructed with the current thresholds, the filter has no history, the
    graph buffer, the metrics and the error counter are cleared, the adapter
    subscribes with an empty buffer, and the listener hears 'starting' and
    'active'.  The engine and the adapter each read the clock themselves:
    the engine's session starts at [now], the adapter's at [subscribedAt],
    and it is the adapter's start that the samples are stamped against. *)
Theorem start_begins_fresh_session (platform : SensorAdapter.Platform) (now subscribedAt : number)
  (cbs : MotionEngineCallbacks) (e : MotionEngine.t) :
  state e = MotionEngineState.idle \/ state e = MotionEngineState.stopped ->
  SensorAdapter.isRunning (sensorAdapter e) = false ->
  SensorAdapter.isAvailable platform = true ->
  SensorAdapter.permissionGranted platform = true ->
  (forall s, onStateChange cbs s = Normal tt) ->
  let e' := fst (start platform now subscribedAt cbs e) in
  snd (start platform now subscribedAt cbs e) = Normal tt /\
  state e' = MotionEngineState.active /\
  detector e' = SquatDetector.constructor (SquatDetector.config (detector e)) /\
  signalProcessor e' = SignalProcessor.reset (signalProcessor e) /\
  SignalProcessor.isReady (signalProcessor e') = false /\
  sensorAdapter e'
  = SensorAdapter.mk (SensorAdapter.config (sensorAdapter e)) [] true subscribedAt true /\
  recentData e' = [] /\ consecutivePipelineErrors e' = 0%nat /\
  sessionStartTime e' = Some now /\ lastRepTimestamp e' = None /\
  totalScore e' = 0 /\ scoreCount e' = 0%nat /\
  calls e' = calls e ++ [StateChange MotionEngineState.starting;
                         StateChange MotionEngineState.active] /\
  (forall t x y z,
     snd (SensorAdapter.receive (sensorAdapter e') t x y z)
     = AccelerometerData.mk x y z (t - subscribedAt)).
Proof.
  intros Hst Hoff Hav Hgr Hq e'. subst e'.
  assert (Hs : state e <> MotionEngineState.active) by (destruct Hst as [H|H]; rewrite H; discriminate).
  assert (Hne : MotionEngineState.eqb (state e) MotionEngineState.starting = false)
    by (destruct Hst as [H|H]; rewrite H; reflexivity).
  assert (Hr : snd (start platform now subscribedAt cbs e) = Normal tt).
  { rewrite (start_unfold platform now subscribedAt cbs e Hs). unfold setState at 1. rewrite Hne. cbn [negb].
    rewrite Hq. cbv zeta. unfold SensorAdapter.start. cbn [sensorAdapter invoked with_state].
    unfold SensorAdapter.isRunning in Hoff. rewrite Hoff, Hav, Hgr. cbn [negb].
    unfold setState. cbn [state with_sensorAdapter invoked with_state MotionEngineState.eqb negb].
    rewrite Hq. reflexivity. }
  destruct (start_cases platform now subscribedAt cbs e Hs) as (_ & [C|[C|C]]); cbv zeta in C.
  - destruct C as (_ & [err C] & _). congruence.
  - destruct C as (_ & [err C] & _). congruence.
  - destruct C as (C1 & _ & _ & _ & _ & C6 & C7 & C8 & C9 & C10 & C11 & C12 & C13 & C14 & C15).
    rewrite Hne in C15. rewrite C7.
    repeat split; try assumption.
    intros t x y z. rewrite C6. reflexivity.
Qed.

Lemma start_begins_fresh_session_witness :
  let e := fst (handleSensorData brokenProcessor quietCallbacks (exhaustedEngine quietCallbacks)
                  (reading 1 0)) in
  let e' := fst (start granted 5000 5003 quietCallbacks e) in
  state e = MotionEngineState.stopped /\
  snd (start granted 5000 5003 quietCallbacks e) = Normal tt /\
  state e' = MotionEngineState.active /\
  consecutivePipelineErrors e' = 0%nat /\
  sessionStartTime e' = Some 5000 /\
  SensorAdapter.getSessionStartTime (sensorAdapter e') = 5003.
Proof.
  intros e e'.
  assert (H1 : state e = MotionEngineState.stopped) by (vm_compute; reflexivity).
  assert (H2 : SensorAdapter.isRunning (sensorAdapter e) = false) by (vm_compute; reflexivity).
  pose proof (start_begins_fresh_session granted 5000 5003 quietCallbacks e (or_intror H1) H2
                eq_refl eq_refl (fun s => eq_refl)) as T.
  cbv zeta in T. destruct T as (T1 & T2 & _ & _ & _ & T6 & _ & T8 & T9 & _).
  split; [exact H1|]. split; [exact T1|]. split; [exact T2|]. split; [exact T8|].
  split; [exact T9|]. unfold e'. rewrite T6. reflexivity.
Defined.

Lemma handleSensorData_inactive stages cbs e raw :
  state e <> MotionEngineState.active -> handleSensorData stages cbs e raw = (e, Normal tt).
Proof.
  intros H. unfold handleSensorData.
  destruct (state e); try reflexivity. congruence.
Qed.

Lemma wedged_perform stages cbs e c : wedged e -> wedged (perform stages cbs e c).
Proof.
  intros [Hs Ha]. unfold wedged.
  assert (Hna : state e <> MotionEngineState.active) by (rewrite Hs; discriminate).
  destruct c as [platform now subscribedAt| | | |update|now x y z]; cbn [perform].
  - destruct (start_cases platform now subscribedAt cbs e Hna) as (_ & [C|[C|C]]); cbv zeta in C.
    + destruct C as (C1 & _ & C3 & _). rewrite C1, C3. split; [reflexivity|exact Ha].
    + destruct C as (C1 & _ & _ & _ & [C5|[C5 _]]).
      * rewrite C1, C5. split; [reflexivity|exact Ha].
      * unfold SensorAdapter.isRunning in Ha. congruence.
    + destruct C as (_ & _ & C3 & _). unfold SensorAdapter.isRunning in Ha. congruence.
  - unfold pause. rewrite Hs. cbn [fst]. split; assumption.
  - unfold resume. rewrite Hs. cbn [fst]. split; assumption.
  - unfold stop. rewrite Hs. cbn [fst]. split; assumption.
  - unfold setConfig. destruct (p_detectionConfig update); cbn; split; assumption.
  - destruct (SensorAdapter.subscribed (sensorAdapter e)); [|split; assumption].
    unfold onSensorData, SensorAdapter.receive.
    rewrite handleSensorData_inactive by (cbn [state with_sensorAdapter]; exact Hna).
    cbn. split; assumption.
Qed.

Lemma wedged_session stages cbs script : forall e, wedged e -> wedged (session stages cbs e script).
Proof.
  unfold session. induction script as [|c rest IH]; intros e H; [exact H|].
  cbn [fold_left]. apply IH. apply wedged_perform. exact H.
Qed.

(** X7: [start] on a paused engine fails, because the adapter is still
    subscribed, and leaves the engine wedged: it reports idle while the
    subscription stays live.  From then on [stop] returns without releasing
    the adapter and every further [start] fails the same way, so that no
    sequence of calls and readings, each call running to completion before
    the next, makes the engine run again. *)
Theorem start_while_paused_wedges_engine (stages : Stages) (cbs : MotionEngineCallbacks)
  (platform : SensorAdapter.Platform) (now subscribedAt : number) (e : MotionEngine.t) :
  state e = MotionEngineState.paused ->
  SensorAdapter.isRunning (sensorAdapter e) = true ->
  let r := start platform now subscribedAt cbs e in
  (exists err, snd r = Throw err) /\
  wedged (fst r) /\
  ((forall s, onStateChange cbs s = Normal tt) -> (forall err, onError cbs err = Normal tt) ->
   snd r = Throw (mkError "SensorAdapter: Already started")) /\
  stop cbs (fst r) = (fst r, Normal tt) /\
  (forall script,
     let later := session stages cbs (fst r) script in
     wedged later /\ isRunning later = false).
Proof.
  intros Hs Ha r. subst r.
  assert (Hna : state e <> MotionEngineState.active) by (rewrite Hs; discriminate).
  assert (W : wedged (fst (start platform now subscribedAt cbs e))).
  { unfold wedged.
    destruct (start_cases platform now subscribedAt cbs e Hna) as (_ & [C|[C|C]]); cbv zeta in C.
    - destruct C as (C1 & _ & C3 & _). rewrite C1, C3. split; [reflexivity|exact Ha].
    - destruct C as (C1 & _ & _ & _ & [C5|[C5 _]]).
      + rewrite C1, C5. split; [reflexivity|exact Ha].
      + unfold SensorAdapter.isRunning in Ha. congruence.
    - destruct C as (_ & _ & C3 & _). unfold SensorAdapter.isRunning in Ha. congruence. }
  split; [|split; [exact W|split; [|split]]].
  - destruct (start_cases platform now subscribedAt cbs e Hna) as (_ & [C|[C|C]]); cbv zeta in C.
    + destruct C as (_ & C2 & _). exact C2.
    + destruct C as (_ & C2 & _). exact C2.
    + destruct C as (_ & _ & C3 & _). unfold SensorAdapter.isRunning in Ha. congruence.
  - intros Hq He. rewrite (start_unfold platform now subscribedAt cbs e Hna).
    unfold setState at 1. rewrite Hs. cbn [MotionEngineState.eqb negb]. rewrite Hq.
    cbv zeta. unfold SensorAdapter.start. cbn [sensorAdapter invoked with_state].
    unfold SensorAdapter.isRunning in Ha. rewrite Ha.
    unfold startFailed, setState. cbn [state with_sensorAdapter invoked with_state
                                        MotionEngineState.eqb negb].
    rewrite Hq, He. reflexivity.
  - destruct W as [W1 W2]. unfold stop. rewrite W1. reflexivity.
  - intros script later. subst later.
    pose proof (wedged_session stages cbs script _ W) as [L1 L2].
    split; [split; assumption|]. unfold isRunning. rewrite L1. reflexivity.
Qed.

Lemma start_while_paused_wedges_engine_witness :
  let e := fst (pause quietCallbacks (runningEngine quietCallbacks)) in
  let r := start granted 9000 9002 quietCallbacks e in
  state e = MotionEngineState.paused /\
  SensorAdapter.isRunning (sensorAdapter e) = true /\
  (exists err, snd r = Throw err) /\ wedged (fst r) /\
  isRunning (session production quietCallbacks (fst r)
               [CallStop; CallStart granted 9500 9503; Reading 9600 0 0 1; CallResume]) = false.
Proof.
  intros e r.
  assert (H1 : state e = MotionEngineState.paused) by (vm_compute; reflexivity).
  assert (H2 : SensorAdapter.isRunning (sensorAdapter e) = true) by (vm_compute; reflexivity).
  pose proof (start_while_paused_wedges_engine production quietCallbacks granted 9000 9002 e H1 H2) as T.
  cbv zeta in T. destruct T as (T1 & T2 & _ & _ & T5).
  split; [exact H1|]. split; [exact H2|]. split; [exact T1|]. split; [exact T2|].
  exact (proj2 (T5 [CallStop; CallStart granted 9500 9503; Reading 9600 0 0 1; CallResume])).
Defined.

Lemma paused_readings stages cbs rs : forall e,
  state e = MotionEngineState.paused ->
  SensorAdapter.subscribed (sensorAdapter e) = true ->
  session stages cbs e (asReadings rs) = with_sensorAdapter e (buffered (sensorAdapter e) rs).
Proof.
  unfold session, asReadings, buffered.
  induction rs as [|[[[now x] y] z] rest IH]; intros e Hs Hsub.
  - destruct e; reflexivity.
  - cbn [map fold_left perform]. rewrite Hsub.
    unfold onSensorData.
    destruct (SensorAdapter.receive (sensorAdapter e) now x y z) as [a data] eqn:Er.
    rewrite handleSensorData_inactive
      by (cbn [state with_sensorAdapter]; rewrite Hs; discriminate).
    cbn [fst]. rewrite IH.
    + cbn [sensorAdapter with_sensorAdapter]. reflexivity.
    + exact Hs.
    + cbn [sensorAdapter with_sensorAdapter].
      unfold SensorAdapter.receive in Er. injection Er as <- _.
      unfold SensorAdapter.addToBuffer. cbn [SensorAdapter.subscribed]. exact Hsub.
Qed.

(** X8: pausing suspends the pipeline without losing it.  While the engine
    is paused the adapter goes on buffering readings, but none of them
    reaches the processor, the detector, the graph buffer or the metrics,
    and no callback is invoked; after [resume] the engine is active again
    with the pipeline exactly as it was when [pause] was called.  The state
    changes even when the state listener throws. *)
Theorem pause_suspends_processing (stages : Stages) (cbs : MotionEngineCallbacks)
  (e : MotionEngine.t) (rs : list (number * number * number * number)) :
  state e = MotionEngineState.active ->
  SensorAdapter.subscribed (sensorAdapter e) = true ->
  let p := fst (pause cbs e) in
  let during := session stages cbs p (asReadings rs) in
  let q := fst (resume cbs during) in
  (state p = MotionEngineState.paused /\
   snd (pause cbs e) = onStateChange cbs MotionEngineState.paused) /\
  (state during = MotionEngineState.paused /\ samePipeline e during /\
   sensorAdapter during = buffered (sensorAdapter e) rs /\
   calls during = calls e ++ [StateChange MotionEngineState.paused]) /\
  (state q = MotionEngineState.active /\
   snd (resume cbs during) = onStateChange cbs MotionEngineState.active /\
   samePipeline e q /\
   calls q = calls e ++ [StateChange MotionEngineState.paused;
                         StateChange MotionEngineState.active]).
Proof.
  intros Hs Hsub p during q.
  assert (Ep : p = invoked (with_state e MotionEngineState.paused)
                     (StateChange MotionEngineState.paused)).
  { subst p. unfold pause, setState. rewrite Hs. reflexivity. }
  assert (Ed : during = with_sensorAdapter p (buffered (sensorAdapter e) rs)).
  { subst during. rewrite paused_readings; rewrite Ep; try reflexivity. exact Hsub. }
  assert (Eq : q = invoked (with_state during MotionEngineState.active)
                     (StateChange MotionEngineState.active)).
  { subst q. unfold resume, setState. rewrite Ed, Ep. reflexivity. }
  split; [|split].
  - split; [rewrite Ep; reflexivity|]. unfold pause, setState. rewrite Hs. reflexivity.
  - rewrite Ed, Ep. cbn. repeat split.
  - split; [rewrite Eq; reflexivity|]. split.
    + unfold resume, setState. rewrite Ed, Ep. reflexivity.
    + rewrite Eq, Ed, Ep. cbn. rewrite <- app_assoc. repeat split.
Qed.

Lemma pause_suspends_processing_witness :
  let e := deliver production quietCallbacks (runningEngine quietCallbacks) squatSamples in
  let rs := [(700, 0, 0, 1); (800, 0, 0, 1)] in
  let during := session production quietCallbacks (fst (pause quietCallbacks e)) (asReadings rs) in
  state e = MotionEngineState.active /\
  SensorAdapter.subscribed (sensorAdapter e) = true /\
  state during = MotionEngineState.paused /\ samePipeline e during /\
  SquatDetector.getRepCount (detector (fst (resume quietCallbacks during))) = 0%nat.
Proof.
  intros e rs during.
  assert (H1 : state e = MotionEngineState.active) by (vm_compute; reflexivity).
  assert (H2 : SensorAdapter.subscribed (sensorAdapter e) = true) by (vm_compute; reflexivity).
  pose proof (pause_suspends_processing production quietCallbacks e rs H1 H2) as T.
  cbv zeta in T. destruct T as (_ & (T1 & T2 & _) & (_ & _ & (_ & T3 & _) & _)).
  split; [exact H1|]. split; [exact H2|]. split; [exact T1|]. split; [exact T2|].
  fold during in T3. rewrite T3. vm_compute. reflexivity.
Defined.

(** The graph buffer after one more sample. *)
Lemma addToRecentData_length e data :
  (length (recentData e) <= MAX_RECENT_DATA)%nat ->
  (length (recentData (addToRecentData e data)) <= MAX_RECENT_DATA)%nat.
Proof.
  intros H. unfold addToRecentData. cbn [recentData with_recentData].
  destruct (Nat.ltb_spec MAX_RECENT_DATA (length (recentData e ++ [data]))) as [L|L].
  - rewrite length_app in L. cbn [length] in L.
    destruct (recentData e ++ [data]) eqn:E.
    + destruct (recentData e); discriminate.
    + cbn [tl]. assert (E' : length (recentData e ++ [data]) = S (length l)) by (rewrite E; reflexivity).
      rewrite length_app in E'. cbn [length] in E'. lia.
  - exact L.
Qed.

(** What one sample leaves untouched, and the bounds it keeps. *)
Lemma handleSensorData_keeps stages cbs e raw :
  let e' := fst (handleSensorData stages cbs e raw) in
  config e' = config e /\ scorer e' = scorer e /\
  ((state e' = state e /\ sensorAdapter e' = sensorAdapter e) \/
   (state e' = MotionEngineState.stopped /\
    sensorAdapter e' = SensorAdapter.stop (sensorAdapter e))) /\
  ((consecutivePipelineErrors e <= MAX_CONSECUTIVE_ERRORS)%nat ->
   (consecutivePipelineErrors e' <= MAX_CONSECUTIVE_ERRORS)%nat) /\
  ((length (recentData e) <= MAX_RECENT_DATA)%nat ->
   (length (recentData e') <= MAX_RECENT_DATA)%nat).
Proof.
  cbv zeta. unfold handleSensorData.
  destruct (MotionEngineState.eqb (state e) MotionEngineState.active) eqn:Hs; cbn [negb];
    [|cbn; repeat split; try (left; split; reflexivity); auto].
  assert (Ha : state e = MotionEngineState.active) by (destruct (state e); try discriminate; reflexivity).
  destruct (Nat.leb_spec MAX_CONSECUTIVE_ERRORS (consecutivePipelineErrors e)) as [L|L].
  - unfold stop. rewrite Ha.
    pose proof (setState_fields cbs (with_sensorAdapter e (SensorAdapter.stop (sensorAdapter e)))
                  MotionEngineState.stopped) as F. cbv zeta in F.
    destruct (setState cbs _ MotionEngineState.stopped) as [e1 [u|err]]; cbn [fst snd] in *;
      destruct F as (F1 & F2 & F3 & F4 & F5 & F6 & F7 & F8 & F9 & F10 & F11 & F12 & F13);
      cbn [invoked config scorer state sensorAdapter consecutivePipelineErrors recentData];
      rewrite F2, F6, F1, F3, F11, F12; cbn; repeat split; auto.
  - destruct (process stages (signalProcessor e) raw) as [sp [p|err]].
    + pose proof (addToRecentData_length (with_signalProcessor e sp) p) as HR.
      cbn [recentData with_signalProcessor] in HR.
      destruct (detect stages (detector (addToRecentData (with_signalProcessor e sp) p)) p)
        as [det [r|err]].
      * assert (K : forall e4,
          config e4 = config e -> scorer e4 = scorer e -> state e4 = state e ->
          sensorAdapter e4 = sensorAdapter e ->
          recentData e4 = recentData (addToRecentData (with_signalProcessor e sp) p) ->
          config (fst (with_errors e4 0%nat, @Normal unit tt)) = config e /\
          scorer (fst (with_errors e4 0%nat, @Normal unit tt)) = scorer e /\
          ((state (fst (with_errors e4 0%nat, @Normal unit tt)) = state e /\
            sensorAdapter (fst (with_errors e4 0%nat, @Normal unit tt)) = sensorAdapter e) \/
           (state (fst (with_errors e4 0%nat, @Normal unit tt)) = MotionEngineState.stopped /\
            sensorAdapter (fst (with_errors e4 0%nat, @Normal unit tt))
            = SensorAdapter.stop (sensorAdapter e))) /\
          ((consecutivePipelineErrors e <= MAX_CONSECUTIVE_ERRORS)%nat ->
           (consecutivePipelineErrors (fst (with_errors e4 0%nat, @Normal unit tt))
            <= MAX_CONSECUTIVE_ERRORS)%nat) /\
          ((length (recentData e) <= MAX_RECENT_DATA)%nat ->
           (length (recentData (fst (with_errors e4 0%nat, @Normal unit tt)))
            <= MAX_RECENT_DATA)%nat)).
        { intros e4 K1 K2 K3 K4 K5. cbn. rewrite K1, K2, K3, K4, K5.
          repeat split; auto; try (intros; unfold MAX_CONSECUTIVE_ERRORS in *; lia). }
        destruct r as [rep|]; [destruct (DetectedRep.isValid rep)|]; try (apply K; reflexivity).
        apply K;
          (unfold scoreAndNotify;
           destruct (score stages _ _); [destruct (onRepDetected cbs _)|]; reflexivity).
      * cbn. repeat split; auto; try (intros; unfold MAX_CONSECUTIVE_ERRORS in *; lia).
    + cbn. repeat split; auto; try (intros; unfold MAX_CONSECUTIVE_ERRORS in *; lia).
Qed.

Lemma invariant_perform cfg stages cbs e c :
  engineInvariant cfg e -> engineInvariant cfg (perform stages cbs e c).
Proof.
  intros (I1 & I2 & I3 & I4 & I5 & I6). unfold engineInvariant.
  destruct c as [platform now subscribedAt| | | |update|now x y z]; cbn [perform].
  - destruct (MotionEngineState.eqb (state e) MotionEngineState.active) eqn:Hs.
    + assert (Ha : state e = MotionEngineState.active)
        by (destruct (state e); try discriminate; reflexivity).
      unfold start. rewrite Ha. cbn [fst]. repeat split; assumption.
    + assert (Hna : state e <> MotionEngineState.active) by (intros H; rewrite H in Hs; discriminate).
      destruct (start_cases platform now subscribedAt cbs e Hna) as ((S1 & S2 & S3 & _) & C); cbv zeta in C.
      rewrite S2, S3. unfold isRunning.
      destruct C as [C|[C|C]].
      * destruct C as (C1 & _ & C3 & C4 & C5). rewrite C1, C3, C4, C5.
        repeat split; try assumption. discriminate.
      * destruct C as (C1 & _ & C3 & C4 & C5). rewrite C1, C3, C4.
        split; [discriminate|]. split; [|repeat split; try assumption; cbn; lia].
        destruct C5 as [C5|[_ C5]]; rewrite C5; [assumption|reflexivity].
      * destruct C as (C1 & _ & _ & _ & _ & C6 & _ & _ & C9 & C10 & _). rewrite C6, C9, C10.
        repeat split; try assumption; cbn; lia.
  - unfold pause. destruct (state e) eqn:Hs; cbn [fst]; try (repeat split; assumption).
    destruct (setState_fields cbs e MotionEngineState.paused)
      as (F1 & _ & F3 & _ & _ & F6 & _ & _ & _ & _ & F11 & F12 & _).
    unfold isRunning in *. rewrite F1, F3, F6, F11, F12, Hs in *.
    repeat split; auto.
  - unfold resume. destruct (state e) eqn:Hs; cbn [fst]; try (repeat split; assumption).
    destruct (setState_fields cbs e MotionEngineState.active)
      as (F1 & _ & F3 & _ & _ & F6 & _ & _ & _ & _ & F11 & F12 & _).
    unfold isRunning in *. rewrite F1, F3, F6, F11, F12, Hs in *.
    repeat split; auto.
  - unfold stop. destruct (state e) eqn:Hs; cbn [fst]; try (repeat split; assumption).
    all: destruct (setState_fields cbs (with_sensorAdapter e (SensorAdapter.stop (sensorAdapter e)))
                     MotionEngineState.stopped)
        as (F1 & _ & F3 & _ & _ & F6 & _ & _ & _ & _ & F11 & F12 & _);
      unfold isRunning; rewrite F1, F3, F6, F11, F12; cbn;
      repeat split; try assumption; discriminate.
  - unfold setConfig. destruct (p_detectionConfig update); cbn; repeat split; auto.
  - destruct (SensorAdapter.subscribed (sensorAdapter e)) eqn:Hsub; [|repeat split; auto; congruence].
    unfold onSensorData, SensorAdapter.receive.
    set (a := SensorAdapter.addToBuffer (sensorAdapter e) _).
    assert (A1 : SensorAdapter.isActive a = SensorAdapter.isActive (sensorAdapter e)) by reflexivity.
    assert (A2 : SensorAdapter.subscribed a = SensorAdapter.subscribed (sensorAdapter e)) by reflexivity.
    assert (A3 : SensorAdapter.config a = SensorAdapter.config (sensorAdapter e)) by reflexivity.
    destruct (handleSensorData_keeps stages cbs (with_sensorAdapter e a)
                (AccelerometerData.mk x y z (now - SensorAdapter.sessionStartTime (sensorAdapter e))))
      as (K1 & K2 & K3 & K4 & K5). cbv zeta in *.
    cbn [config scorer state sensorAdapter consecutivePipelineErrors recentData with_sensorAdapter]
      in K1, K2, K3, K4, K5.
    rewrite K2. unfold isRunning, SensorAdapter.isRunning in *.
    destruct K3 as [[K3 K3']|[K3 K3']]; rewrite K3, K3'.
    + rewrite A1, A2, A3. repeat split; auto; congruence.
    + cbn. repeat split; auto; discriminate.
Qed.

(** X9: whatever is done with an engine after its construction (calls of
    its methods in any order, each running to completion before the next,
    readings, failing stages, throwing callbacks), a running engine holds the accelerometer subscription, the
    error counter never exceeds the breaker limit, the graph buffer never
    holds more than 60 samples, and the scoring weights and the adapter's
    sampling rate and buffer size stay those of the construction:
    [setConfig] never reaches them. *)
Theorem engine_invariants (cfg : MotionEngineConfig) (e0 : MotionEngine.t)
  (stages : Stages) (cbs : MotionEngineCallbacks) (script : list Call) :
  constructor cfg = Normal e0 ->
  engineInvariant cfg (session stages cbs e0 script).
Proof.
  intros Hc.
  assert (H0 : engineInvariant cfg e0).
  { unfold constructor in Hc.
    destruct (SignalProcessor.constructor _) as [sp|err]; [|discriminate].
    cbn in Hc. injection Hc as <-. unfold engineInvariant, isRunning. cbn.
    repeat split; try lia; discriminate. }
  clear Hc. unfold session. revert e0 H0.
  induction script as [|c rest IH]; intros e H; [exact H|].
  cbn [fold_left]. apply IH. apply invariant_perform. exact H.
Qed.

Lemma engine_invariants_witness :
  exists e0,
    constructor (DEFAULT_MOTION_CONFIG false) = Normal e0 /\
    engineInvariant (DEFAULT_MOTION_CONFIG false)
      (session brokenProcessor listenerFailsOnStop e0
         [CallStart granted 0 3; Reading 10 0 0 1; CallPause; CallSetConfig
            (mkPartialConfig None (Some strictConfig) None); CallResume; CallStop]).
Proof.
  eexists. split; [reflexivity|].
  apply (engine_invariants (DEFAULT_MOTION_CONFIG false)). reflexivity.
Defined.

End MotionEngineLifecycle.

(** ** Signs and NaN through the binary64 operations *)

Local Open Scope Z_scope.

Lemma shr_1_nonneg mrs : 0 <= shr_m mrs -> 0 <= shr_m (shr_1 mrs).
Proof. destruct mrs as [m r s]. destruct m as [|[p|p|]|p]; cbn; lia. Qed.

Lemma shr_nonneg mrs e n : 0 <= shr_m mrs -> 0 <= shr_m (fst (shr mrs e n)).
Proof.
  intros H. unfold shr. destruct n as [|p|p]; cbn [fst]; try assumption.
  rewrite iter_pos_nat. induction (Pos.to_nat p) as [|k IH]; [exact H|].
  cbn [Nat.iter]. apply shr_1_nonneg. exact IH.
Qed.

Lemma shr_record_of_loc_m m l : shr_m (shr_record_of_loc m l) = m.
Proof. destruct l as [|[| |]]; reflexivity. Qed.

Lemma round_nearest_even_nonneg m l : 0 <= m -> 0 <= round_nearest_even m l.
Proof.
  intros H. destruct l as [|[| |]]; cbn [round_nearest_even]; try lia.
  destruct (Z.even m); lia.
Qed.

(** Whatever the location, rounding a non-negative mantissa gives a number
    of the requested sign. *)
Lemma binary_round_aux_sign s m e l : 0 <= m ->
  let r := binary_round_aux prec emax s m e l in
  not_nan r = true /\ (s = false -> 0 <= xval emax B64 r) /\ (s = true -> xval emax B64 r <= 0).
Proof.
  intros Hm. cbv zeta. unfold binary_round_aux, shr_fexp.
  pose proof (shr_nonneg (shr_record_of_loc m l) e
                (SpecFloat.fexp prec emax (Zdigits2 m + e) - e)) as H1.
  rewrite shr_record_of_loc_m in H1. specialize (H1 Hm).
  destruct (shr (shr_record_of_loc m l) e _) as [mrs' e']. cbn [fst] in H1.
  pose proof (round_nearest_even_nonneg (shr_m mrs') (loc_of_shr_record mrs') H1) as H2.
  set (m2 := round_nearest_even (shr_m mrs') (loc_of_shr_record mrs')) in *.
  pose proof (shr_nonneg (shr_record_of_loc m2 loc_Exact) e'
                (SpecFloat.fexp prec emax (Zdigits2 m2 + e') - e')) as H3.
  rewrite shr_record_of_loc_m in H3. specialize (H3 H2).
  destruct (shr (shr_record_of_loc m2 loc_Exact) e' _) as [mrs'' e'']. cbn [fst] in H3.
  pose proof (G Omega_pos) as HO.
  destruct (shr_m mrs'') as [|p|p]; [| |lia].
  - cbn. repeat split; intros; lia.
  - assert (0 <= Z.pos p * 2 ^ (e'' - B64)) by (apply Z.mul_nonneg_nonneg; [lia|apply Z.pow_nonneg; lia]).
    destruct (e'' <=? emax - prec); cbn [not_nan xval];
      (split; [reflexivity|]); split; intros ->; cbn [sgn]; lia.
Qed.

Lemma fnum_false x : fnum x = false -> Prim2SF x = S754_nan.
Proof. unfold fnum. destruct (Prim2SF x); try discriminate. reflexivity. Qed.

Lemma mul_nan_l x y : fnum x = false -> fnum (x * y)%float = false.
Proof. intros H. unfold fnum. rewrite mul_spec, (fnum_false x H). reflexivity. Qed.

Lemma mul_nan_r x y : fnum y = false -> fnum (x * y)%float = false.
Proof.
  intros H. unfold fnum. rewrite mul_spec, (fnum_false y H).
  destruct (Prim2SF x); reflexivity.
Qed.

Lemma add_nan_l x y : fnum x = false -> fnum (x + y)%float = false.
Proof. intros H. unfold fnum. rewrite add_spec, (fnum_false x H). reflexivity. Qed.

Lemma add_nan_r x y : fnum y = false -> fnum (x + y)%float = false.
Proof.
  intros H. unfold fnum. rewrite add_spec, (fnum_false y H).
  destruct (Prim2SF x); reflexivity.
Qed.

Lemma sub_nan_l x y : fnum x = false -> fnum (x - y)%float = false.
Proof. intros H. unfold fnum. rewrite sub_spec, (fnum_false x H). reflexivity. Qed.

Lemma abs_nan x : fnum x = false -> fnum (abs x) = false.
Proof. intros H. unfold fnum. rewrite abs_spec, (fnum_false x H). reflexivity. Qed.

Lemma sqrt_nan x : fnum x = false -> fnum (sqrt x) = false.
Proof. intros H. unfold fnum. rewrite sqrt_spec, (fnum_false x H). reflexivity. Qed.

(** A square is a non-negative number. *)
Lemma mul_self_nonneg x : fnum x = true -> fnum (x * x)%float = true /\ 0 <= fval (x * x)%float.
Proof.
  intros Nx. unfold fnum, fval in *. rewrite mul_spec.
  pose proof (Prim2SF_valid x) as V.
  pose proof (G Omega_pos) as HO.
  destruct (Prim2SF x) as [s|s| |s m e]; try discriminate.
  - destruct s; cbn; split; (reflexivity || lia).
  - destruct s; cbn; split; (reflexivity || lia).
  - cbn [SpecFloat.valid_binary] in V.
    pose proof (G bounded_inv m e V) as I. cbv zeta in I.
    destruct (G SFmul_finite_spec s m e s m e) as (m' & e' & _ & Hm & _ & E); [b64_lia|].
    unfold SF64mul. rewrite E, xorb_nilpotent.
    split; [apply (G mk_result_not_nan); assumption|].
    unfold mk_result. destruct m' as [|p|p]; [cbn; lia| |lia].
    assert (0 <= Z.pos p * 2 ^ (e' - B64)) by (apply Z.mul_nonneg_nonneg; [lia|apply Z.pow_nonneg; lia]).
    destruct (e' <=? emax - prec); cbn [xval sgn]; lia.
Qed.

(** So is the sum of two non-negative numbers. *)
Lemma add_nonneg a b :
  fnum a = true -> fnum b = true -> 0 <= fval a -> 0 <= fval b ->
  fnum (a + b)%float = true /\ 0 <= fval (a + b)%float.
Proof.
  intros Na Nb La Lb.
  pose proof (G Omega_pos) as HO.
  destruct (ffin a) eqn:Fa, (ffin b) eqn:Fb.
  - split; [apply add_fnum; assumption|].
    unfold fval, ffin in *. rewrite add_spec.
    rewrite (G SFadd_xval); try apply Prim2SF_valid; try assumption;
      [|rewrite <- add_spec; apply Prim2SF_valid].
    rewrite <- (G cround_0). apply (G cround_mono). lia.
  - unfold fnum, fval, ffin in *. rewrite add_spec.
    destruct (Prim2SF b) as [sb|[|]| |sb mb eb]; try discriminate; cbn [xval sgn] in Lb; try lia.
    destruct (Prim2SF a) as [sa|sa| |sa ma ea]; try discriminate; cbn; split; (reflexivity || lia).
  - unfold fnum, fval, ffin in *. rewrite add_spec.
    destruct (Prim2SF a) as [sa|[|]| |sa ma ea]; try discriminate; cbn [xval sgn] in La; try lia.
    destruct (Prim2SF b) as [sb|sb| |sb mb eb]; try discriminate; cbn; split; (reflexivity || lia).
  - unfold fnum, fval, ffin in *. rewrite add_spec.
    destruct (Prim2SF a) as [sa|[|]| |sa ma ea]; try discriminate; cbn [xval sgn] in La; try lia.
    destruct (Prim2SF b) as [sb|[|]| |sb mb eb]; try discriminate; cbn [xval sgn] in Lb; try lia.
    cbn. split; (reflexivity || lia).
Qed.

Lemma sqrt_fval_nonneg x : 0 <= fval (sqrt x).
Proof.
  unfold fval. rewrite sqrt_spec. unfold SF64sqrt, SFsqrt.
  pose proof (G Omega_pos) as HO.
  destruct (Prim2SF x) as [s|[|]| |[|] m e]; cbn [xval sgn]; try lia.
  unfold SFsqrt_core_binary.
  set (m' := match e - 2 * Z.min _ _ with Z.pos _ => _ | 0 => _ | Z.neg _ => _ end).
  assert (Hm' : 0 <= m').
  { subst m'. destruct (e - 2 * Z.min _ _); try lia. apply Z.shiftl_nonneg. lia. }
  pose proof (Z.sqrtrem_spec m' Hm') as S.
  destruct (Z.sqrtrem m') as [q r].
  apply (binary_round_aux_sign false q); [lia|reflexivity].
Qed.

(** The square root of a non-negative number is a number. *)
Lemma sqrt_of_nonneg v : fnum v = true -> 0 <= fval v -> fnum (sqrt v) = true.
Proof.
  intros Nv Lv. unfold fnum, fval in *. rewrite sqrt_spec. unfold SF64sqrt, SFsqrt.
  pose proof (G Omega_pos) as HO.
  pose proof (Prim2SF_valid v) as V.
  destruct (Prim2SF v) as [s|[|]| |[|] m e]; try discriminate; cbn [xval sgn] in Lv;
    try reflexivity; try lia.
  - cbn [SpecFloat.valid_binary] in V.
    pose proof (G bounded_inv m e V) as I. cbv zeta in I.
    assert (0 < Z.pos m * 2 ^ (e - B64)); [|lia].
    apply Z.mul_pos_pos; [lia|]. apply pow2_pos. b64_lia.
  - unfold SFsqrt_core_binary.
    set (m' := match e - 2 * Z.min _ _ with Z.pos _ => _ | 0 => _ | Z.neg _ => _ end).
    assert (Hm' : 0 <= m').
    { subst m'. destruct (e - 2 * Z.min _ _); try lia. apply Z.shiftl_nonneg. lia. }
    pose proof (Z.sqrtrem_spec m' Hm') as S.
    destruct (Z.sqrtrem m') as [q r].
    apply (binary_round_aux_sign false q). lia.
Qed.

Lemma leb_zero_fval x : (0 <=? x)%float = fnum x && (0 <=? fval x).
Proof. rewrite leb_fval. reflexivity. Qed.

Local Close Scope Z_scope.

(** ** SignalProcessor: magnitudes *)

Section SignalProcessorFacts.

Lemma calculateMagnitude_number x y z :
  isNaN (SignalProcessor.calculateMagnitude x y z) = isNaN x || isNaN y || isNaN z.
Proof.
  unfold SignalProcessor.calculateMagnitude, Math_sqrt, isNaN. rewrite !is_nan_fnum.
  destruct (fnum x) eqn:Nx; cbn [negb orb].
  2:{ rewrite sqrt_nan; [reflexivity|]. do 2 apply add_nan_l. apply mul_nan_l. exact Nx. }
  destruct (fnum y) eqn:Ny; cbn [negb orb].
  2:{ rewrite sqrt_nan; [reflexivity|]. apply add_nan_l, add_nan_r, mul_nan_l. exact Ny. }
  destruct (fnum z) eqn:Nz; cbn [negb orb].
  2:{ rewrite sqrt_nan; [reflexivity|]. apply add_nan_r, mul_nan_l. exact Nz. }
  destruct (mul_self_nonneg x Nx) as [X1 X2].
  destruct (mul_self_nonneg y Ny) as [Y1 Y2].
  destruct (mul_self_nonneg z Nz) as [Z1 Z2].
  destruct (add_nonneg _ _ X1 Y1 X2 Y2) as [A1 A2].
  destruct (add_nonneg _ _ A1 Z1 A2 Z2) as [B1 B2].
  rewrite (sqrt_of_nonneg _ B1 B2). reflexivity.
Qed.

Lemma calculateMagnitude_nonneg x y z :
  (0 <=? SignalProcessor.calculateMagnitude x y z)
  = negb (isNaN (SignalProcessor.calculateMagnitude x y z)).
Proof.
  unfold isNaN. rewrite is_nan_fnum, negb_involutive, leb_zero_fval.
  unfold SignalProcessor.calculateMagnitude, Math_sqrt.
  pose proof (sqrt_fval_nonneg (x * x + y * y + z * z)) as H.
  apply Z.leb_le in H. rewrite H. apply andb_true_r.
Qed.

(** X10: the magnitude of a sample is never negative: it is NaN exactly when
    one of the three axis readings is NaN, and otherwise a number that is at
    least 0 (possibly +Infinity).  The filtered magnitude likewise is NaN or
    at least 0.  The raw readings and the timestamp pass through unchanged,
    and on a processor without history (new or reset) the filtered values
    are the raw ones, so both magnitudes agree. *)
Theorem magnitude_is_nan_or_nonnegative (sp : SignalProcessor.t) (raw : AccelerometerData.t) :
  let p := snd (SignalProcessor.process sp raw) in
  (isNaN (ProcessedSensorData.magnitude p)
   = isNaN (AccelerometerData.x raw) || isNaN (AccelerometerData.y raw)
     || isNaN (AccelerometerData.z raw) /\
   (0 <=? ProcessedSensorData.magnitude p) = negb (isNaN (ProcessedSensorData.magnitude p)) /\
   (0 <=? ProcessedSensorData.filteredMagnitude p)
   = negb (isNaN (ProcessedSensorData.filteredMagnitude p))) /\
  (ProcessedSensorData.x p = AccelerometerData.x raw /\
   ProcessedSensorData.y p = AccelerometerData.y raw /\
   ProcessedSensorData.z p = AccelerometerData.z raw /\
   ProcessedSensorData.timestamp p = AccelerometerData.timestamp raw) /\
  SignalProcessor.isReady (fst (SignalProcessor.process sp raw)) = true /\
  (SignalProcessor.isReady sp = false ->
   ProcessedSensorData.filteredX p = AccelerometerData.x raw /\
   ProcessedSensorData.filteredY p = AccelerometerData.y raw /\
   ProcessedSensorData.filteredZ p = AccelerometerData.z raw /\
   ProcessedSensorData.filteredMagnitude p = ProcessedSensorData.magnitude p).
Proof.
  intros p. subst p. unfold SignalProcessor.process, SignalProcessor.isReady, LowPassFilter.isReady.
  unfold LowPassFilter.filter.
  destruct (LowPassFilter.isInitialized (SignalProcessor.filter sp)) eqn:Hi; cbn [negb fst snd];
    cbn [ProcessedSensorData.magnitude ProcessedSensorData.filteredMagnitude
         ProcessedSensorData.x ProcessedSensorData.y ProcessedSensorData.z
         ProcessedSensorData.timestamp ProcessedSensorData.filteredX
         ProcessedSensorData.filteredY ProcessedSensorData.filteredZ
         SignalProcessor.filter LowPassFilter.isInitialized];
    (split; [split; [apply calculateMagnitude_number|split; apply calculateMagnitude_nonneg]|]);
    (split; [repeat split|]); (split; [reflexivity|]); intros H; try discriminate; repeat split.
Qed.

End SignalProcessorFacts.

(** ** ScoringEngine: technique labels and weights *)

Section ScoringEngineFacts.

Lemma leb_nan_r a b : fnum b = false -> (a <=? b) = false.
Proof. intros H. rewrite leb_fval, H. apply andb_false_r || (destruct (fnum a); reflexivity). Qed.

Lemma ltb_nan_r a b : fnum b = false -> (a <? b) = false.
Proof. intros H. rewrite ltb_fval, H. destruct (fnum a); reflexivity. Qed.

Lemma getScoreTechnique_not_poor v : (0 <=? v) = true -> getScoreTechnique v <> poor.
Proof.
  intros H. unfold getScoreTechnique, ge. rewrite H.
  destruct (85 <=? v), (70 <=? v), (50 <=? v); discriminate.
Qed.

Lemma default_overall_range f :
  let d := ScoringEngine.sanitizeScore (RepFeatures.depthScore f) in
  let s := ScoringEngine.sanitizeScore (RepFeatures.stabilityScore f) in
  let c := ScoringEngine.sanitizeScore (RepFeatures.rangeScore f) in
  in_0_100 (d * 0.5 + s * 0.3 + c * 0.2) = true /\
  in_0_100 (RepScore.overall (ScoringEngine.score ScoringEngine.default f)) = true.
Proof.
  cbv zeta.
  assert (H : in_0_100 (ScoringEngine.sanitizeScore (RepFeatures.depthScore f) * 0.5
                        + ScoringEngine.sanitizeScore (RepFeatures.stabilityScore f) * 0.3
                        + ScoringEngine.sanitizeScore (RepFeatures.rangeScore f) * 0.2) = true)
    by (apply weighted_sum_range; apply sanitizeScore_range).
  split; [exact H|]. apply Math_round_range. exact H.
Qed.

(** X11: with the default weights the technique label is decided on the
    weighted sum before it is rounded, and it is never 'poor': the sum is at
    least 0, which already earns 'acceptable'.  Since the reported overall
    score is the rounded sum, a repetition can be reported with 85 points
    and still be labelled 'optimal'. *)
Theorem default_score_is_never_poor (f : RepFeatures.t) :
  let d := ScoringEngine.sanitizeScore (RepFeatures.depthScore f) in
  let s := ScoringEngine.sanitizeScore (RepFeatures.stabilityScore f) in
  let c := ScoringEngine.sanitizeScore (RepFeatures.rangeScore f) in
  let r := ScoringEngine.score ScoringEngine.default f in
  RepScore.technique r = getScoreTechnique (d * 0.5 + s * 0.3 + c * 0.2) /\
  RepScore.technique r <> poor /\
  (ge (d * 0.5 + s * 0.3 + c * 0.2) 85 = true <-> RepScore.technique r = excellent) /\
  (let g := RepFeatures.mk 0 0 0 84.6 84.6 84.6 0 0 0 0 in
   RepScore.overall (ScoringEngine.score ScoringEngine.default g) = 85 /\
   RepScore.technique (ScoringEngine.score ScoringEngine.default g) = optimal /\
   getScoreTechnique 85 = excellent).
Proof.
  intros d s c r.
  destruct (default_overall_range f) as [H _]. fold d s c in H.
  split; [reflexivity|]. split; [|split].
  - apply getScoreTechnique_not_poor.
    unfold in_0_100 in H. apply andb_prop in H as [H _]. exact H.
  - subst r. unfold ScoringEngine.score, ScoringEngine.calculateWeightedScore.
    cbn [RepScore.technique ScoringEngine.default ScoringEngine.weights ScoringEngine.depth
         ScoringEngine.stability ScoringEngine.consistency ScoringEngine.DEFAULT_WEIGHTS].
    fold d s c. unfold getScoreTechnique.
    destruct (ge (d * 0.5 + s * 0.3 + c * 0.2) 85); [split; reflexivity|].
    split; [discriminate|].
    destruct (ge _ 70); [discriminate|]. destruct (ge _ 50); [discriminate|].
    destruct (ge _ 0); discriminate.
  - vm_compute. repeat split.
Qed.

(** X12: the validation of scoring weights lets NaN through: a set of weights
    with a NaN component is accepted by the constructor and by
    [setWeights], and the engine then reports NaN as the overall score of
    every repetition, labelled 'poor'. *)
Theorem nan_weights_pass_validation (w : ScoringEngine.ScoringWeights) (e : ScoringEngine.t)
  (f : RepFeatures.t) :
  isNaN (ScoringEngine.depth w) = true \/ isNaN (ScoringEngine.stability w) = true
  \/ isNaN (ScoringEngine.consistency w) = true ->
  ScoringEngine.constructor w = Normal (ScoringEngine.mk w) /\
  ScoringEngine.setWeights e w = Normal (ScoringEngine.mk w) /\
  isNaN (RepScore.overall (ScoringEngine.score (ScoringEngine.mk w) f)) = true /\
  RepScore.technique (ScoringEngine.score (ScoringEngine.mk w) f) = poor.
Proof.
  unfold isNaN. rewrite !is_nan_fnum. intros H.
  assert (Hsum : fnum (ScoringEngine.depth w + ScoringEngine.stability w
                       + ScoringEngine.consistency w) = false).
  { destruct H as [H|[H|H]]; apply negb_true_iff in H.
    - apply add_nan_l, add_nan_l. exact H.
    - apply add_nan_l, add_nan_r. exact H.
    - apply add_nan_r. exact H. }
  assert (Hval : ScoringEngine.validateWeights w = Normal tt).
  { unfold ScoringEngine.validateWeights, gt, Math_abs.
    rewrite ltb_nan_r; [reflexivity|]. apply abs_nan, sub_nan_l. exact Hsum. }
  assert (Hov : fnum (ScoringEngine.calculateWeightedScore (ScoringEngine.mk w)
                        (ScoringEngine.sanitizeScore (RepFeatures.depthScore f))
                        (ScoringEngine.sanitizeScore (RepFeatures.stabilityScore f))
                        (ScoringEngine.sanitizeScore (RepFeatures.rangeScore f))) = false).
  { unfold ScoringEngine.calculateWeightedScore. cbn [ScoringEngine.weights].
    destruct H as [H|[H|H]]; apply negb_true_iff in H.
    - apply add_nan_l, add_nan_l, mul_nan_r. exact H.
    - apply add_nan_l, add_nan_r, mul_nan_r. exact H.
    - apply add_nan_r, mul_nan_r. exact H. }
  unfold ScoringEngine.constructor, ScoringEngine.setWeights. rewrite Hval.
  split; [reflexivity|]. split; [reflexivity|].
  unfold ScoringEngine.score. cbn [RepScore.overall RepScore.technique].
  split.
  - unfold Math_round. rewrite (fnum_false _ Hov). rewrite Hov. reflexivity.
  - unfold getScoreTechnique, ge. rewrite !leb_nan_r by exact Hov. reflexivity.
Qed.

Lemma nan_weights_pass_validation_witness :
  ScoringEngine.constructor (ScoringEngine.mkWeights nan 0.3 0.2)
  = Normal (ScoringEngine.mk (ScoringEngine.mkWeights nan 0.3 0.2)).
Proof.
  exact (proj1 (nan_weights_pass_validation (ScoringEngine.mkWeights nan 0.3 0.2)
                  ScoringEngine.default (RepFeatures.mk 0 0 0 0 0 0 0 0 0 0)
                  (or_introl eq_refl))).
Defined.

End ScoringEngineFacts.

(** ** MotionEngine: the production pipeline *)

Section MotionEngineProduction.
Import MotionEngine.

Lemma lastn_short {A} n (l : list A) : (length l <= n)%nat -> lastn n l = l.
Proof. intros H. unfold lastn. replace (length l - n)%nat with 0%nat by lia. reflexivity. Qed.

Lemma lastn_length {A} n (l : list A) : (length (lastn n l) <= n)%nat.
Proof. unfold lastn. rewrite length_skipn. lia. Qed.

Lemma lastn_snoc {A} n (l : list A) x : (length l <= n)%nat ->
  (if (n <? length (l ++ [x]))%nat then tl (l ++ [x]) else l ++ [x]) = lastn n (l ++ [x]).
Proof.
  intros H. unfold lastn. rewrite length_app. cbn [length].
  destruct (Nat.ltb_spec n (length l + 1)) as [L|L].
  - replace (length l + 1 - n)%nat with 1%nat by lia. destruct (l ++ [x]); reflexivity.
  - replace (length l + 1 - n)%nat with 0%nat by lia. reflexivity.
Qed.

Lemma lastn_app {A} n (l m : list A) : lastn n (lastn n l ++ m) = lastn n (l ++ m).
Proof.
  unfold lastn. rewrite !length_app, length_skipn.
  rewrite !skipn_app, skipn_skipn, length_skipn.
  destruct (Nat.le_gt_cases (length l) n) as [L|L].
  - replace (length l - n)%nat with 0%nat by lia. rewrite !Nat.sub_0_r, Nat.add_0_r. reflexivity.
  - f_equal.
    + destruct (Nat.le_gt_cases (length m) n) as [M|M].
      * f_equal. lia.
      * rewrite !skipn_all2 by lia. reflexivity.
    + f_equal. lia.
Qed.

(** One sample through the production pipeline of an active engine. *)
Lemma production_step cbs e raw :
  state e = MotionEngineState.active ->
  (consecutivePipelineErrors e < MAX_CONSECUTIVE_ERRORS)%nat ->
  let sp := fst (SignalProcessor.process (signalProcessor e) raw) in
  let p := snd (SignalProcessor.process (signalProcessor e) raw) in
  let det := fst (SquatDetector.detect (detector e) p) in
  let emitted := match snd (SquatDetector.detect (detector e) p) with
                 | Some rep => [scored (scorer e) rep]
                 | None => []
                 end in
  fst (handleSensorData production cbs e raw)
  = mk (config e) (sensorAdapter e) sp det (scorer e) MotionEngineState.active
       (sessionStartTime e) (lastTimestamp (lastRepTimestamp e) emitted)
       (addScores (totalScore e) emitted) (length emitted + scoreCount e)
       (if (MAX_RECENT_DATA <? length (recentData e ++ [p]))%nat
        then tl (recentData e ++ [p]) else recentData e ++ [p])
       0 (calls e ++ map RepDetected emitted).
Proof.
  intros Hs Hn. cbv zeta.
  unfold handleSensorData. rewrite Hs. cbn [MotionEngineState.eqb negb].
  destruct (Nat.leb_spec MAX_CONSECUTIVE_ERRORS (consecutivePipelineErrors e)); [lia|].
  unfold production at 1. cbn [process].
  destruct (SignalProcessor.process (signalProcessor e) raw) as [sp p]. cbn [fst snd].
  unfold production at 1. cbn [detect addToRecentData with_recentData with_signalProcessor detector].
  pose proof (detect_counts (detector e) p) as Hd.
  destruct (SquatDetector.detect (detector e) p) as [det [rep|]]; cbn [fst snd] in *.
  - destruct Hd as (_ & Hv & _). rewrite Hv.
    unfold scoreAndNotify, production. cbn [score].
    destruct (onRepDetected cbs _); cbn -[Nat.ltb ScoringEngine.score];
      unfold with_errors, invoked, with_metrics, with_detector, addToRecentData, with_recentData,
        with_signalProcessor, scored;
      cbn [config sensorAdapter signalProcessor detector scorer state sessionStartTime
           lastRepTimestamp totalScore scoreCount recentData consecutivePipelineErrors calls];
      rewrite ?Hs; reflexivity.
  - cbn -[Nat.ltb].
    unfold with_errors, with_detector, addToRecentData, with_recentData, with_signalProcessor.
    cbn [config sensorAdapter signalProcessor detector scorer state sessionStartTime
         lastRepTimestamp totalScore scoreCount recentData consecutivePipelineErrors calls].
    rewrite ?Hs, ?app_nil_r. reflexivity.
Qed.

Lemma addScores_app start l m : addScores start (l ++ m) = addScores (addScores start l) m.
Proof. unfold addScores. apply fold_left_app. Qed.

Lemma lastTimestamp_app start l m :
  lastTimestamp start (l ++ m) = lastTimestamp (lastTimestamp start l) m.
Proof. unfold lastTimestamp. apply fold_left_app. Qed.

Lemma production_run cbs samples : forall e,
  state e = MotionEngineState.active ->
  (consecutivePipelineErrors e < MAX_CONSECUTIVE_ERRORS)%nat ->
  (length (recentData e) <= MAX_RECENT_DATA)%nat ->
  let processed := snd (processAll (signalProcessor e) samples) in
  let reps := map (scored (scorer e)) (snd (SquatDetector.feed (detector e) processed)) in
  deliver production cbs e samples
  = mk (config e) (sensorAdapter e) (fst (processAll (signalProcessor e) samples))
       (fst (SquatDetector.feed (detector e) processed)) (scorer e) MotionEngineState.active
       (sessionStartTime e) (lastTimestamp (lastRepTimestamp e) reps)
       (addScores (totalScore e) reps) (length reps + scoreCount e)
       (lastn MAX_RECENT_DATA (recentData e ++ processed))
       (match samples with [] => consecutivePipelineErrors e | _ => 0%nat end)
       (calls e ++ map RepDetected reps).
Proof.
  unfold deliver. induction samples as [|raw rest IH]; intros e Hs Hn Hr.
  - cbn. rewrite !app_nil_r, lastn_short by assumption. rewrite <- Hs. destruct e; reflexivity.
  - cbn [fold_left].
    pose proof (production_step cbs e raw Hs Hn) as St. cbv zeta in St.
    set (e1 := fst (handleSensorData production cbs e raw)) in *.
    assert (H1 : state e1 = MotionEngineState.active) by (rewrite St; reflexivity).
    assert (H2 : (consecutivePipelineErrors e1 < MAX_CONSECUTIVE_ERRORS)%nat)
      by (rewrite St; cbn; unfold MAX_CONSECUTIVE_ERRORS; lia).
    assert (H3 : (length (recentData e1) <= MAX_RECENT_DATA)%nat).
    { rewrite St. cbn [recentData]. rewrite lastn_snoc by assumption. apply lastn_length. }
    rewrite (IH e1 H1 H2 H3). clear IH.
    assert (Erec : recentData e1 = lastn MAX_RECENT_DATA (recentData e ++ [snd (SignalProcessor.process (signalProcessor e) raw)])).
    { rewrite St. cbn [recentData]. apply lastn_snoc. assumption. }
    rewrite Erec, lastn_app, <- app_assoc. cbn [app].
    rewrite St. cbn [config sensorAdapter signalProcessor detector scorer sessionStartTime
                       lastRepTimestamp totalScore scoreCount calls consecutivePipelineErrors].
    cbn [processAll].
    destruct (SignalProcessor.process (signalProcessor e) raw) as [sp p]. cbn [fst snd].
    destruct (processAll sp rest) as [sp2 ps]. cbn [fst snd].
    cbn [SquatDetector.feed].
    destruct (SquatDetector.detect (detector e) p) as [d1 result]. cbn [fst snd].
    destruct (SquatDetector.feed d1 ps) as [d2 later]. cbn [fst snd].
    destruct result as [rep|]; cbn [map length app];
      f_equal; try reflexivity; try lia; try (destruct rest; reflexivity);
      rewrite <- ?app_assoc, ?app_nil_r; reflexivity.
Qed.

End MotionEngineProduction.

Section MotionEngineProductionRun.
Import MotionEngine.

Lemma errorCalls_reps l : errorCalls (map RepDetected l) = [].
Proof. unfold errorCalls. induction l as [|r l IH]; [reflexivity|]. cbn. exact IH. Qed.

(** X13: an active engine with the production pipeline turns a stream of
    samples into callbacks and metrics exactly as the pipeline composes:
    every repetition the detector counts is scored and handed to
    [onRepDetected] exactly once, in order, whether or not the callback
    throws; the reported repetitions are valid, numbered consecutively, and
    carry an overall score between 0 and 100 with a label other than 'poor';
    the score count and the detector's counter grow by the number of
    repetitions; and the error counter stays at 0, so the circuit breaker
    never trips and the engine stays active. *)
Theorem production_reports_each_rep_once (cbs : MotionEngineCallbacks) (e : MotionEngine.t)
  (samples : list AccelerometerData.t) :
  state e = MotionEngineState.active ->
  (consecutivePipelineErrors e < MAX_CONSECUTIVE_ERRORS)%nat ->
  (length (recentData e) <= MAX_RECENT_DATA)%nat ->
  scorer e = ScoringEngine.default ->
  let processed := snd (processAll (signalProcessor e) samples) in
  let counted := snd (SquatDetector.feed (detector e) processed) in
  let reported := map (scored (scorer e)) counted in
  let e' := deliver production cbs e samples in
  (state e' = MotionEngineState.active /\
   (samples <> [] -> consecutivePipelineErrors e' = 0%nat) /\
   errorCalls (calls e') = errorCalls (calls e)) /\
  (calls e' = calls e ++ map RepDetected reported /\
   scoreCount e' = (scoreCount e + length counted)%nat /\
   SquatDetector.getRepCount (detector e')
   = (SquatDetector.getRepCount (detector e) + length counted)%nat /\
   totalScore e' = addScores (totalScore e) reported /\
   lastRepTimestamp e' = lastTimestamp (lastRepTimestamp e) reported) /\
  (map DetectedRep.repNumber reported
   = seq (S (SquatDetector.getRepCount (detector e))) (length counted) /\
   Forall (fun rep =>
             DetectedRep.isValid rep = true /\
             exists sc, DetectedRep.score rep = Some sc /\
                        in_0_100 (RepScore.overall sc) = true /\
                        RepScore.technique sc <> poor) reported).
Proof.
  intros Hs Hn Hr Hsc processed counted reported e'.
  pose proof (production_run cbs samples e Hs Hn Hr) as R. cbv zeta in R.
  fold processed in R. fold counted in R. fold reported in R. fold e' in R.
  destruct (feed_numbers (detector e) processed) as (N1 & N2 & N3).
  fold counted in N1, N2, N3.
  assert (Hlen : length reported = length counted) by (subst reported; apply length_map).
  split; [|split].
  - rewrite R. cbn [state consecutivePipelineErrors calls].
    split; [reflexivity|]. split; [destruct samples; [congruence|reflexivity]|].
    rewrite errorCalls_app.
    rewrite errorCalls_reps. apply app_nil_r.
  - rewrite R. cbn [calls scoreCount detector totalScore lastRepTimestamp].
    split; [reflexivity|]. split; [rewrite Hlen; lia|]. split; [exact N3|]. split; reflexivity.
  - split.
    + subst reported. rewrite map_map. cbn [scored attachScore DetectedRep.repNumber].
      exact N1.
    + subst reported. apply Forall_map. eapply Forall_impl; [|exact N2].
      intros rep Hv. cbn [scored attachScore DetectedRep.isValid DetectedRep.score].
      split; [exact Hv|]. eexists. split; [reflexivity|].
      rewrite Hsc.
      destruct (default_overall_range (DetectedRep.features rep)) as [H1 H2].
      split; [exact H2|].
      apply getScoreTechnique_not_poor.
      unfold in_0_100 in H1. apply andb_prop in H1 as [H1 _]. exact H1.
Qed.

Lemma production_reports_each_rep_once_witness :
  let e := runningEngine listenerFailsOnStop in
  let e' := deliver production listenerFailsOnStop e (squatSamples ++ [completingSample]) in
  state e = MotionEngineState.active /\
  state e' = MotionEngineState.active /\
  scoreCount e' = 1%nat /\
  SquatDetector.getRepCount (detector e') = 1%nat.
Proof.
  intros e e'.
  assert (H1 : state e = MotionEngineState.active) by (vm_compute; reflexivity).
  assert (H2 : (consecutivePipelineErrors e < MAX_CONSECUTIVE_ERRORS)%nat) by (vm_compute; lia).
  assert (H3 : (length (recentData e) <= MAX_RECENT_DATA)%nat) by (vm_compute; lia).
  assert (H4 : scorer e = ScoringEngine.default) by (vm_compute; reflexivity).
  pose proof (production_reports_each_rep_once listenerFailsOnStop e
                (squatSamples ++ [completingSample]) H1 H2 H3 H4) as T.
  cbv zeta in T. destruct T as ((T1 & _) & (_ & T2 & T3 & _) & _).
  split; [exact H1|]. split; [exact T1|].
  split; (etransitivity; [first [exact T2|exact T3]|vm_compute; reflexivity]).
Defined.

(** X14: the graph buffer of an active engine with the production pipeline
    holds exactly the latest 60 processed samples, oldest first: after a
    stream of samples it is the last 60 elements of the former buffer
    followed by the processed stream. *)
Theorem recent_data_is_latest_window (cbs : MotionEngineCallbacks) (e : MotionEngine.t)
  (samples : list AccelerometerData.t) :
  state e = MotionEngineState.active ->
  (consecutivePipelineErrors e < MAX_CONSECUTIVE_ERRORS)%nat ->
  (length (recentData e) <= MAX_RECENT_DATA)%nat ->
  let processed := snd (processAll (signalProcessor e) samples) in
  let e' := deliver production cbs e samples in
  getRecentData e' = lastn MAX_RECENT_DATA (recentData e ++ processed) /\
  length (getRecentData e') = Nat.min MAX_RECENT_DATA (length (recentData e) + length samples) /\
  signalProcessor e' = fst (processAll (signalProcessor e) samples).
Proof.
  intros Hs Hn Hr processed e'.
  pose proof (production_run cbs samples e Hs Hn Hr) as R. cbv zeta in R.
  fold processed in R. fold e' in R.
  assert (Hlen : length processed = length samples).
  { subst processed. clear. generalize (signalProcessor e).
    induction samples as [|raw rest IH]; intros sp; [reflexivity|].
    cbn [processAll]. destruct (SignalProcessor.process sp raw) as [sp1 p].
    specialize (IH sp1). destruct (processAll sp1 rest) as [sp2 ps]. cbn [snd length] in *.
    rewrite IH. reflexivity. }
  unfold getRecentData. rewrite R. cbn [recentData signalProcessor].
  split; [reflexivity|]. split; [|reflexivity].
  unfold lastn. rewrite length_skipn, length_app, Hlen. lia.
Qed.

Lemma recent_data_is_latest_window_witness :
  let e := runningEngine quietCallbacks in
  let samples := repeat (reading 1 0) 100 in
  state e = MotionEngineState.active /\
  length (getRecentData (deliver production quietCallbacks e samples)) = 60%nat.
Proof.
  intros e samples.
  assert (H1 : state e = MotionEngineState.active) by (vm_compute; reflexivity).
  assert (H2 : (consecutivePipelineErrors e < MAX_CONSECUTIVE_ERRORS)%nat) by (vm_compute; lia).
  assert (H3 : (length (recentData e) <= MAX_RECENT_DATA)%nat) by (vm_compute; lia).
  pose proof (recent_data_is_latest_window quietCallbacks e samples H1 H2 H3) as T.
  cbv zeta in T. destruct T as (_ & T2 & _).
  split; [exact H1|]. rewrite T2. vm_compute. reflexivity.
Defined.

End MotionEngineProductionRun.

(** ** Integers as numbers *)

Local Open Scope Z_scope.

Lemma of_Z_fval n : 0 <= n < 2 ^ 63 ->
  fnum (of_Z n) = true /\ fval (of_Z n) = cround prec emax B64 (n * 2 ^ (0 - B64)).
Proof.
  intros Hn. destruct n as [|p|p]; [| |lia].
  - split; [reflexivity|]. rewrite Z.mul_0_l, (G cround_0). reflexivity.
  - unfold of_Z, fnum, fval.
    pose proof (Prim2SF_valid (of_uint63 (Uint63.of_Z (Z.pos p)))) as V.
    rewrite of_uint63_spec in *.
    rewrite Uint63.of_Z_spec in *.
    rewrite Z.mod_small in * by (change Uint63.wB with (2 ^ 63); lia).
    split.
    + apply (G binary_normalize_not_nan). b64_lia.
    + apply (G binary_normalize_xval); [b64_lia|assumption].
Qed.

Lemma fexp_small e : e <= 53 -> emin <= SpecFloat.fexp prec emax e <= 0.
Proof. intros H. unfold SpecFloat.fexp. b64_lia. Qed.

(** Integers below [2^53] are numbers exactly. *)
Lemma of_Z_exact n : 0 <= n < 2 ^ 53 ->
  ffin (of_Z n) = true /\ fval (of_Z n) = n * 2 ^ (0 - B64).
Proof.
  intros Hn.
  destruct (of_Z_fval n) as [N V]; [lia|].
  assert (E : cround prec emax B64 (n * 2 ^ (0 - B64)) = n * 2 ^ (0 - B64)
              /\ n * 2 ^ (0 - B64) < Omega emax B64).
  { destruct (Z.eq_dec n 0) as [->|Hz].
    - rewrite Z.mul_0_l, (G cround_0). split; [reflexivity|apply (G Omega_pos)].
    - assert (HU : 0 < 2 ^ (0 - B64)) by (apply pow2_pos; b64_lia).
      assert (HL : Z.log2 n + 1 <= 53).
      { assert (Z.log2 n < 53) by (apply Z.log2_lt_pow2; lia). lia. }
      set (X := n * 2 ^ (0 - B64)).
      assert (HX : 0 < X) by (unfold X; nia).
      assert (HK : 0 - B64 + emin <= Kof prec emax B64 X <= 0 - B64).
      { unfold Kof, X. rewrite Z.log2_mul_pow2 by b64_lia.
        pose proof (fexp_small (Z.log2 n + 1) HL).
        replace (0 - B64 + Z.log2 n + 1 + B64) with (Z.log2 n + 1) by lia. b64_lia. }
      assert (HR : rnd prec emax B64 X = X).
      { unfold rnd. set (K := Kof prec emax B64 X) in *.
        assert (EX : X = n * 2 ^ (0 - B64 - K) * 2 ^ K).
        { unfold X. rewrite <- Z.mul_assoc, <- Z.pow_add_r by b64_lia.
          do 2 f_equal. lia. }
        rewrite EX at 1. rewrite rne_mult by b64_lia. symmetry. exact EX. }
      assert (HO : X < Omega emax B64).
      { unfold X, Omega.
        assert (2 ^ 53 * 2 ^ (0 - B64) <= 2 ^ (emax - B64)).
        { rewrite <- Z.pow_add_r by b64_lia. apply Z.pow_le_mono_r; b64_lia. }
        nia. }
      split; [|exact HO].
      unfold cround. rewrite (G round_pos) by assumption. rewrite HR.
      pose proof (G clamp_spec X). lia. }
  destruct E as [E HO]. rewrite E in V. split; [|exact V].
  apply ffin_of_bounds; [assumption|].
  rewrite V. assert (0 < 2 ^ (0 - B64)) by (apply pow2_pos; b64_lia). nia.
Qed.

Lemma of_nat_ltb (i j : nat) : Z.of_nat i < 2 ^ 53 -> Z.of_nat j < 2 ^ 53 ->
  (of_Z (Z.of_nat i) <? of_Z (Z.of_nat j))%float = (i <? j)%nat.
Proof.
  intros Hi Hj.
  destruct (of_Z_exact (Z.of_nat i)) as [Fi Vi]; [lia|].
  destruct (of_Z_exact (Z.of_nat j)) as [Fj Vj]; [lia|].
  rewrite ltb_fval, (ffin_fnum _ Fi), (ffin_fnum _ Fj), Vi, Vj. cbn [andb].
  assert (0 < 2 ^ (0 - B64)) by (apply pow2_pos; b64_lia).
  destruct (Nat.ltb_spec i j); [apply Z.ltb_lt|apply Z.ltb_ge]; nia.
Qed.

Lemma of_nat_leb (i j : nat) : Z.of_nat i < 2 ^ 53 -> Z.of_nat j < 2 ^ 53 ->
  (of_Z (Z.of_nat i) <=? of_Z (Z.of_nat j))%float = (i <=? j)%nat.
Proof.
  intros Hi Hj.
  destruct (of_Z_exact (Z.of_nat i)) as [Fi Vi]; [lia|].
  destruct (of_Z_exact (Z.of_nat j)) as [Fj Vj]; [lia|].
  rewrite leb_fval, (ffin_fnum _ Fi), (ffin_fnum _ Fj), Vi, Vj. cbn [andb].
  assert (0 < 2 ^ (0 - B64)) by (apply pow2_pos; b64_lia).
  destruct (Nat.leb_spec i j); [apply Z.leb_le|apply Z.leb_gt]; nia.
Qed.

Local Close Scope Z_scope.

(** ** SensorAdapter: the sample buffer *)

Section SensorAdapterFacts.
Import SensorAdapter.

Lemma addToBuffer_window (N : nat) a data :
  bufferSize (config a) = of_Z (Z.of_nat N) -> (Z.of_nat N < 2 ^ 32)%Z ->
  (length (buffer a) <= N)%nat ->
  buffer (addToBuffer a data) = lastn N (buffer a ++ [data]).
Proof.
  intros HB HN HL. unfold addToBuffer. cbn [buffer].
  rewrite HB. unfold gt. rewrite of_nat_ltb.
  - apply lastn_snoc. assumption.
  - lia.
  - rewrite length_app. cbn [length]. lia.
Qed.

Lemma buffered_fields rs : forall a,
  config (buffered a rs) = config a /\
  sessionStartTime (buffered a rs) = sessionStartTime a /\
  isActive (buffered a rs) = isActive a /\
  subscribed (buffered a rs) = subscribed a.
Proof.
  induction rs as [|[[[now x] y] z] rs IH]; intros a; [repeat split|].
  unfold buffered in *. cbn [fold_left].
  destruct (IH (fst (receive a now x y z))) as (I1 & I2 & I3 & I4).
  rewrite I1, I2, I3, I4. repeat split.
Qed.

(** X15: A buffer sized for [N] samples always holds the latest [N] samples
    the listener received, oldest first, each stamped with the time since
    the session started; it never grows beyond [N]. *)
Theorem sensor_buffer_keeps_latest_samples (N : nat) rs : forall a,
  bufferSize (config a) = of_Z (Z.of_nat N) -> (Z.of_nat N < 2 ^ 32)%Z ->
  (length (buffer a) <= N)%nat ->
  getBuffer (buffered a rs) = lastn N (buffer a ++ stamped a rs) /\
  (getBufferLength (buffered a rs) <= N)%nat.
Proof.
  intros a HB HN HL.
  assert (E : buffer (buffered a rs) = lastn N (buffer a ++ stamped a rs)).
  { revert a HB HN HL.
    induction rs as [|[[[now x] y] z] rs IH]; intros a HB HN HL.
    - cbn. rewrite app_nil_r. symmetry. apply lastn_short. assumption.
    - unfold buffered in *. cbn [fold_left]. unfold receive at 2. cbn [fst].
      rewrite IH.
      + rewrite addToBuffer_window with (N := N) by assumption.
        unfold stamped. cbn [map]. unfold addToBuffer at 1. cbn [sessionStartTime].
        rewrite lastn_app. rewrite <- app_assoc. reflexivity.
      + exact HB.
      + exact HN.
      + rewrite addToBuffer_window with (N := N) by assumption. apply lastn_length. }
  unfold getBuffer, getBufferLength. rewrite E. split; [reflexivity|apply lastn_length].
Qed.

Lemma sensor_buffer_keeps_latest_samples_witness :
  let a := fst (start granted 1000 (constructor (mkConfig 60 3))) in
  let rs := [(1016, 0, 0, 1); (1033, 0, 0.1, 1); (1050, 0, 0.2, 1); (1066, 0, 0.3, 1)] in
  bufferSize (config a) = of_Z (Z.of_nat 3) /\
  getBuffer (buffered a rs)
  = [AccelerometerData.mk 0 0.1 1 33; AccelerometerData.mk 0 0.2 1 50;
     AccelerometerData.mk 0 0.3 1 66].
Proof.
  intros a rs.
  assert (H1 : bufferSize (config a) = of_Z (Z.of_nat 3)) by (vm_compute; reflexivity).
  assert (H2 : (Z.of_nat 3 < 2 ^ 32)%Z) by (vm_compute; reflexivity).
  assert (H3 : (length (buffer a) <= 3)%nat) by (vm_compute; lia).
  split; [exact H1|].
  rewrite (proj1 (sensor_buffer_keeps_latest_samples 3 rs a H1 H2 H3)).
  vm_compute. reflexivity.
Defined.

End SensorAdapterFacts.

(** ** PeakDetector: the extrema it reports *)

Section PeakDetectorMore.
Import PeakDetector.

Lemma adjacent_snoc {A} (R : A -> A -> Prop) (l : list A) x :
  adjacent R (l ++ [x]) <-> adjacent R l /\ match rev l with [] => True | y :: _ => R y x end.
Proof.
  induction l as [|a l IH]; [cbn; tauto|].
  destruct l as [|b l].
  - cbn. tauto.
  - change (adjacent R ((a :: b :: l) ++ [x]))
      with (R a b /\ adjacent R ((b :: l) ++ [x])).
    change (adjacent R (a :: b :: l)) with (R a b /\ adjacent R (b :: l)).
    rewrite IH.
    change (rev (a :: b :: l)) with (rev (b :: l) ++ [a]).
    destruct (rev (b :: l)) as [|y r] eqn:E.
    + apply (f_equal (@length A)) in E. rewrite length_rev in E. discriminate.
    + cbn [app]. tauto.
Qed.

Lemma rev_cons_inv {A} (l : list A) y r : rev l = y :: r -> l = rev r ++ [y].
Proof. intros E. rewrite <- (rev_involutive l), E. reflexivity. Qed.

Lemma removelast_snoc {A} (l : list A) y : removelast (l ++ [y]) = l.
Proof. apply removelast_last. Qed.

Lemma scan_from d (signal stamps : list number) (isValley : bool) n : forall s,
  (1 <= s)%nat -> (s + n < length signal)%nat ->
  let found :=
    flat_map
      (fun i =>
         let current := at_index signal i in
         let previous := at_index signal (i - 1) in
         let next := at_index signal (i + 1) in
         let isExtremum :=
           if isValley then (current <? previous) && (current <? next)
           else gt current previous && gt current next in
         if isExtremum then
           let p := calculateProminence signal i isValley in
           if ge p (prominence (config d)) then
             [Peak.mk current i (at_index stamps i) p]
           else []
         else [])
      (seq s n) in
  Forall (fun p => extremumOf d signal stamps isValley p /\ (s <= Peak.index p)%nat) found /\
  inOrder found.
Proof.
  induction n as [|n IH]; intros s Hs Hn; [split; constructor|].
  cbn zeta. cbn [seq flat_map].
  destruct (IH (S s)) as [F A]; [lia|lia|]. cbn zeta in F, A.
  assert (F' : Forall (fun p => extremumOf d signal stamps isValley p /\ (s <= Peak.index p)%nat)
                 (flat_map
                    (fun i =>
                       if if isValley
                          then (at_index signal i <? at_index signal (i - 1))
                               && (at_index signal i <? at_index signal (i + 1))
                          else gt (at_index signal i) (at_index signal (i - 1))
                               && gt (at_index signal i) (at_index signal (i + 1))
                       then
                         if ge (calculateProminence signal i isValley) (prominence (config d))
                         then [Peak.mk (at_index signal i) i (at_index stamps i)
                                 (calculateProminence signal i isValley)]
                         else []
                       else []) (seq (S s) n))).
  { eapply Forall_impl; [|exact F]. cbn beta. intros p [H1 H2]. split; [assumption|lia]. }
  destruct (if isValley
            then (at_index signal s <? at_index signal (s - 1))
                 && (at_index signal s <? at_index signal (s + 1))
            else gt (at_index signal s) (at_index signal (s - 1))
                 && gt (at_index signal s) (at_index signal (s + 1))) eqn:E;
    [|split; assumption].
  destruct (ge (calculateProminence signal s isValley) (prominence (config d))) eqn:P;
    [|split; assumption].
  cbn [app]. split.
  - constructor; [|exact F'].
    split; [|cbn; lia].
    unfold extremumOf. cbn [Peak.index Peak.value Peak.timestamp Peak.prominence].
    repeat split; try assumption; lia.
  - cbn [inOrder]. split; [|exact A].
    eapply Forall_impl; [|exact F]. cbn beta. intros p [_ H2]. cbn [Peak.index]. lia.
Qed.

Lemma scan_spec d signal stamps isValley :
  Forall (extremumOf d signal stamps isValley) (scan d signal stamps isValley) /\
  inOrder (scan d signal stamps isValley).
Proof.
  unfold scan.
  destruct (Nat.le_gt_cases (length signal) 2) as [L|L].
  - replace (length signal - 2)%nat with 0%nat by lia. split; constructor.
  - destruct (scan_from d signal stamps isValley (length signal - 2) 1) as [F A]; [lia|lia|].
    cbn zeta in F, A. split; [|exact A].
    eapply Forall_impl; [|exact F]. cbn beta. intros p [H _]. exact H.
Qed.

Lemma first_distance x m : ffin x = true -> ge (x - neg_infinity) m = fnum m.
Proof.
  intros F. unfold ge. rewrite leb_spec, sub_spec. unfold ffin, fnum in *.
  change (Prim2SF neg_infinity) with (S754_infinity true).
  destruct (Prim2SF x); try discriminate; cbn [SFsub];
    destruct (Prim2SF m) as [[]|[]| |[] ? ?]; reflexivity.
Qed.

Lemma nan_distance x m : fnum m = false -> ge x m = false.
Proof. intros N. unfold ge. rewrite leb_fval, N. reflexivity. Qed.

Lemma filterStep_throw minDist peaks e :
  fold_left (filterStep minDist) peaks (Throw e) = Throw e.
Proof. induction peaks as [|p peaks IH]; [reflexivity|exact IH]. Qed.

Lemma apart_later minDist y a b :
  (Z.of_nat (Peak.index y) < 2 ^ 53)%Z -> (Z.of_nat (Peak.index a) < 2 ^ 53)%Z ->
  (Z.of_nat (Peak.index b) < 2 ^ 53)%Z ->
  apart minDist y a -> before a b -> apart minDist y b.
Proof.
  intros By Ba Bb H L. unfold apart, ge, before in *.
  destruct (of_Z_exact (Z.of_nat (Peak.index y))) as [Fy _]; [lia|].
  destruct (of_Z_exact (Z.of_nat (Peak.index a))) as [Fa _]; [lia|].
  destruct (of_Z_exact (Z.of_nat (Peak.index b))) as [Fb _]; [lia|].
  eapply leb_trans; [exact H|].
  apply sub_mono_l.
  - rewrite of_nat_leb by assumption. apply Nat.leb_le. lia.
  - apply sub_fnum; [apply ffin_fnum|]; assumption.
  - apply sub_fnum; [apply ffin_fnum|]; assumption.
Qed.

Section FilterLoop.

Variable Q : Peak.t -> Prop.
Variable minDist : number.
Hypothesis Q_bounded : forall p, Q p -> (Z.of_nat (Peak.index p) < 2 ^ 53)%Z.

Lemma filterStep_keeps filtered lastIndex peak rest :
  filterInvariant Q minDist filtered lastIndex (peak :: rest) ->
  Q peak -> Forall (before peak) rest ->
  (exists filtered' lastIndex',
     filterStep minDist (Normal (filtered, lastIndex)) peak = Normal (filtered', lastIndex') /\
     filterInvariant Q minDist filtered' lastIndex' rest /\ filtered' <> []) \/
  (filterStep minDist (Normal (filtered, lastIndex)) peak = Throw type_error /\
   filtered = [] /\ fnum minDist = false).
Proof.
  intros (I1 & I2 & I3 & I4 & I5) Qp Hrest.
  pose proof (Q_bounded peak Qp) as Bp.
  destruct (of_Z_exact (Z.of_nat (Peak.index peak))) as [Fp _]; [lia|].
  unfold filterStep.
  destruct (ge (of_Z (Z.of_nat (Peak.index peak)) - lastIndex) minDist) eqn:D.
  - left. eexists _, _. split; [reflexivity|]. split; [|destruct filtered; discriminate].
    unfold filterInvariant. repeat split.
    + apply Forall_app. split; [assumption|]. constructor; [assumption|constructor].
    + apply adjacent_snoc. split; [assumption|].
      destruct (rev filtered) as [|y r] eqn:R; [exact I|].
      apply I4; [|left; reflexivity].
      apply in_rev. rewrite R. left. reflexivity.
    + apply adjacent_snoc. split; [assumption|].
      destruct (rev filtered) as [|y r] eqn:R; [exact I|].
      unfold apart. rewrite <- I5. exact D.
    + intros f p Hf Hp. apply in_app_or in Hf as [Hf|[<-|[]]].
      * apply I4; [assumption|right; assumption].
      * rewrite Forall_forall in Hrest. apply Hrest. assumption.
    + rewrite rev_unit. reflexivity.
  - destruct (rev filtered) as [|lastPeak r] eqn:R.
    + right. split; [reflexivity|].
      assert (filtered = []) as ->.
      { rewrite <- (rev_involutive filtered), R. reflexivity. }
      split; [reflexivity|].
      rewrite I5, first_distance in D by assumption. exact D.
    + left. apply rev_cons_inv in R. subst filtered.
      apply Forall_app in I1 as [I1 Ql]. apply Forall_inv in Ql.
      apply adjacent_snoc in I2 as [I2 L2]. apply adjacent_snoc in I3 as [I3 L3].
      rewrite rev_involutive in L2, L3.
      assert (Hlp : before lastPeak peak).
      { apply I4; [apply in_or_app; right; left; reflexivity|left; reflexivity]. }
      destruct (gt (Peak.prominence peak) (Peak.prominence lastPeak)).
      * eexists _, _. split; [reflexivity|].
        rewrite removelast_snoc. split; [|destruct (rev r); discriminate].
        unfold filterInvariant. repeat split.
        -- apply Forall_app. split; [assumption|]. constructor; [assumption|constructor].
        -- apply adjacent_snoc. split; [assumption|]. rewrite rev_involutive.
           destruct r as [|y r]; [exact I|]. unfold before in *. lia.
        -- apply adjacent_snoc. split; [assumption|]. rewrite rev_involutive.
           destruct r as [|y r]; [exact I|].
           apply apart_later with (a := lastPeak); auto.
           apply Q_bounded. rewrite Forall_forall in I1. apply I1.
           apply in_rev. rewrite rev_involutive. left. reflexivity.
        -- intros f p Hf Hp. apply in_app_or in Hf as [Hf|[<-|[]]].
           ++ apply I4; [apply in_or_app; left; assumption|right; assumption].
           ++ rewrite Forall_forall in Hrest. apply Hrest. assumption.
        -- rewrite rev_unit. reflexivity.
      * eexists _, _. split; [reflexivity|].
        split; [|destruct (rev r); discriminate].
        unfold filterInvariant. repeat split.
        -- apply Forall_app. split; [assumption|]. constructor; [assumption|constructor].
        -- apply adjacent_snoc. rewrite rev_involutive. split; assumption.
        -- apply adjacent_snoc. rewrite rev_involutive. split; assumption.
        -- intros f p Hf Hp. apply I4; [assumption|right; assumption].
        -- rewrite rev_unit. exact I5.
Qed.

Lemma filterLoop peaks : forall filtered lastIndex,
  filterInvariant Q minDist filtered lastIndex peaks ->
  Forall Q peaks -> inOrder peaks ->
  (exists filtered' lastIndex',
     fold_left (filterStep minDist) peaks (Normal (filtered, lastIndex))
     = Normal (filtered', lastIndex') /\
     filterInvariant Q minDist filtered' lastIndex' []) \/
  (fold_left (filterStep minDist) peaks (Normal (filtered, lastIndex)) = Throw type_error /\
   fnum minDist = false).
Proof.
  induction peaks as [|peak rest IH]; intros filtered lastIndex I HQ HA.
  - left. eexists _, _. split; [reflexivity|exact I].
  - cbn [fold_left]. cbn [inOrder] in HA. destruct HA as [HA1 HA2].
    destruct (filterStep_keeps filtered lastIndex peak rest I) as
      [(f' & l' & E & I' & _)|(E & _ & N)].
    + apply Forall_inv in HQ. exact HQ.
    + exact HA1.
    + rewrite E. apply IH; [exact I'| |exact HA2]. apply Forall_inv_tail in HQ. exact HQ.
    + right. rewrite E, filterStep_throw. split; [reflexivity|exact N].
Qed.

End FilterLoop.

Lemma adjacent_short {A} (R : A -> A -> Prop) (l : list A) : (length l <= 1)%nat -> adjacent R l.
Proof. destruct l as [|a [|b l]]; cbn; intros H; try tauto; lia. Qed.

Lemma filterByDistance_spec (Q : Peak.t -> Prop) d peaks :
  (forall p, Q p -> (Z.of_nat (Peak.index p) < 2 ^ 53)%Z) ->
  Forall Q peaks -> inOrder peaks ->
  (exists filtered,
     filterByDistance d peaks = Normal filtered /\
     Forall Q filtered /\ adjacent before filtered /\
     adjacent (apart (minDistance (config d))) filtered) \/
  (filterByDistance d peaks = Throw type_error /\ fnum (minDistance (config d)) = false).
Proof.
  intros HB HQ HA. unfold filterByDistance.
  destruct (Nat.leb_spec (length peaks) 1) as [L|L].
  - left. exists peaks. repeat split; [assumption|apply adjacent_short; assumption..].
  - destruct (filterLoop Q (minDistance (config d)) HB peaks [] neg_infinity) as
      [(f' & l' & E & I1 & I2 & I3 & _)|[E N]]; try assumption.
    + unfold filterInvariant. repeat split; try constructor. intros f p [].
    + left. exists f'. unfold number in *. rewrite E. repeat split; assumption.
    + right. unfold number in *. rewrite E. split; [reflexivity|exact N].
Qed.

Lemma filtered_scan d (signal stamps : list number) (isValley : bool) :
  (Z.of_nat (length signal) < 2 ^ 32)%Z ->
  (exists filtered,
     filterByDistance d (scan d signal stamps isValley) = Normal filtered /\
     Forall (extremumOf d signal stamps isValley) filtered /\ adjacent before filtered /\
     adjacent (apart (minDistance (config d))) filtered) \/
  (filterByDistance d (scan d signal stamps isValley) = Throw type_error /\
   fnum (minDistance (config d)) = false).
Proof.
  intros HL. destruct (scan_spec d signal stamps isValley) as [F A].
  apply filterByDistance_spec; try assumption.
  intros p (_ & H & _). lia.
Qed.

(** X16: every peak [findPeaks] reports is an interior sample of the
    magnitude signal strictly above both neighbours, recorded with its own
    value, time stamp and prominence, the prominence reaching the configured
    threshold; the peaks come in increasing index order.  The same holds of
    the valleys [findValleys] reports on the vertical signal, with strictly
    below. *)
Theorem reported_extrema_are_genuine d data useFiltered :
  (Z.of_nat (length data) < 2 ^ 32)%Z ->
  (forall peaks, findPeaks d data useFiltered = Normal peaks ->
     Forall (extremumOf d (magnitudes useFiltered data) (timestamps data) false) peaks /\
     adjacent before peaks) /\
  (forall valleys, findValleys d data useFiltered = Normal valleys ->
     Forall (extremumOf d (heights useFiltered data) (timestamps data) true) valleys /\
     adjacent before valleys).
Proof.
  intros HL. split; intros found E.
  - unfold findPeaks in E. destruct (length data <? 3)%nat.
    + injection E as <-. split; constructor.
    + fold (magnitudes useFiltered data) in E. fold (timestamps data) in E.
      destruct (filtered_scan d (magnitudes useFiltered data) (timestamps data) false)
        as [(f & E' & H1 & H2 & _)|[E' _]].
      * unfold magnitudes. rewrite length_map. exact HL.
      * rewrite E' in E. injection E as <-. split; assumption.
      * rewrite E' in E. discriminate.
  - unfold findValleys in E. destruct (length data <? 3)%nat.
    + injection E as <-. split; constructor.
    + fold (heights useFiltered data) in E. fold (timestamps data) in E.
      destruct (filtered_scan d (heights useFiltered data) (timestamps data) true)
        as [(f & E' & H1 & H2 & _)|[E' _]].
      * unfold heights. rewrite length_map. exact HL.
      * rewrite E' in E. injection E as <-. split; assumption.
      * rewrite E' in E. discriminate.
Qed.

Lemma reported_extrema_are_genuine_witness :
  let d := constructor (mkConfig 1 3) in
  (Z.of_nat (length twinData) < 2 ^ 32)%Z /\
  findPeaks d twinData true = Normal [Peak.mk 7 3 3 6; Peak.mk 6 9 9 5] /\
  Forall (extremumOf d (magnitudes true twinData) (timestamps twinData) false)
    [Peak.mk 7 3 3 6; Peak.mk 6 9 9 5].
Proof.
  intros d.
  assert (H1 : (Z.of_nat (length twinData) < 2 ^ 32)%Z) by (vm_compute; reflexivity).
  assert (H2 : findPeaks d twinData true = Normal [Peak.mk 7 3 3 6; Peak.mk 6 9 9 5])
    by (vm_compute; reflexivity).
  split; [exact H1|]. split; [exact H2|].
  exact (proj1 (proj1 (reported_extrema_are_genuine d twinData true H1) _ H2)).
Defined.

(** X17: with a minimum distance that is a number, [findPeaks] and
    [findValleys] never throw, and any two consecutive extrema they report
    pass the distance test of the filter: the difference of their indices
    is at least [minDistance]. *)
Theorem kept_extrema_are_spaced d data useFiltered :
  (Z.of_nat (length data) < 2 ^ 32)%Z ->
  isNaN (minDistance (config d)) = false ->
  (exists peaks, findPeaks d data useFiltered = Normal peaks /\
     adjacent (apart (minDistance (config d))) peaks) /\
  (exists valleys, findValleys d data useFiltered = Normal valleys /\
     adjacent (apart (minDistance (config d))) valleys).
Proof.
  intros HL HN. unfold isNaN in HN. rewrite is_nan_fnum in HN.
  apply negb_false_iff in HN.
  split.
  - unfold findPeaks. destruct (length data <? 3)%nat.
    + exists []. split; [reflexivity|exact I].
    + fold (magnitudes useFiltered data). fold (timestamps data).
      destruct (filtered_scan d (magnitudes useFiltered data) (timestamps data) false)
        as [(f & E' & _ & _ & H3)|[_ N]].
      * unfold magnitudes. rewrite length_map. exact HL.
      * exists f. split; assumption.
      * congruence.
  - unfold findValleys. destruct (length data <? 3)%nat.
    + exists []. split; [reflexivity|exact I].
    + fold (heights useFiltered data). fold (timestamps data).
      destruct (filtered_scan d (heights useFiltered data) (timestamps data) true)
        as [(f & E' & _ & _ & H3)|[_ N]].
      * unfold heights. rewrite length_map. exact HL.
      * exists f. split; assumption.
      * congruence.
Qed.

Lemma kept_extrema_are_spaced_witness :
  let d := constructor (mkConfig 1 3) in
  (Z.of_nat (length twinData) < 2 ^ 32)%Z /\
  isNaN (minDistance (config d)) = false /\
  length (scan d (magnitudes true twinData) (timestamps twinData) false) = 3%nat /\
  exists peaks, findPeaks d twinData true = Normal peaks /\
    adjacent (apart (minDistance (config d))) peaks.
Proof.
  intros d.
  assert (H1 : (Z.of_nat (length twinData) < 2 ^ 32)%Z) by (vm_compute; reflexivity).
  assert (H2 : isNaN (minDistance (config d)) = false) by (vm_compute; reflexivity).
  split; [exact H1|]. split; [exact H2|]. split; [vm_compute; reflexivity|].
  exact (proj1 (kept_extrema_are_spaced d twinData true H1 H2)).
Defined.

(** X18: with a minimum distance of NaN the distance filter throws a
    TypeError as soon as it is given two or more extrema (it reads the
    prominence of a kept extremum when none has been kept), and returns up
    to one extremum unchanged. *)
Theorem nan_distance_breaks_filter d peaks :
  isNaN (minDistance (config d)) = true ->
  filterByDistance d peaks
  = if (length peaks <=? 1)%nat then Normal peaks else Throw type_error.
Proof.
  intros HN. unfold isNaN in HN. rewrite is_nan_fnum in HN. apply negb_true_iff in HN.
  unfold filterByDistance. destruct (length peaks <=? 1)%nat eqn:L; [reflexivity|].
  destruct peaks as [|p rest]; [discriminate|].
  cbn [fold_left]. unfold filterStep at 2.
  rewrite nan_distance by assumption. cbn [rev].
  rewrite filterStep_throw. reflexivity.
Qed.

Lemma nan_distance_breaks_filter_witness :
  let d := constructor (mkConfig 1 nan) in
  isNaN (minDistance (config d)) = true /\
  findPeaks d twinData true = Throw type_error.
Proof.
  intros d.
  assert (H : isNaN (minDistance (config d)) = true) by (vm_compute; reflexivity).
  split; [exact H|].
  unfold findPeaks.
  change (length twinData <? 3)%nat with false. cbv iota.
  rewrite (nan_distance_breaks_filter d _ H). vm_compute. reflexivity.
Defined.

End PeakDetectorMore.
